(** * PhotoVault: Memory Discovery and Flashback Reel engine

    A shallow embedding of [apps/memories/services.py], [apps/memories/models.py]
    and [apps/memories/tasks.py].

    Conventions of the embedding:
    - Python [int] is [Z]; Python [float] is modelled by exact rationals [Q]
      (every constant of the scorer, 0.1, 0.5, 1.5, 2.0, 365.25, is a rational);
    - [datetime.date] is a record of year, month and day with the arithmetic of
      CPython's [datetime] module (proleptic Gregorian ordinals);
    - database tables are lists of rows in primary-key order, querysets are
      list filters, [order_by] is a stable sort over the table order;
    - the Django cache is a finite map from keys to lists of memory ids;
    - a Python exception is the [Raise] constructor of [Result]. *)

From Stdlib Require Import ZArith QArith Qminmax Lqa List Bool String Lia Permutation.
From stdpp Require Import gmap.
Import ListNotations.

Local Open Scope Z_scope.

(** ** Exceptions *)

Inductive Exc : Type :=
| UserDoesNotExist
| ValueError (msg : string)
| OverflowError
| IndexError
| ZeroDivisionError.

Inductive Result (A : Type) : Type :=
| Ok (a : A)
| Raise (e : Exc).
Arguments Ok {A} a.
Arguments Raise {A} e.

#[global] Instance Result_ret : MRet Result := fun A a => Ok a.

#[global] Instance Result_bind : MBind Result := fun A B k r =>
  match r with
  | Ok a => k a
  | Raise e => Raise e
  end.

(** ** Calendar: [datetime.date] and [datetime.timedelta(days=...)] *)

Module Calendar.

Record date : Type := mkDate { year : Z; month : Z; day : Z }.

Definition MINYEAR : Z := 1.
Definition MAXYEAR : Z := 9999.
Definition MAXORDINAL : Z := 3652059.

Definition is_leap (y : Z) : bool :=
  (y mod 4 =? 0) && (negb (y mod 100 =? 0) || (y mod 400 =? 0)).

Definition DAYS_IN_MONTH (m : Z) : Z :=
  match m with
  | 1 => 31 | 2 => 28 | 3 => 31 | 4 => 30 | 5 => 31 | 6 => 30
  | 7 => 31 | 8 => 31 | 9 => 30 | 10 => 31 | 11 => 30 | 12 => 31
  | _ => -1
  end.

Definition DAYS_BEFORE_MONTH (m : Z) : Z :=
  match m with
  | 1 => 0 | 2 => 31 | 3 => 59 | 4 => 90 | 5 => 120 | 6 => 151
  | 7 => 181 | 8 => 212 | 9 => 243 | 10 => 273 | 11 => 304 | 12 => 334
  | _ => -1
  end.

Definition days_before_year (y : Z) : Z :=
  let y' := y - 1 in y' * 365 + y' / 4 - y' / 100 + y' / 400.

Definition days_in_month (y m : Z) : Z :=
  if (m =? 2) && is_leap y then 29 else DAYS_IN_MONTH m.

Definition days_before_month (y m : Z) : Z :=
  DAYS_BEFORE_MONTH m + (if (2 <? m) && is_leap y then 1 else 0).

Definition ymd2ord (y m d : Z) : Z :=
  days_before_year y + days_before_month y m + d.

Definition toordinal (d : date) : Z := ymd2ord (year d) (month d) (day d).

(** [_ord2ymd] of CPython, with its 400, 100, 4 and 1 year cycles. *)
Definition ord2ymd (n : Z) : date :=
  let n := n - 1 in
  let n400 := n / 146097 in
  let n := n mod 146097 in
  let y := n400 * 400 + 1 in
  let n100 := n / 36524 in
  let n := n mod 36524 in
  let n4 := n / 1461 in
  let n := n mod 1461 in
  let n1 := n / 365 in
  let n := n mod 365 in
  let y := y + n100 * 100 + n4 * 4 + n1 in
  if (n1 =? 4) || (n100 =? 4) then mkDate (y - 1) 12 31
  else
    let leapyear := (n1 =? 3) && (negb (n4 =? 24) || (n100 =? 3)) in
    let m := Z.shiftr (n + 50) 5 in
    let preceding :=
      DAYS_BEFORE_MONTH m + (if (2 <? m) && leapyear then 1 else 0) in
    if n <? preceding then
      let m' := m - 1 in
      let preceding' :=
        preceding - (DAYS_IN_MONTH m'
                     + (if (m' =? 2) && leapyear then 1 else 0)) in
      mkDate y m' (n - preceding' + 1)
    else mkDate y m (n - preceding + 1).

(** [_check_date_fields]: what the [date] constructor accepts. *)
Definition check_date_fields (y m d : Z) : bool :=
  (MINYEAR <=? y) && (y <=? MAXYEAR) && (1 <=? m) && (m <=? 12)
  && (1 <=? d) && (d <=? days_in_month y m).

Definition valid (d : date) : bool :=
  check_date_fields (year d) (month d) (day d).

(** [d + timedelta(days=k)]. *)
Definition add_days (d : date) (k : Z) : Result date :=
  let o := toordinal d + k in
  if (0 <? o) && (o <=? MAXORDINAL) then Ok (ord2ymd o)
  else Raise OverflowError.

(** [d.replace(year=y)]: builds [date(y, d.month, d.day)], which raises
    [ValueError] when the fields do not name a day of the calendar. *)
Definition replace_year (d : date) (y : Z) : Result date :=
  if negb ((MINYEAR <=? y) && (y <=? MAXYEAR))
  then Raise (ValueError "year is out of range")
  else if check_date_fields y (month d) (day d)
  then Ok (mkDate y (month d) (day d))
  else Raise (ValueError "day is out of range for month").

(** [d1 - d2], in days. *)
Definition days_between (d1 d2 : date) : Z := toordinal d1 - toordinal d2.

Definition date_eqb (a b : date) : bool :=
  (year a =? year b) && (month a =? month b) && (day a =? day b).

(** Dates compare field by field, as the tuples (year, month, day). *)
Definition date_leb (a b : date) : bool :=
  (year a <? year b)
  || ((year a =? year b)
      && ((month a <? month b)
          || ((month a =? month b) && (day a <=? day b)))).

Definition date_ltb (a b : date) : bool := negb (date_leb b a).

Record datetime : Type := mkDatetime { dt_date : date; dt_secs : Z }.

Definition datetime_leb (a b : datetime) : bool :=
  date_ltb (dt_date a) (dt_date b)
  || (date_eqb (dt_date a) (dt_date b) && (dt_secs a <=? dt_secs b)).

(** [dt.replace(hour=0, minute=0, second=0, microsecond=0)]. *)
Definition midnight (t : datetime) : datetime := mkDatetime (dt_date t) 0.

End Calendar.
Export Calendar.

(** ** Stable sorting, as [list.sort], [sorted] and [order_by] *)

Section StableSort.
Context {A : Type}.
(** [before x y]: [x] may stay in front of [y]. *)
Variable before : A -> A -> bool.

Fixpoint insert_by (x : A) (l : list A) : list A :=
  match l with
  | [] => [x]
  | y :: ys => if before x y then x :: y :: ys else y :: insert_by x ys
  end.

Fixpoint sort_by (l : list A) : list A :=
  match l with
  | [] => []
  | x :: xs => insert_by x (sort_by xs)
  end.

End StableSort.

(** ** The photo index: [apps.images.models.Image], album links, shares *)

Record Image : Type := mkImage {
  img_id : Z;
  img_user : Z;
  img_width : option Z;          (* IntegerField(null=True) *)
  img_height : option Z;         (* IntegerField(null=True) *)
  img_taken_at : option datetime;  (* DateTimeField(null=True) *)
  img_created_at : datetime
}.

(** The tables that discovery and selection only read. [album_images] is the
    through table of [Album.images] as (album id, image id) rows;
    [public_shares] holds the album id of every [PublicShare] row. *)
Record PhotoIndex : Type := mkPhotoIndex {
  users : list Z;
  images : list Image;
  album_images : list (Z * Z);
  public_shares : list Z
}.

(** [User.objects.get(id=user_id)] *)
Definition get_user (ix : PhotoIndex) (user_id : Z) : Result Z :=
  if existsb (Z.eqb user_id) (users ix) then Ok user_id
  else Raise UserDoesNotExist.

(** [photo.albums.count()] *)
Definition album_count (ix : PhotoIndex) (photo : Image) : Z :=
  Z.of_nat (length (List.filter (fun l => snd l =? img_id photo) (album_images ix))).

(** [PublicShare.objects.filter(album__images=photo).count()]: the join of the
    shares with the album links of the photo. *)
Definition share_count (ix : PhotoIndex) (photo : Image) : Z :=
  Z.of_nat (length (List.filter
    (fun sl => (fst sl =? fst (snd sl)) && (snd (snd sl) =? img_id photo))
    (list_prod (public_shares ix) (album_images ix)))).

(** Truth value of an optional integer: [None] and [0] are falsy. *)
Definition truthy (v : option Z) : bool :=
  match v with
  | Some n => negb (n =? 0)
  | None => false
  end.

Definition int_of (v : option Z) : Z :=
  match v with Some n => n | None => 0 end.

(** ** Significance scorer *)

Local Open Scope Q_scope.

Definition megapixels (photo : Image) : Q :=
  inject_Z (int_of (img_width photo) * int_of (img_height photo)) / 1000000.

(** [(timezone.now().date() - photo.taken_at.date()).days / 365.25] *)
Definition years_ago (now : datetime) (taken : datetime) : Q :=
  inject_Z (days_between (dt_date now) (dt_date taken)) / (36525 # 100).

(** [MemoryEngine.score_photo_significance] *)
Definition score_photo_significance
    (ix : PhotoIndex) (now : datetime) (photo : Image) : Q :=
  let score := 0 in
  let score := score + 1 in
  let score := score + inject_Z (share_count ix photo) * 2 in
  let score := score + (1 # 2) in
  let score := score + inject_Z (album_count ix photo) * (3 # 2) in
  let score :=
    if truthy (img_width photo) && truthy (img_height photo)
    then score + Qmin (megapixels photo * (1 # 10)) 2
    else score in
  let score :=
    match img_taken_at photo with
    | Some taken => score + Qmax 0 (2 - years_ago now taken * (1 # 10))
    | None => score
    end in
  score.

Local Close Scope Q_scope.

(** ** Memories: [Memory], [MemoryPhoto] and the discovery cache *)

Record Memory : Type := mkMemory {
  mem_id : Z;
  mem_user : Z;
  mem_target_date : date;
  mem_significance_score : Q;
  mem_created_at : datetime;
  mem_last_viewed : option datetime;
  mem_engagement_count : Z
}.

Record MemoryPhoto : Type := mkMemoryPhoto {
  mp_memory : Z;
  mp_photo : Z;
  mp_order : Z;
  mp_significance_score : Q
}.

(** The key [f"daily_memories:{user_id}:{target_date}"]. *)
Definition cache_key (user_id : Z) (d : date) : Z * (Z * Z * Z) :=
  (user_id, (year d, month d, day d)).

Record MemoryStore : Type := mkMemoryStore {
  memories : list Memory;
  memory_photos : list MemoryPhoto;
  cache : gmap (Z * (Z * Z * Z)) (list Z)
}.

Definition cache_set (st : MemoryStore) (k : Z * (Z * Z * Z)) (v : list Z)
    : MemoryStore :=
  mkMemoryStore (memories st) (memory_photos st) (<[k := v]> (cache st)).

Definition cache_delete (st : MemoryStore) (k : Z * (Z * Z * Z)) : MemoryStore :=
  mkMemoryStore (memories st) (memory_photos st) (delete k (cache st)).

(** The next value of an auto-increment primary key. *)
Definition next_id (ids : list Z) : Z := 1 + fold_right Z.max 0 ids.

(** ** Memory discovery engine: [MemoryEngine] *)

Module MemoryEngine.

Definition default_significance_threshold : Q := 1.
Definition max_photos_per_memory : nat := 20.
Definition date_expansion_days : Z := 7.

(** Ascending order on [taken_at]; rows without it never reach a sort,
    every query below filters on the column first. *)
Definition taken_leb (a b : Image) : bool :=
  match img_taken_at a, img_taken_at b with
  | Some x, Some y => datetime_leb x y
  | None, _ => true
  | Some _, None => false
  end.

(** [order_by('-taken_at')] *)
Definition newest_first (l : list Image) : list Image :=
  sort_by (fun a b => taken_leb b a) l.

(** [order_by('taken_at')] *)
Definition oldest_first (l : list Image) : list Image :=
  sort_by taken_leb l.

Definition on_calendar_day (target : date) (p : Image) : bool :=
  match img_taken_at p with
  | Some t =>
      (month (dt_date t) =? month target)
      && (day (dt_date t) =? day target)
      && (year (dt_date t) <? year target)
  | None => false
  end.

(** [taken_at__date__gte=lo, taken_at__date__lte=hi] *)
Definition taken_between (lo hi : date) (p : Image) : bool :=
  match img_taken_at p with
  | Some t => date_leb lo (dt_date t) && date_leb (dt_date t) hi
  | None => false
  end.

(** [_find_photos_by_date] *)
Definition find_photos_by_date
    (ix : PhotoIndex) (user : Z) (target_date : date) : list Image :=
  firstn 50 (newest_first
    (List.filter (fun p => (img_user p =? user) && on_calendar_day target_date p)
                 (images ix))).

(** The body of the [for year_offset in range(1, 10)] loop of
    [_find_photos_with_date_expansion], over the offsets still to visit. *)
Fixpoint expansion_loop (ix : PhotoIndex) (user : Z) (target_date : date)
    (start_date end_date : date) (offsets : list Z) (photos : list Image)
    : Result (list Image) :=
  match offsets with
  | [] => Ok photos
  | year_offset :: rest =>
      year_start ← replace_year start_date (year target_date - year_offset);
      year_end ← replace_year end_date (year target_date - year_offset);
      let year_photos :=
        newest_first
          (List.filter (fun p => (img_user p =? user)
                                 && taken_between year_start year_end p)
                       (images ix)) in
      let photos := photos ++ firstn 10 year_photos in
      if (30 <=? length photos)%nat then Ok photos
      else expansion_loop ix user target_date start_date end_date rest photos
  end.

(** [_find_photos_with_date_expansion] *)
Definition find_photos_with_date_expansion
    (ix : PhotoIndex) (user : Z) (target_date : date) : Result (list Image) :=
  start_date ← add_days target_date (- date_expansion_days);
  end_date ← add_days target_date date_expansion_days;
  expansion_loop ix user target_date start_date end_date (seqZ 1 9) [].

Definition by_score_desc (a b : Image * Q) : bool := Qle_bool (snd b) (snd a).

(** [_score_photos_significance] *)
Definition score_photos_significance
    (ix : PhotoIndex) (now : datetime) (photos : list Image)
    : list (Image * Q) :=
  let scored_photos :=
    List.filter (fun ps => Qle_bool default_significance_threshold (snd ps))
                (map (fun photo => (photo, score_photo_significance ix now photo))
                     photos) in
  firstn max_photos_per_memory (sort_by by_score_desc scored_photos).

(** The [MemoryPhoto] rows of [_create_memory], numbered from [order]. *)
Fixpoint memory_photo_rows (memory : Z) (order : Z)
    (scored_photos : list (Image * Q)) : list MemoryPhoto :=
  match scored_photos with
  | [] => []
  | (photo, score) :: rest =>
      mkMemoryPhoto memory (img_id photo) order score
      :: memory_photo_rows memory (order + 1) rest
  end.

(** [_create_memory] *)
Definition create_memory (now : datetime) (st : MemoryStore) (user : Z)
    (target_date : date) (scored_photos : list (Image * Q))
    : Memory * MemoryStore :=
  let total_score := fold_left Qplus (map snd scored_photos) (0%Q) in
  let avg_score :=
    match scored_photos with
    | [] => 0%Q
    | _ => (total_score / inject_Z (Z.of_nat (length scored_photos)))%Q
    end in
  let memory :=
    mkMemory (next_id (map mem_id (memories st))) user target_date avg_score
             now None 0 in
  (memory,
   mkMemoryStore (memories st ++ [memory])
                 (memory_photos st
                  ++ memory_photo_rows (mem_id memory) 0 scored_photos)
                 (cache st)).

Definition cache_timeout : Z := 3600.

(** [discover_daily_memories]: the outcome and the store it leaves. *)
Definition discover_daily_memories (ix : PhotoIndex) (now : datetime)
    (st : MemoryStore) (user_id : Z) (target_date : option date)
    : Result (list Memory) * MemoryStore :=
  let target_date := default (dt_date now) target_date in
  let key := cache_key user_id target_date in
  match cache st !! key with
  | Some cached_memories =>
      match cached_memories with
      | _ :: _ =>
          (Ok (List.filter
                 (fun m => existsb (Z.eqb (mem_id m)) cached_memories)
                 (memories st)), st)
      | [] => (Ok [], st)
      end
  | None =>
      match get_user ix user_id with
      | Raise e => (Raise e, st)
      | Ok user =>
          let existing_memory :=
            head (List.filter
                    (fun m => (mem_user m =? user)
                              && date_eqb (mem_target_date m) target_date)
                    (memories st)) in
          match existing_memory with
          | Some m => (Ok [m], cache_set st key [mem_id m])
          | None =>
              let photos := find_photos_by_date ix user target_date in
              let photos :=
                match photos with
                | [] => find_photos_with_date_expansion ix user target_date
                | _ => Ok photos
                end in
              match photos with
              | Raise e => (Raise e, st)
              | Ok [] => (Ok [], cache_set st key [])
              | Ok photos =>
                  match score_photos_significance ix now photos with
                  | [] => (Ok [], cache_set st key [])
                  | scored_photos =>
                      let '(memory, st') :=
                        create_memory now st user target_date scored_photos in
                      (Ok [memory], cache_set st' key [mem_id memory])
                  end
              end
          end
      end
  end.

(** [invalidate_memory_cache] *)
Definition invalidate_memory_cache (now : datetime) (st : MemoryStore)
    (user_id : Z) (target_date : option date) : MemoryStore :=
  cache_delete st (cache_key user_id (default (dt_date now) target_date)).

(** The photos linked to a memory: [memory.photos.all()]. *)
Definition memory_photo_set (st : MemoryStore) (m : Memory) : list Z :=
  map mp_photo (List.filter (fun r => mp_memory r =? mem_id m) (memory_photos st)).

(** Rows of [Memory] for one (user, target date). *)
Definition memory_rows (st : MemoryStore) (user_id : Z) (d : date)
    : list Memory :=
  List.filter (fun m => (mem_user m =? user_id) && date_eqb (mem_target_date m) d)
              (memories st).

End MemoryEngine.

(** ** Flashback reels: [FlashbackReel] and [FlashbackReelService] *)

Inductive ReelStatus : Type := pending | processing | completed | failed.

Definition ReelStatus_eqb (a b : ReelStatus) : bool :=
  match a, b with
  | pending, pending | processing, processing
  | completed, completed | failed, failed => true
  | _, _ => false
  end.

Record FlashbackReel : Type := mkReel {
  reel_id : Z;
  reel_user : Z;
  reel_title : string;
  reel_photos : list Z;
  reel_video_file : option string;
  reel_duration : Z;
  reel_theme : string;
  reel_status : ReelStatus;
  reel_share_link : option Z;
  reel_created_at : datetime;
  reel_completed_at : option datetime;
  reel_error_message : string;
  reel_start_date : date;
  reel_end_date : date;
  reel_photo_count : Z
}.

(** The reel table, the jobs handed to the queue as (reel id, retries,
    countdown), and the journal of the writes of [status] as
    (reel id, (status before, status after)). *)
Record ReelStore : Type := mkReelStore {
  reels : list FlashbackReel;
  queue : list (Z * (nat * Z));
  transitions : list (Z * (ReelStatus * ReelStatus))
}.

Module FlashbackReelService.
Import MemoryEngine.

Definition min_photos_for_reel : Z := 10.
Definition max_photos_per_reel : Z := 20.
Definition default_duration : Z := 30.
Definition supported_themes : list string :=
  ["classic"; "modern"; "vintage"; "cinematic"]%string.

(** [photo.taken_at.date() if photo.taken_at else photo.created_at.date()] *)
Definition photo_date (photo : Image) : date :=
  match img_taken_at photo with
  | Some t => dt_date t
  | None => dt_date (img_created_at photo)
  end.

(** [p.taken_at or p.created_at] *)
Definition taken_or_created (photo : Image) : datetime :=
  match img_taken_at photo with
  | Some t => t
  | None => img_created_at photo
  end.

(** [photos_by_date[k].append(v)] on a [defaultdict(list)], whose keys keep
    their insertion order. *)
Fixpoint dict_append (k : date) (v : Image * Q)
    (d : list (date * list (Image * Q))) : list (date * list (Image * Q)) :=
  match d with
  | [] => [(k, [v])]
  | (k', vs) :: rest =>
      if date_eqb k k' then (k', vs ++ [v]) :: rest
      else (k', vs) :: dict_append k v rest
  end.

(** [photos_by_date[k]] *)
Fixpoint dict_get (k : date) (d : list (date * list (Image * Q)))
    : list (Image * Q) :=
  match d with
  | [] => []
  | (k', vs) :: rest => if date_eqb k k' then vs else dict_get k rest
  end.

Definition group_by_date (scored_photos : list (Image * Q))
    : list (date * list (Image * Q)) :=
  fold_left (fun d ps => dict_append (photo_date (fst ps)) ps d)
            scored_photos [].

(** [sorted(photos_by_date[date_key], key=score, reverse=True)[0][0]] *)
Definition best_of (d : list (date * list (Image * Q))) (date_key : date)
    : Result Image :=
  match sort_by by_score_desc (dict_get date_key d) with
  | [] => Raise IndexError
  | (photo, _) :: _ => Ok photo
  end.

(** [dates[i]] *)
Definition list_index (dates : list date) (i : nat) : Result date :=
  match nth_error dates i with
  | Some x => Ok x
  | None => Raise IndexError
  end.

(** [_apply_temporal_distribution] *)
Definition apply_temporal_distribution
    (scored_photos : list (Image * Q)) (count : nat) : Result (list Image) :=
  if (length scored_photos <=? count)%nat then Ok (map fst scored_photos)
  else
    let photos_by_date := group_by_date scored_photos in
    let dates := sort_by date_leb (map fst photos_by_date) in
    if (length dates <=? count)%nat then
      selected ← mapM (best_of photos_by_date) dates;
      let remaining_count := (count - length selected)%nat in
      if (0 <? remaining_count)%nat then
        let all_remaining :=
          concat (map (fun date_key => tl (dict_get date_key photos_by_date))
                      dates) in
        Ok (selected
            ++ map fst (firstn remaining_count
                               (sort_by by_score_desc all_remaining)))
      else Ok selected
    else if (count =? 0)%nat then Raise ZeroDivisionError
    else
      let date_step := (length dates / count)%nat in
      selected_dates ←
        mapM (fun i => list_index dates (i * date_step)) (seq 0 count);
      mapM (best_of photos_by_date) selected_dates.

(** [_advanced_photo_selection] *)
Definition advanced_photo_selection (ix : PhotoIndex) (now : datetime)
    (photos : list Image) (count : nat) : Result (list Image) :=
  let scored_photos :=
    map (fun photo => (photo, score_photo_significance ix now photo)) photos in
  let scored_photos := sort_by by_score_desc scored_photos in
  selected_photos ← apply_temporal_distribution scored_photos count;
  Ok (sort_by (fun a b => datetime_leb (taken_or_created a) (taken_or_created b))
              selected_photos).

(** The queryset of [select_representative_photos] and [can_generate_reel]. *)
Definition photos_in_period (ix : PhotoIndex) (user_id : Z)
    (start_date end_date : date) : list Image :=
  List.filter (fun p => (img_user p =? user_id)
                        && taken_between start_date end_date p)
              (images ix).

(** [can_generate_reel] *)
Definition can_generate_reel (ix : PhotoIndex) (user_id : Z)
    (start_date end_date : date) : bool :=
  min_photos_for_reel
  <=? Z.of_nat (length (photos_in_period ix user_id start_date end_date)).

(** [select_representative_photos] *)
Definition select_representative_photos (ix : PhotoIndex) (now : datetime)
    (user_id : Z) (start_date end_date : date) (count : option Z)
    : Result (list Image) :=
  let count := default max_photos_per_reel count in
  let count := Z.max min_photos_for_reel (Z.min count max_photos_per_reel) in
  let photos := oldest_first (photos_in_period ix user_id start_date end_date) in
  if Z.of_nat (length photos) <=? count then Ok photos
  else advanced_photo_selection ix now photos (Z.to_nat count).

(** [start_reel_generation]: [generate_flashback_reel_video.delay(reel_id)]. *)
Definition start_reel_generation (rs : ReelStore) (id : Z) : ReelStore :=
  mkReelStore (reels rs) (queue rs ++ [(id, (0%nat, 0))]) (transitions rs).

(** [create_reel_request]; the message of its [ValueError] is kept without
    the two counts it interpolates. *)
Definition create_reel_request (ix : PhotoIndex) (now : datetime)
    (rs : ReelStore) (user_id : Z) (title : string)
    (start_date end_date : date) (theme : string) (duration : option Z)
    (async_processing : bool) : Result FlashbackReel * ReelStore :=
  match get_user ix user_id with
  | Raise e => (Raise e, rs)
  | Ok user =>
      let theme :=
        if existsb (String.eqb theme) supported_themes then theme
        else "classic"%string in
      let duration := default default_duration duration in
      let duration := Z.max 10 (Z.min duration 300) in
      match select_representative_photos ix now user_id start_date end_date None
      with
      | Raise e => (Raise e, rs)
      | Ok photos =>
          if Z.of_nat (length photos) <? min_photos_for_reel
          then (Raise (ValueError "Not enough photos for reel"), rs)
          else
            let reel :=
              mkReel (next_id (map reel_id (reels rs))) user title
                     (map img_id photos) None duration theme pending None
                     now None EmptyString start_date end_date
                     (Z.of_nat (length photos)) in
            let rs := mkReelStore (reels rs ++ [reel]) (queue rs)
                                  (transitions rs) in
            let rs :=
              if async_processing then start_reel_generation rs (reel_id reel)
              else rs in
            (Ok reel, rs)
      end
  end.

(** [FlashbackReel.objects.get(id=reel_id)] *)
Definition get_reel (rs : ReelStore) (id : Z) : option FlashbackReel :=
  List.find (fun r => reel_id r =? id) (reels rs).

(** [reel.save(update_fields=[...])]: rewrite the row of a reel. *)
Definition update_reel (f : FlashbackReel -> FlashbackReel) (id : Z)
    (l : list FlashbackReel) : list FlashbackReel :=
  map (fun r => if reel_id r =? id then f r else r) l.

Definition set_status (s : ReelStatus) (r : FlashbackReel) : FlashbackReel :=
  mkReel (reel_id r) (reel_user r) (reel_title r) (reel_photos r)
         (reel_video_file r) (reel_duration r) (reel_theme r) s
         (reel_share_link r) (reel_created_at r) (reel_completed_at r)
         (reel_error_message r) (reel_start_date r) (reel_end_date r)
         (reel_photo_count r).

Definition set_error_message (msg : string) (r : FlashbackReel)
    : FlashbackReel :=
  mkReel (reel_id r) (reel_user r) (reel_title r) (reel_photos r)
         (reel_video_file r) (reel_duration r) (reel_theme r) (reel_status r)
         (reel_share_link r) (reel_created_at r) (reel_completed_at r)
         msg (reel_start_date r) (reel_end_date r) (reel_photo_count r).

Definition set_completed_at (t : datetime) (r : FlashbackReel)
    : FlashbackReel :=
  mkReel (reel_id r) (reel_user r) (reel_title r) (reel_photos r)
         (reel_video_file r) (reel_duration r) (reel_theme r) (reel_status r)
         (reel_share_link r) (reel_created_at r) (Some t)
         (reel_error_message r) (reel_start_date r) (reel_end_date r)
         (reel_photo_count r).

Definition set_share_link (l : Z) (r : FlashbackReel) : FlashbackReel :=
  mkReel (reel_id r) (reel_user r) (reel_title r) (reel_photos r)
         (reel_video_file r) (reel_duration r) (reel_theme r) (reel_status r)
         (Some l) (reel_created_at r) (reel_completed_at r)
         (reel_error_message r) (reel_start_date r) (reel_end_date r)
         (reel_photo_count r).

(** A write of the [status] column of an existing row, with more columns
    rewritten by [f]; the journal records the status it replaces. *)
Definition write_status (rs : ReelStore) (id : Z) (s : ReelStatus)
    (f : FlashbackReel -> FlashbackReel) : ReelStore :=
  match get_reel rs id with
  | Some r =>
      mkReelStore (update_reel (fun r => set_status s (f r)) id (reels rs))
                  (queue rs)
                  (transitions rs ++ [(id, (reel_status r, s))])
  | None => rs
  end.

(** [FlashbackReel.mark_completed] *)
Definition mark_completed (now : datetime) (rs : ReelStore) (id : Z)
    : ReelStore :=
  write_status rs id completed (set_completed_at now).

(** [FlashbackReel.mark_failed] *)
Definition mark_failed (rs : ReelStore) (id : Z) (error_message : string)
    : ReelStore :=
  write_status rs id failed (set_error_message error_message).

(** [cancel_reel_generation] *)
Definition cancel_reel_generation (rs : ReelStore) (id : Z)
    : bool * ReelStore :=
  match get_reel rs id with
  | Some reel =>
      match reel_status reel with
      | pending | processing =>
          (true,
           write_status rs id failed (set_error_message "Cancelled by user"))
      | _ => (false, rs)
      end
  | None => (false, rs)
  end.

(** [retry_reel_generation]; the task id it returns is not modelled. *)
Definition retry_reel_generation (rs : ReelStore) (id : Z)
    : Result unit * ReelStore :=
  match get_reel rs id with
  | Some reel =>
      match reel_status reel with
      | failed =>
          let rs := write_status rs id pending (set_error_message EmptyString) in
          (Ok tt, start_reel_generation rs id)
      | _ => (Raise (ValueError "Cannot retry reel with status"), rs)
      end
  | None => (Raise (ValueError "Reel not found"), rs)
  end.

End FlashbackReelService.

(** ** The generation job: [tasks.generate_flashback_reel_video] *)

Module Tasks.
Import FlashbackReelService.

(** What the rendering step does on one attempt: it hands back the video
    content, or an exception with message [str(exc)] escapes it. *)
Inductive RenderOutcome : Type :=
| Rendered (content : string)
| RenderRaises (msg : string).

(** How one run of the task ends for the worker: the dictionary it returns
    (its ['status'], ['message'] and, on the last failure, ['retries']), or
    the [Retry] raised by [self.retry(countdown=...)]. *)
Inductive TaskOutcome : Type :=
| Returned (status : string) (message : string) (retries : option nat)
| RetryRaised (countdown : Z).

Definition max_retries : nat := 3.

(** [self.retry(countdown=c)]: the task is queued again, one retry later. *)
Definition retry (rs : ReelStore) (id : Z) (retries : nat) (countdown : Z)
    : ReelStore :=
  mkReelStore (reels rs) (queue rs ++ [(id, (S retries, countdown))])
              (transitions rs).

(** [_create_reel_share_link]: best effort; [share] is the link the sharing
    service mints, if it does. Every exception is swallowed. *)
Definition create_reel_share_link (share : option Z) (rs : ReelStore) (id : Z)
    : ReelStore :=
  match get_reel rs id, share with
  | Some reel, Some link =>
      match reel_share_link reel with
      | Some _ => rs
      | None =>
          mkReelStore (update_reel (set_share_link link) id (reels rs))
                      (queue rs) (transitions rs)
      end
  | _, _ => rs
  end.

(** One run of [generate_flashback_reel_video] with [self.request.retries =
    retries]. *)
Definition generate_flashback_reel_video (render : RenderOutcome)
    (share : option Z) (now : datetime) (retries : nat) (rs : ReelStore)
    (id : Z) : TaskOutcome * ReelStore :=
  match get_reel rs id with
  | None => (Returned "error" "Reel not found" None, rs)
  | Some reel =>
      let rs := write_status rs id processing (fun r => r) in
      match reel_photos reel with
      | [] =>
          (Returned "error" "No photos available" None,
           mark_failed rs id "No photos available for reel generation")
      | _ :: _ =>
          match render with
          | Rendered _ =>
              let rs := mark_completed now rs id in
              let rs := create_reel_share_link share rs id in
              (Returned "success" EmptyString None, rs)
          | RenderRaises msg =>
              let rs :=
                mark_failed rs id ("Video generation failed: " ++ msg) in
              if (retries <? max_retries)%nat then
                let countdown := 60 * 2 ^ Z.of_nat retries in
                (RetryRaised countdown, retry rs id retries countdown)
              else (Returned "error" msg (Some retries), rs)
          end
      end
  end.

(** The worker: it runs the task, and runs it again each time the task asks
    for a retry. [render n] and [clock n] are the renderer and the time at
    the run with [n] retries behind it. *)
Fixpoint run_task (fuel : nat) (render : nat -> RenderOutcome)
    (share : option Z) (clock : nat -> datetime) (retries : nat)
    (rs : ReelStore) (id : Z) : option (TaskOutcome * ReelStore) :=
  match fuel with
  | O => None
  | S fuel' =>
      match generate_flashback_reel_video (render retries) share
              (clock retries) retries rs id with
      | (RetryRaised _, rs') =>
          run_task fuel' render share clock (S retries) rs' id
      | (Returned s m r, rs') => Some (Returned s m r, rs')
      end
  end.

(** The operations on a reel once it exists. *)
Inductive Op : Type :=
| OpJob (render : RenderOutcome) (share : option Z) (now : datetime)
        (retries : nat)
| OpCancel
| OpRetry.

Definition run_op (rs : ReelStore) (id : Z) (op : Op) : ReelStore :=
  match op with
  | OpJob render share now retries =>
      snd (generate_flashback_reel_video render share now retries rs id)
  | OpCancel => snd (cancel_reel_generation rs id)
  | OpRetry => snd (retry_reel_generation rs id)
  end.

(** A history: operations, each on the reel it names, one after another. *)
Definition run_ops (rs : ReelStore) (ops : list (Z * Op)) : ReelStore :=
  fold_left (fun rs op => run_op rs (fst op) (snd op)) ops rs.

(** The transitions the state machine admits. *)
Definition legal (t : ReelStatus * ReelStatus) : bool :=
  match t with
  | (pending, processing) | (processing, completed) | (processing, failed)
  | (pending, failed) | (failed, pending) => true
  | _ => false
  end.

(** The transitions of operations that each run as a whole: a run then
    writes [processing] over [pending], [failed] or [completed], and is the
    only one to leave the [processing] it wrote. *)
Definition legal_or_restart (t : ReelStatus * ReelStatus) : bool :=
  match t with
  | (failed, processing) | (completed, processing) => true
  | _ => legal t
  end.

End Tasks.

(** ** The generation job between its writes *)

(** A run of [generate_flashback_reel_video] is long: it fetches the reel and
    saves ['processing'], renders, and only then saves ['completed'] or
    ['failed']. Calls of the service, and other runs, fall in between. The
    run is cut after its first save; the calls of the service each run as a
    whole. *)
Module Interleaving.
Import FlashbackReelService Tasks.

(** The run up to [reel.save(update_fields=['status'])]: the reel it holds
    from then on, or nothing when it returns 'Reel not found'. *)
Definition job_start (rs : ReelStore) (id : Z)
    : option FlashbackReel * ReelStore :=
  match get_reel rs id with
  | None => (None, rs)
  | Some reel => (Some reel, write_status rs id processing (fun r => r))
  end.

(** [_create_reel_share_link(reel)] on the object the run holds: its
    [share_link] is the one fetched at the start. *)
Definition held_share_link (held : FlashbackReel) (share : option Z)
    (rs : ReelStore) (id : Z) : ReelStore :=
  match reel_share_link held, share with
  | None, Some link =>
      mkReelStore (update_reel (set_share_link link) id (reels rs))
                  (queue rs) (transitions rs)
  | _, _ => rs
  end.

(** The rest of the run, on the store as it is by then. The photos are
    queried now; [mark_completed] and [mark_failed] save over the status the
    row has now. A save on a row that is gone raises, which the handler
    catches like a failure of the rendering. *)
Definition job_finish (render : RenderOutcome) (share : option Z)
    (now : datetime) (retries : nat) (held : FlashbackReel) (rs : ReelStore)
    (id : Z) : TaskOutcome * ReelStore :=
  let handler (msg : string) : TaskOutcome * ReelStore :=
    let rs := mark_failed rs id ("Video generation failed: " ++ msg) in
    if (retries <? max_retries)%nat then
      let countdown := 60 * 2 ^ Z.of_nat retries in
      (RetryRaised countdown, retry rs id retries countdown)
    else (Returned "error" msg (Some retries), rs) in
  match get_reel rs id with
  | None => handler "Save with update_fields did not affect any rows."%string
  | Some row =>
      match reel_photos row with
      | [] =>
          (Returned "error" "No photos available" None,
           mark_failed rs id "No photos available for reel generation")
      | _ :: _ =>
          match render with
          | Rendered _ =>
              let rs := mark_completed now rs id in
              let rs := held_share_link held share rs id in
              (Returned "success" EmptyString None, rs)
          | RenderRaises msg => handler msg
          end
      end
  end.

(** A run that has saved ['processing'] and has not finished. *)
Record Run : Type := mkRun {
  run_reel : Z;
  run_held : FlashbackReel;
  run_retries : nat
}.

(** The store and the runs in flight. *)
Record Worker : Type := mkWorker {
  w_store : ReelStore;
  w_running : list Run
}.

(** What happens, one event at a time: the worker takes the [k]-th job of
    the queue and starts its run; the [k]-th run in flight finishes; the
    service cancels; the service retries. *)
Inductive Event : Type :=
| Deliver (k : nat)
| Finish (k : nat) (render : RenderOutcome) (share : option Z) (now : datetime)
| Cancel (id : Z)
| Retry (id : Z).

Definition remove_nth {A : Type} (k : nat) (l : list A) : list A :=
  firstn k l ++ skipn (S k) l.

Definition step (w : Worker) (e : Event) : Worker :=
  match e with
  | Deliver k =>
      match nth_error (queue (w_store w)) k with
      | Some (id, (retries, _)) =>
          match job_start (w_store w) id with
          | (Some held, rs) =>
              mkWorker rs (w_running w ++ [mkRun id held retries])
          | (None, rs) => mkWorker rs (w_running w)
          end
      | None => w
      end
  | Finish k render share now =>
      match nth_error (w_running w) k with
      | Some run =>
          mkWorker (snd (job_finish render share now (run_retries run)
                                    (run_held run) (w_store w) (run_reel run)))
                   (remove_nth k (w_running w))
      | None => w
      end
  | Cancel id =>
      mkWorker (snd (cancel_reel_generation (w_store w) id)) (w_running w)
  | Retry id =>
      mkWorker (snd (retry_reel_generation (w_store w) id)) (w_running w)
  end.

Definition run_events (w : Worker) (events : list Event) : Worker :=
  fold_left step events w.

(** The jobs a history takes from the queue. *)
Definition deliveries (events : list Event) : list nat :=
  flat_map (fun e => match e with Deliver k => [k] | _ => [] end) events.


(** The transitions of the code: a run saves ['processing'], ['completed']
    and ['failed'] over whatever status the row has; a cancel and a retry
    read the status first. *)
Definition code_transition (t : ReelStatus * ReelStatus) : bool :=
  match t with
  | (_, processing) | (_, completed) | (_, failed) => true
  | (failed, pending) => true
  | (_, pending) => false
  end.

End Interleaving.

(** ** Notification throttling: [MemoryNotificationService] *)

Record MemoryPreferences : Type := mkPreferences {
  pref_user : Z;
  enable_notifications : bool;
  feature_enabled : bool
}.

Record MemoryNotification : Type := mkNotification {
  notif_user : Z;
  notif_memory : Z;
  sent_at : datetime;
  clicked_at : option datetime
}.

Record NotificationStore : Type := mkNotificationStore {
  preferences : list MemoryPreferences;
  notifications : list MemoryNotification
}.

Module MemoryNotificationService.

Definition max_notifications_per_day : Z := 3.

(** [a < b] on scores. *)
Definition Qlt_bool (a b : Q) : bool := negb (Qle_bool b a).

(** [should_send_notification] *)
Definition should_send_notification (ns : NotificationStore) (now : datetime)
    (user_id : Z) (memory : Memory) : bool :=
  let disabled :=
    match List.find (fun p => pref_user p =? user_id) (preferences ns) with
    | Some preferences =>
        negb (enable_notifications preferences)
        || negb (feature_enabled preferences)
    | None => false
    end in
  if disabled then false
  else
    let existing_notification :=
      head (List.filter
              (fun n => (notif_user n =? user_id)
                        && (notif_memory n =? mem_id memory))
              (notifications ns)) in
    match existing_notification with
    | Some _ => false
    | None =>
        let today_start := midnight now in
        let today_notifications :=
          Z.of_nat (length (List.filter
            (fun n => (notif_user n =? user_id)
                      && datetime_leb today_start (sent_at n))
            (notifications ns))) in
        if max_notifications_per_day <=? today_notifications then false
        else if Qlt_bool (mem_significance_score memory) 2 then false
        else true
    end.

End MemoryNotificationService.

(** ** The scorer as the specification words it *)

Local Open Scope Q_scope.

(** Quality bonus: [min(megapixels * 0.1, 2.0)], present when width and height
    are known. *)
Definition quality_bonus (photo : Image) : Q :=
  match img_width photo, img_height photo with
  | Some w, Some h => Qmin (inject_Z (w * h) / 1000000 * (1 # 10)) 2
  | _, _ => 0
  end.

(** Recency: [max(0, 2.0 - yearsAgo * 0.1)], present when the capture time is. *)
Definition recency_bonus (now : datetime) (photo : Image) : Q :=
  match img_taken_at photo with
  | Some taken => Qmax 0 (2 - years_ago now taken * (1 # 10))
  | None => 0
  end.

Definition significance_formula
    (ix : PhotoIndex) (now : datetime) (photo : Image) : Q :=
  1 + inject_Z (share_count ix photo) * 2 + (1 # 2)
  + inject_Z (album_count ix photo) * (3 # 2)
  + quality_bonus photo + recency_bonus now photo.

(** The stored width and height do not have opposite signs. The only writer
    of the two columns is the upload service, which stores the size of the
    decoded image: both positive. *)
Definition dims_nonneg (photo : Image) : Prop :=
  (0 <= int_of (img_width photo) * int_of (img_height photo))%Z.

Local Close Scope Q_scope.

(** ** The throttle conditions as the specification words them *)

(** The user's preferences disable notifications or the feature. *)
Definition preferences_disable (ns : NotificationStore) (user_id : Z) : bool :=
  existsb (fun p => negb (enable_notifications p) || negb (feature_enabled p))
          (firstn 1 (List.filter (fun p => pref_user p =? user_id)
                                 (preferences ns))).

(** A notification record exists for the (user, memory) pair. *)
Definition already_notified (ns : NotificationStore) (user_id : Z)
    (memory : Memory) : bool :=
  existsb (fun n => (notif_user n =? user_id) && (notif_memory n =? mem_id memory))
          (notifications ns).

(** Notifications the user received since today's midnight. *)
Definition notifications_today (ns : NotificationStore) (now : datetime)
    (user_id : Z) : Z :=
  Z.of_nat (count_occ Bool.bool_dec
    (map (fun n => (notif_user n =? user_id)
                   && datetime_leb (midnight now) (sent_at n))
         (notifications ns)) true).

(** ** The selector's bounds as the specification words them *)

(** The count the selector works with: [max(10, min(count, 20))]. *)
Definition clamp_count (count : option Z) : Z :=
  Z.max FlashbackReelService.min_photos_for_reel
        (Z.min (default FlashbackReelService.max_photos_per_reel count)
               FlashbackReelService.max_photos_per_reel).

(** The photo has a capture date, and it lies in [start_date, end_date]. *)
Definition in_range (start_date end_date : date) (p : Image) : Prop :=
  exists t, img_taken_at p = Some t
            /\ date_leb start_date (dt_date t) = true
            /\ date_leb (dt_date t) end_date = true.

(** The bounds of the selector as stated: with at least
    min(10, len(photos)) eligible photos the result has between 10 and 20
    photos, all dated in the range. *)
Definition stated_selector_bounds (ix : PhotoIndex) (now : datetime)
    (user_id : Z) (start_date end_date : date) (count : option Z) : Prop :=
  (Nat.min 10 (length (images ix))
   <= length (FlashbackReelService.photos_in_period ix user_id start_date
                                                    end_date))%nat ->
  exists l,
    FlashbackReelService.select_representative_photos ix now user_id start_date
      end_date count = Ok l
    /\ (10 <= length l <= 20)%nat
    /\ List.Forall (in_range start_date end_date) l.

(** ** Invariants and outcomes the proofs speak of *)

(** A reel is idle when no job holds it in [processing]. *)
Definition idle (r : FlashbackReel) : Prop := reel_status r <> processing.

(** No reel is in [processing], and every journalled transition is one that
    operations run as a whole admit. *)
Definition settled (rs : ReelStore) : Prop :=
  List.Forall idle (reels rs)
  /\ List.Forall (fun t => Tasks.legal_or_restart (snd t) = true) (transitions rs).


(** What grouping keeps: distinct keys, no empty group, all the photos. *)
Definition grouped (l : list (Image * Q))
    (d : list (date * list (Image * Q))) : Prop :=
  List.NoDup (map fst d)
  /\ List.Forall (fun e => snd e <> []) d
  /\ Permutation (concat (map snd d)) l.

(** What a cache hit returns. *)
Definition hit_result (st : MemoryStore) (cached : list Z) : list Memory :=
  match cached with
  | [] => []
  | _ :: _ =>
      List.filter (fun m => existsb (Z.eqb (mem_id m)) cached) (memories st)
  end.

(** The ways one call of discovery ends, on a cache miss. *)
Inductive miss_outcome (ix : PhotoIndex) (now : datetime) (st : MemoryStore)
    (user_id : Z)
    (d : date) : Result (list Memory) * MemoryStore -> Prop :=
| miss_raises (e : Exc) :
    (forall now', MemoryEngine.discover_daily_memories ix now' st user_id (Some d)
                  = (Raise e, st)) ->
    miss_outcome ix now st user_id d (Raise e, st)
| miss_existing (m : Memory) :
    In m (memories st) ->
    miss_outcome ix now st user_id d
      (Ok [m], cache_set st (cache_key user_id d) [mem_id m])
| miss_nothing :
    MemoryEngine.memory_rows st user_id d = [] ->
    miss_outcome ix now st user_id d (Ok [], cache_set st (cache_key user_id d) [])
| miss_created (m : Memory) (rows : list MemoryPhoto) :
    MemoryEngine.memory_rows st user_id d = [] ->
    mem_id m = next_id (map mem_id (memories st)) ->
    mem_user m = user_id ->
    mem_target_date m = d ->
    existsb (Z.eqb user_id) (users ix) = true ->
    miss_outcome ix now st user_id d
      (Ok [m],
       cache_set (mkMemoryStore (memories st ++ [m]) (memory_photos st ++ rows)
                                (cache st))
                 (cache_key user_id d) [mem_id m]).

(** ** Sample data *)

Module Sample.
Definition noon (y m d : Z) : datetime := mkDatetime (mkDate y m d) 43200.

Definition now : datetime := noon 2024 6 1.

(** A photo of user 1, 800 by 600, taken at noon of the given day. *)
Definition photo (id y m d : Z) : Image :=
  mkImage id 1 (Some 800) (Some 600) (Some (noon y m d)) (noon 2024 1 1).

Definition no_photos : PhotoIndex := mkPhotoIndex [1] [] [] [].

Definition one_photo : PhotoIndex :=
  mkPhotoIndex [1] [photo 1 2023 1 5] [] [].

Definition empty_store : MemoryStore := mkMemoryStore [] [] ∅.

Definition a_memory : Memory :=
  mkMemory 1 1 (mkDate 2024 6 1) (5 # 2) now None 0.

Definition no_notifications : NotificationStore := mkNotificationStore [] [].
(** Twelve photos of user 1, on twelve days of March 2023. *)
Definition twelve_photos : PhotoIndex :=
  mkPhotoIndex [1]
    (map (fun i => photo (Z.of_nat i) 2023 3 (Z.of_nat i)) (seq 1 12)) [] [].

(** Three photos of user 1, on three days of March 2023. *)
Definition three_photos : PhotoIndex :=
  mkPhotoIndex [1]
    (map (fun i => photo (Z.of_nat i) 2023 3 (Z.of_nat i)) (seq 1 3)) [] [].

Definition no_reels : ReelStore := mkReelStore [] [] [].

(** The store after user 1 asks for a reel over 2023. *)
Definition after_request : ReelStore :=
  snd (FlashbackReelService.create_reel_request twelve_photos now no_reels 1
         "Spring" (mkDate 2023 1 1) (mkDate 2023 12 31) "modern" (Some 45) true).

(** A renderer that raises on every attempt. *)
Definition broken_render (n : nat) : Tasks.RenderOutcome :=
  Tasks.RenderRaises "renderer down".
End Sample.

(** ** Order of a list, as left by a sort *)

(** Each element may stay in front of the next one. *)
Fixpoint ordered {A : Type} (before : A -> A -> bool) (l : list A) : Prop :=
  match l with
  | [] => True
  | x :: rest =>
      match rest with
      | [] => True
      | y :: _ => before x y = true
      end
      /\ ordered before rest
  end.

(** ** Cache invalidation on upload: [invalidate_user_memory_cache] *)

Module CacheInvalidation.

(** The loop [for i in range(7)] over the days still to visit;
    [today - timedelta(days=i)] raises [OverflowError] before 0001-01-01. *)
Fixpoint invalidate_days (now : datetime) (st : MemoryStore) (user_id : Z)
    (today : date) (days : list Z) : Result MemoryStore :=
  match days with
  | [] => Ok st
  | i :: rest =>
      cache_date ← add_days today (- i);
      invalidate_days now
        (MemoryEngine.invalidate_memory_cache now st user_id (Some cache_date))
        user_id today rest
  end.

(** [invalidate_user_memory_cache] *)
Definition invalidate_user_memory_cache (now : datetime) (st : MemoryStore)
    (user_id : Z) : Result MemoryStore :=
  invalidate_days now st user_id (dt_date now) (seqZ 0 7).

End CacheInvalidation.

(** ** Engagement tracking: [MemoryEngagement], [track_memory_engagement] *)

Record MemoryEngagement : Type := mkEngagement {
  eng_memory : Z;
  eng_interaction_type : string;
  eng_timestamp : datetime;
  eng_ip_address : option string;
  eng_user_agent : string
}.

Module Engagement.

(** [memory.memory_engagements.count()] *)
Definition engagement_rows (engagements : list MemoryEngagement) (memory_id : Z)
    : list MemoryEngagement :=
  List.filter (fun e => eng_memory e =? memory_id) engagements.

(** [Memory.update_engagement]: the count of the memory's engagement rows and
    the time of the call, saved with [update_fields]. *)
Definition update_engagement (now : datetime)
    (engagements : list MemoryEngagement) (memory_id : Z)
    (memories : list Memory) : list Memory :=
  map (fun m =>
         if mem_id m =? memory_id
         then mkMemory (mem_id m) (mem_user m) (mem_target_date m)
                       (mem_significance_score m) (mem_created_at m) (Some now)
                       (Z.of_nat (length (engagement_rows engagements memory_id)))
         else m)
      memories.

(** [MemoryEngine.track_memory_engagement]: [Memory.DoesNotExist] is caught
    and dropped. *)
Definition track_memory_engagement (now : datetime)
    (db : list Memory * list MemoryEngagement) (memory_id : Z)
    (interaction_type : string) (ip_address : option string)
    (user_agent : option string) : list Memory * list MemoryEngagement :=
  let '(memories, engagements) := db in
  match List.find (fun m => mem_id m =? memory_id) memories with
  | Some memory =>
      let engagements :=
        engagements
        ++ [mkEngagement (mem_id memory) interaction_type now ip_address
                         (default EmptyString user_agent)] in
      (update_engagement now engagements (mem_id memory) memories, engagements)
  | None => (memories, engagements)
  end.

(** The answers of [MemoryEngagementView.post]. *)
Inductive Response : Type :=
| Http200
| Http400 (error : string)
| Http404.

Definition valid_types : list string :=
  ["view"; "share"; "like"; "download"]%string.

(** [MemoryEngagementView.post]: [request_user] is the authenticated user,
    [interaction_type] what [request.data.get('interaction_type')] gives. *)
Definition engagement_post (now : datetime)
    (db : list Memory * list MemoryEngagement) (request_user : Z)
    (memory_id : Z) (interaction_type : option string)
    (ip_address : option string) (user_agent : string)
    : Response * (list Memory * list MemoryEngagement) :=
  match List.find (fun m => (mem_id m =? memory_id) && (mem_user m =? request_user))
                  (fst db) with
  | None => (Http404, db)
  | Some memory =>
      match interaction_type with
      | None => (Http400 "interaction_type is required", db)
      | Some EmptyString => (Http400 "interaction_type is required", db)
      | Some interaction_type =>
          if negb (existsb (String.eqb interaction_type) valid_types)
          then (Http400 "Invalid interaction_type", db)
          else
            (Http200,
             track_memory_engagement now db memory_id interaction_type
                                     ip_address (Some user_agent))
      end
  end.

End Engagement.

(** ** Reel management: status, listing, deletion *)

Module ReelManagement.
Import FlashbackReelService.

(** The stored text of a status, as in [REEL_STATUS_CHOICES]. *)
Definition status_name (s : ReelStatus) : string :=
  match s with
  | pending => "pending"
  | processing => "processing"
  | completed => "completed"
  | failed => "failed"
  end.

(** [_calculate_progress_percentage] *)
Definition calculate_progress_percentage (reel : FlashbackReel) : Z :=
  match reel_status reel with
  | pending => 0
  | processing => 50
  | completed => 100
  | failed => 0
  end.

(** [t + timedelta(seconds=s)] *)
Definition add_seconds (t : datetime) (s : Z) : Result datetime :=
  let total := dt_secs t + s in
  d ← add_days (dt_date t) (total / 86400);
  Ok (mkDatetime d (total mod 86400)).

(** [_estimate_completion_time], before [isoformat()]. *)
Definition estimate_completion_time (now : datetime) (reel : FlashbackReel)
    : Result (option datetime) :=
  match reel_status reel with
  | completed => Ok None
  | failed => Ok None
  | processing =>
      let estimated_seconds := reel_photo_count reel * 2 in
      t ← add_seconds now estimated_seconds; Ok (Some t)
  | pending =>
      let estimated_seconds := 30 + reel_photo_count reel * 2 in
      t ← add_seconds now estimated_seconds; Ok (Some t)
  end.

(** The dictionary of [get_reel_generation_status] for a reel that exists. *)
Record StatusInfo : Type := mkStatusInfo {
  info_reel_id : Z;
  info_status : string;
  info_created_at : datetime;
  info_completed_at : option datetime;
  info_error_message : string;
  info_progress_percentage : Z;
  info_estimated_completion : option datetime
}.

(** [get_reel_generation_status]; [None] is the ['not_found'] dictionary. *)
Definition get_reel_generation_status (now : datetime) (rs : ReelStore)
    (id : Z) : Result (option StatusInfo) :=
  match get_reel rs id with
  | Some reel =>
      estimate ← estimate_completion_time now reel;
      Ok (Some (mkStatusInfo id (status_name (reel_status reel))
                             (reel_created_at reel) (reel_completed_at reel)
                             (reel_error_message reel)
                             (calculate_progress_percentage reel) estimate))
  | None => Ok None
  end.

(** [order_by('-created_at')] *)
Definition newest_created_first (l : list FlashbackReel) : list FlashbackReel :=
  sort_by (fun a b => datetime_leb (reel_created_at b) (reel_created_at a)) l.

(** [if status:] on an optional string. *)
Definition status_given (status : option string) : option string :=
  match status with
  | Some EmptyString => None
  | other => other
  end.

(** [get_user_reels]; a limit is a count of rows. *)
Definition get_user_reels (rs : ReelStore) (user_id : Z)
    (status : option string) (limit : nat) : list FlashbackReel :=
  let queryset := List.filter (fun r => reel_user r =? user_id) (reels rs) in
  let queryset :=
    match status_given status with
    | Some s =>
        List.filter (fun r => String.eqb (status_name (reel_status r)) s) queryset
    | None => queryset
    end in
  firstn limit (newest_created_first queryset).

(** [delete_reel]; the deletion of the stored file is outside the store. *)
Definition delete_reel (rs : ReelStore) (id : Z) (user_id : Z)
    : bool * ReelStore :=
  match List.find (fun r => (reel_id r =? id) && (reel_user r =? user_id))
                  (reels rs) with
  | Some reel =>
      (true,
       mkReelStore (List.filter (fun r => negb (reel_id r =? reel_id reel))
                                (reels rs))
                   (queue rs) (transitions rs))
  | None => (false, rs)
  end.

End ReelManagement.

(** ** Notification delivery: [create_notification], [send_memory_notifications] *)

Module Notifications.
Import MemoryNotificationService.

(** [create_notification]; [sent_at] is the time of the insert. *)
Definition create_notification (ns : NotificationStore) (now : datetime)
    (user_id : Z) (memory : Memory) : MemoryNotification * NotificationStore :=
  let notification := mkNotification user_id (mem_id memory) now None in
  (notification,
   mkNotificationStore (preferences ns) (notifications ns ++ [notification])).

(** [User.objects.filter(id__in=user_ids, is_active=True)] when [user_ids] is
    a non-empty list, every active user otherwise. *)
Definition select_users (active_users : list Z) (user_ids : option (list Z))
    : list Z :=
  match user_ids with
  | Some (id :: ids) =>
      List.filter (fun u => existsb (Z.eqb u) (id :: ids)) active_users
  | _ => active_users
  end.

(** The counters of [send_memory_notifications]. *)
Record SendResults : Type := mkSendResults {
  send_processed_users : Z;
  notifications_sent : Z;
  send_skipped : Z;
  send_errors : Z
}.

(** [for memory in memories] for one user. *)
Fixpoint notify_memories (now : datetime) (user_id : Z) (todo : list Memory)
    (ns : NotificationStore) (res : SendResults)
    : NotificationStore * SendResults :=
  match todo with
  | [] => (ns, res)
  | memory :: rest =>
      if should_send_notification ns now user_id memory then
        let '(_, ns') := create_notification ns now user_id memory in
        notify_memories now user_id rest ns'
          (mkSendResults (send_processed_users res) (notifications_sent res + 1)
                         (send_skipped res) (send_errors res))
      else
        notify_memories now user_id rest ns
          (mkSendResults (send_processed_users res) (notifications_sent res)
                         (send_skipped res + 1) (send_errors res))
  end.

(** Today's memories of a user with [significance_score__gte=2.0]. *)
Definition significant_today (memories : list Memory) (today : date)
    (user : Z) : list Memory :=
  List.filter (fun m => (mem_user m =? user)
                        && date_eqb (mem_target_date m) today
                        && Qle_bool 2 (mem_significance_score m))
              memories.

(** [for user in users] *)
Fixpoint notify_users (now : datetime) (memories : list Memory)
    (users : list Z) (ns : NotificationStore) (res : SendResults)
    : NotificationStore * SendResults :=
  match users with
  | [] => (ns, res)
  | user :: rest =>
      let res :=
        mkSendResults (send_processed_users res + 1) (notifications_sent res)
                      (send_skipped res) (send_errors res) in
      let '(ns', res') :=
        notify_memories now user
          (significant_today memories (dt_date now) user) ns res in
      notify_users now memories rest ns' res'
  end.

(** [tasks.send_memory_notifications]; the clock reads [now] through the
    whole run, for [date.today()], [timezone.now()] and [sent_at] alike. *)
Definition send_memory_notifications (now : datetime) (memories : list Memory)
    (active_users : list Z) (ns : NotificationStore)
    (user_ids : option (list Z)) : NotificationStore * SendResults :=
  notify_users now memories (select_users active_users user_ids) ns
               (mkSendResults 0 0 0 0).

(** The (user, memory) pair a notification record is about. *)
Definition notified_pair (n : MemoryNotification) : Z * Z :=
  (notif_user n, notif_memory n).

End Notifications.

(** ** Batch discovery: [tasks.batch_discover_memories] *)

Module Batch.

Record BatchResults : Type := mkBatchResults {
  processed_users : Z;
  memories_created : Z;
  errors : Z
}.

(** [for user in users], each discovery in its own [try]. *)
Fixpoint discover_users (ix : PhotoIndex) (now : datetime) (target_date : date)
    (users : list Z) (st : MemoryStore) (res : BatchResults)
    : MemoryStore * BatchResults :=
  match users with
  | [] => (st, res)
  | user :: rest =>
      match MemoryEngine.discover_daily_memories ix now st user
              (Some target_date) with
      | (Ok memories, st') =>
          discover_users ix now target_date rest st'
            (mkBatchResults (processed_users res + 1)
                            (memories_created res + Z.of_nat (length memories))
                            (errors res))
      | (Raise _, st') =>
          discover_users ix now target_date rest st'
            (mkBatchResults (processed_users res) (memories_created res)
                            (errors res + 1))
      end
  end.

(** [batch_discover_memories] *)
Definition batch_discover_memories (ix : PhotoIndex) (now : datetime)
    (active_users : list Z) (st : MemoryStore) (user_ids : option (list Z))
    (target_date : option date) : MemoryStore * BatchResults :=
  let target_date := default (dt_date now) target_date in
  discover_users ix now target_date
    (Notifications.select_users active_users user_ids) st
    (mkBatchResults 0 0 0).

End Batch.

(** ** Retention: [tasks.cleanup_old_memories] *)

Module Maintenance.

(** The tables the cleanup reaches, the cascades included. *)
Record MemoryTables : Type := mkMemoryTables {
  t_memories : list Memory;
  t_memory_photos : list MemoryPhoto;
  t_engagements : list MemoryEngagement;
  t_notifications : list MemoryNotification
}.

Definition datetime_ltb (a b : datetime) : bool := negb (datetime_leb b a).

(** [t - timedelta(days=n)] *)
Definition sub_days (t : datetime) (n : Z) : Result datetime :=
  d ← add_days (dt_date t) (- n);
  Ok (mkDatetime d (dt_secs t)).

Record CleanupResults : Type := mkCleanupResults {
  memories_deleted : Z;
  notifications_deleted : Z
}.

(** [old_memories.delete()]: the rows, and with them the rows of the tables
    that point to them with [on_delete=CASCADE]. *)
Definition delete_memories (old : Memory -> bool) (db : MemoryTables)
    : MemoryTables :=
  let gone := map mem_id (List.filter old (t_memories db)) in
  let kept (id : Z) := negb (existsb (Z.eqb id) gone) in
  mkMemoryTables
    (List.filter (fun m => negb (old m)) (t_memories db))
    (List.filter (fun r => kept (mp_memory r)) (t_memory_photos db))
    (List.filter (fun e => kept (eng_memory e)) (t_engagements db))
    (List.filter (fun n => kept (notif_memory n)) (t_notifications db)).

(** [cleanup_old_memories] *)
Definition cleanup_old_memories (now : datetime) (db : MemoryTables)
    (days_to_keep : Z) : Result (CleanupResults * MemoryTables) :=
  cutoff_date ← sub_days now days_to_keep;
  let old_memory (m : Memory) := datetime_ltb (mem_created_at m) cutoff_date in
  let old_notification (n : MemoryNotification) :=
    datetime_ltb (sent_at n) cutoff_date in
  let results :=
    mkCleanupResults
      (Z.of_nat (length (List.filter old_memory (t_memories db))))
      (Z.of_nat (length (List.filter old_notification (t_notifications db)))) in
  let db := delete_memories old_memory db in
  let db :=
    mkMemoryTables (t_memories db) (t_memory_photos db) (t_engagements db)
      (List.filter (fun n => negb (old_notification n)) (t_notifications db)) in
  Ok (results, db).

(** Every link, engagement and notification points to a stored memory. *)
Definition references_hold (db : MemoryTables) : Prop :=
  let ids := map mem_id (t_memories db) in
  List.Forall (fun r => In (mp_memory r) ids) (t_memory_photos db)
  /\ List.Forall (fun e => In (eng_memory e) ids) (t_engagements db)
  /\ List.Forall (fun n => In (notif_memory n) ids) (t_notifications db).

End Maintenance.

(** ** Engagement summary: [MemoryMetadataService.get_engagement_summary] *)

Module Metadata.

(** The dictionary of [get_engagement_summary]. *)
Record EngagementSummary : Type := mkEngagementSummary {
  total_engagements : Z;
  unique_interactions : Z;
  last_interaction : option MemoryEngagement;
  by_type : list (string * Z);
  recent_activity : Z
}.

(** [if t not in d: d[t] = 0] then [d[t] += 1], on a dict in insertion
    order. *)
Definition count_type (d : list (string * Z)) (t : string)
    : list (string * Z) :=
  let d :=
    if existsb (fun kv => String.eqb (fst kv) t) d then d else d ++ [(t, 0)] in
  map (fun kv => if String.eqb (fst kv) t then (fst kv, snd kv + 1) else kv) d.

(** The default order of [MemoryEngagement], [-timestamp]. *)
Definition newest_engagement_first (l : list MemoryEngagement)
    : list MemoryEngagement :=
  sort_by (fun a b => datetime_leb (eng_timestamp b) (eng_timestamp a)) l.

(** [get_engagement_summary] *)
Definition get_engagement_summary (now : datetime)
    (table : list MemoryEngagement) (memory : Memory)
    : Result EngagementSummary :=
  let engagements :=
    newest_engagement_first
      (List.filter (fun e => eng_memory e =? mem_id memory) table) in
  let total := Z.of_nat (length engagements) in
  let unique :=
    Z.of_nat (length (nodup string_dec
                            (map eng_interaction_type engagements))) in
  let last := head (newest_engagement_first engagements) in
  let engagement_types :=
    fold_left count_type (map eng_interaction_type engagements) [] in
  recent_cutoff ← Maintenance.sub_days now 7;
  let recent :=
    List.filter (fun e => datetime_leb recent_cutoff (eng_timestamp e))
                engagements in
  Ok (mkEngagementSummary total unique last engagement_types
                          (Z.of_nat (length recent))).

End Metadata.

(** The sum of the counts of a dictionary. *)
Definition dict_total (d : list (string * Z)) : Z :=
  fold_right (fun kv acc => snd kv + acc) 0 d.

(** The rows of a type among the rows of a memory. *)
Definition rows_of_type (table : list MemoryEngagement) (memory : Memory)
    (t : string) : list MemoryEngagement :=
  List.filter (fun e => (eng_memory e =? mem_id memory)
                        && String.eqb (eng_interaction_type e) t) table.

(** What the counting loop keeps: distinct keys, each with the number of
    times it was seen. *)
Definition counts_of (seen : list string) (d : list (string * Z)) : Prop :=
  List.NoDup (map fst d)
  /\ (forall t, In t (map fst d) <-> In t seen)
  /\ (forall t c, In (t, c) d -> c = Z.of_nat (count_occ string_dec seen t)).

(** Three interactions with the sample memory, and one with another. *)
Definition sample_engagements : list MemoryEngagement :=
  [mkEngagement 1 "view" (Sample.noon 2024 5 30) None EmptyString;
   mkEngagement 1 "like" (Sample.noon 2024 5 31) None EmptyString;
   mkEngagement 2 "view" (Sample.noon 2024 5 31) None EmptyString;
   mkEngagement 1 "view" (Sample.noon 2024 4 1) None EmptyString].

(** ** Notions the further properties speak of *)

(** A row of the user, taken in a year from [lo] to the year before the
    target's. *)
Definition earlier_photo (ix : PhotoIndex) (user : Z) (target : date) (lo : Z)
    (p : Image) : Prop :=
  In p (images ix) /\ img_user p = user
  /\ exists t, img_taken_at p = Some t
               /\ lo <= year (dt_date t) <= year target - 1.

(** The order of capture times, creation time standing in for a missing one. *)
Definition chronological (a b : Image) : bool :=
  datetime_leb (FlashbackReelService.taken_or_created a)
               (FlashbackReelService.taken_or_created b).

(** What of a reel no lifecycle operation writes. *)
Definition frozen_part (r : FlashbackReel) :=
  (reel_id r, reel_user r, reel_title r, reel_photos r, reel_video_file r,
   reel_duration r, reel_theme r, reel_created_at r, reel_start_date r,
   reel_end_date r, reel_photo_count r).

(** The notification rows of a user. *)
Definition user_records (ns : NotificationStore) (user : Z) : Z :=
  Z.of_nat (length (List.filter (fun n => notif_user n =? user)
                                (notifications ns))).

(** A run keeps, for every user, today's count within the cap (or where it
    was), and adds to the user's rows what it adds to today's count. *)
Definition capped (now : datetime) (ns0 ns : NotificationStore) : Prop :=
  forall u,
    notifications_today ns now u <= Z.max 3 (notifications_today ns0 now u)
    /\ user_records ns u - notifications_today ns now u
       = user_records ns0 u - notifications_today ns0 now u.

(** The pair [unique_together] of [Memory] speaks of. *)
Definition memory_key (m : Memory) : Z * date :=
  (mem_user m, mem_target_date m).

Definition unique_together (ms : list Memory) : Prop :=
  List.NoDup (map memory_key ms).

(** Tables for the retention task: one memory older than a year with a
    recent notification, one recent memory. *)
Definition sample_tables : Maintenance.MemoryTables :=
  Maintenance.mkMemoryTables
    [mkMemory 1 1 (mkDate 2022 1 1) (5 # 2) (Sample.noon 2022 1 1) None 0;
     mkMemory 2 1 (mkDate 2024 5 1) (5 # 2) (Sample.noon 2024 5 1) None 0]
    [mkMemoryPhoto 1 10 0 (5 # 2); mkMemoryPhoto 2 11 0 (5 # 2)]
    []
    [mkNotification 1 1 (Sample.noon 2024 5 30) None].

(** * Properties *)

(** ** Lists *)

Section ListFacts.
Context {A : Type}.

Lemma In_firstn (n : nat) (x : A) (l : list A) : In x (firstn n l) -> In x l.
Proof.
  intros H. rewrite <- (firstn_skipn n l). apply in_or_app. left. exact H.
Qed.

Lemma filter_all (f : A -> bool) (l : list A) :
  List.Forall (fun x => f x = true) l -> List.filter f l = l.
Proof.
  induction 1 as [|x l Hx Hl IH]; simpl; [reflexivity|].
  rewrite Hx, IH. reflexivity.
Qed.
End ListFacts.

Section StableSortFacts.
Context {A : Type}.
Variable before : A -> A -> bool.

Lemma insert_by_perm (x : A) (l : list A) :
  Permutation (x :: l) (insert_by before x l).
Proof.
  induction l as [|y ys IH]; simpl.
  - reflexivity.
  - destruct (before x y).
    + reflexivity.
    + rewrite perm_swap. apply perm_skip. exact IH.
Qed.

Lemma sort_by_perm (l : list A) : Permutation l (sort_by before l).
Proof.
  induction l as [|x xs IH]; simpl.
  - reflexivity.
  - rewrite <- insert_by_perm. apply perm_skip. exact IH.
Qed.

Lemma sort_by_length (l : list A) : length (sort_by before l) = length l.
Proof. symmetry. apply Permutation_length, sort_by_perm. Qed.

Lemma sort_by_In (x : A) (l : list A) : In x (sort_by before l) <-> In x l.
Proof.
  split; intros H.
  - eapply Permutation_in; [symmetry; apply sort_by_perm | exact H].
  - eapply Permutation_in; [apply sort_by_perm | exact H].
Qed.

Lemma sort_by_Forall (P : A -> Prop) (l : list A) :
  List.Forall P l -> List.Forall P (sort_by before l).
Proof.
  rewrite !List.Forall_forall. intros H x Hx. apply H, sort_by_In, Hx.
Qed.

Lemma sort_by_nil (l : list A) : sort_by before l = [] -> l = [].
Proof.
  intros H. apply length_zero_iff_nil.
  rewrite <- sort_by_length, H. reflexivity.
Qed.
End StableSortFacts.

(** ** Sorted output *)

Lemma date_eqb_eq (a b : date) : date_eqb a b = true <-> a = b.
Proof.
  unfold date_eqb. destruct a as [y1 m1 d1], b as [y2 m2 d2]. simpl.
  rewrite !andb_true_iff, !Z.eqb_eq. split.
  - intros [[-> ->] ->]. reflexivity.
  - intros H. injection H as -> -> ->. auto.
Qed.

Section OrderedFacts.
Context {A : Type}.
Variable before : A -> A -> bool.
Hypothesis before_total : forall a b, before a b = false -> before b a = true.

Lemma insert_by_ordered (x : A) (l : list A) :
  ordered before l -> ordered before (insert_by before x l).
Proof.
  induction l as [|y ys IH]; simpl; intros H.
  - split; exact I.
  - destruct (before x y) eqn:E.
    + split; [exact E | exact H].
    + destruct H as [Hy Hys]. split; [|apply IH, Hys].
      destruct ys as [|z zs]; simpl.
      * apply before_total, E.
      * destruct (before x z); [apply before_total, E | exact Hy].
Qed.

Lemma sort_by_ordered (l : list A) : ordered before (sort_by before l).
Proof.
  induction l as [|x xs IH]; simpl; [exact I | apply insert_by_ordered, IH].
Qed.
End OrderedFacts.

Section OrderedMore.
Context {A : Type}.

Lemma ordered_firstn (before : A -> A -> bool) (n : nat) (l : list A) :
  ordered before l -> ordered before (firstn n l).
Proof.
  revert l. induction n as [|n IH]; intros l H; [exact I|].
  destruct l as [|x l]; [exact I|]. destruct H as [Hx Hl].
  cbn [firstn]. split; [|apply IH, Hl].
  destruct n as [|n]; [exact I|]. destruct l as [|y l]; [exact I | exact Hx].
Qed.

Lemma ordered_impl (before before' : A -> A -> bool) (l : list A) :
  (forall a b, In a l -> In b l -> before a b = true -> before' a b = true) ->
  ordered before l -> ordered before' l.
Proof.
  induction l as [|x l IH]; intros Himp H; [exact I|].
  destruct H as [Hx Hl]. split.
  - destruct l as [|y l]; [exact I|].
    apply Himp; [left; reflexivity | right; left; reflexivity | exact Hx].
  - apply IH; [|exact Hl]. intros a b Ha Hb. apply Himp; right; assumption.
Qed.
End OrderedMore.

Lemma date_leb_total (a b : date) : date_leb a b = false -> date_leb b a = true.
Proof.
  unfold date_leb. destruct a as [y1 m1 d1], b as [y2 m2 d2]. simpl.
  intros H.
  destruct (Z.ltb_spec y1 y2), (Z.eqb_spec y1 y2), (Z.ltb_spec m1 m2),
    (Z.eqb_spec m1 m2), (Z.leb_spec d1 d2); simpl in H; try discriminate;
    destruct (Z.ltb_spec y2 y1), (Z.eqb_spec y2 y1), (Z.ltb_spec m2 m1),
      (Z.eqb_spec m2 m1), (Z.leb_spec d2 d1); simpl; try reflexivity; lia.
Qed.

Lemma date_leb_antisym (a b : date) :
  date_leb a b = true -> date_leb b a = true -> date_eqb a b = true.
Proof.
  unfold date_leb, date_eqb. destruct a as [y1 m1 d1], b as [y2 m2 d2]. simpl.
  intros H1 H2.
  destruct (Z.ltb_spec y1 y2), (Z.eqb_spec y1 y2), (Z.ltb_spec m1 m2),
    (Z.eqb_spec m1 m2), (Z.leb_spec d1 d2); simpl in H1; try discriminate;
    destruct (Z.ltb_spec y2 y1), (Z.eqb_spec y2 y1), (Z.ltb_spec m2 m1),
      (Z.eqb_spec m2 m1), (Z.leb_spec d2 d1); simpl in H2; try discriminate;
    try lia;
    destruct (Z.eqb_spec d1 d2); simpl; try reflexivity; lia.
Qed.

Lemma datetime_leb_total (a b : datetime) :
  datetime_leb a b = false -> datetime_leb b a = true.
Proof.
  unfold datetime_leb, date_ltb. intros H.
  apply orb_false_iff in H. destruct H as [H1 H2].
  apply negb_false_iff in H1.
  destruct (date_leb (dt_date a) (dt_date b)) eqn:E; simpl; [|reflexivity].
  pose proof (date_leb_antisym _ _ E H1) as Heq.
  rewrite Heq in H2. simpl in H2.
  assert (Hba : date_eqb (dt_date b) (dt_date a) = true).
  { apply date_eqb_eq. apply date_eqb_eq in Heq. congruence. }
  rewrite Hba. simpl. lia.
Qed.

Lemma taken_leb_total (a b : Image) :
  MemoryEngine.taken_leb a b = false -> MemoryEngine.taken_leb b a = true.
Proof.
  unfold MemoryEngine.taken_leb.
  destruct (img_taken_at a), (img_taken_at b); try discriminate; try reflexivity.
  apply datetime_leb_total.
Qed.

Lemma by_score_desc_total (a b : Image * Q) :
  MemoryEngine.by_score_desc a b = false ->
  MemoryEngine.by_score_desc b a = true.
Proof.
  unfold MemoryEngine.by_score_desc. intros H. apply Qle_bool_iff.
  destruct (Qlt_le_dec (snd a) (snd b)) as [Hlt|Hle].
  - apply Qlt_le_weak, Hlt.
  - apply Qle_bool_iff in Hle. congruence.
Qed.

Section OrderedSplit.
Context {A : Type}.
Variable before : A -> A -> bool.
Hypothesis before_trans :
  forall a b c, before a b = true -> before b c = true -> before a c = true.

Lemma ordered_head (x : A) (l : list A) :
  ordered before (x :: l) -> forall y, In y l -> before x y = true.
Proof.
  revert x. induction l as [|z l IH]; intros x H y Hy; [destruct Hy|].
  destruct H as [Hxz Hl]. destruct Hy as [->|Hy]; [exact Hxz|].
  apply (before_trans x z y); [exact Hxz | apply IH; assumption].
Qed.

(** In an ordered list, what a cut keeps goes before what it leaves. *)
Lemma ordered_cut (n : nat) (l : list A) :
  ordered before l ->
  forall a b, In a (firstn n l) -> In b (skipn n l) -> before a b = true.
Proof.
  revert l. induction n as [|n IH]; intros l H a b Ha Hb; [destruct Ha|].
  destruct l as [|x l]; [destruct Ha|].
  cbn [firstn skipn] in Ha, Hb. destruct Ha as [->|Ha].
  - apply (ordered_head a l H). rewrite <- (firstn_skipn n l).
    apply in_or_app. right. exact Hb.
  - destruct H as [_ Hl]. apply (IH l Hl); assumption.
Qed.
End OrderedSplit.

(** ** Significance scorer *)

Section Scorer.
Variable ix : PhotoIndex.
Variable now : datetime.

Local Open Scope Q_scope.

Lemma inject_Z_nonneg (z : Z) : (0 <= z)%Z -> 0 <= inject_Z z.
Proof. intros H. change 0 with (inject_Z 0). rewrite <- Zle_Qle. exact H. Qed.

Lemma share_count_nonneg (photo : Image) : 0 <= inject_Z (share_count ix photo).
Proof. apply inject_Z_nonneg. unfold share_count. lia. Qed.

Lemma album_count_nonneg (photo : Image) : 0 <= inject_Z (album_count ix photo).
Proof. apply inject_Z_nonneg. unfold album_count. lia. Qed.

Lemma recency_bonus_nonneg (photo : Image) : 0 <= recency_bonus now photo.
Proof.
  unfold recency_bonus. destruct (img_taken_at photo).
  - apply Q.le_max_l.
  - lra.
Qed.

Lemma scaled_megapixels_nonneg (z : Z) :
  (0 <= z)%Z -> 0 <= inject_Z z / 1000000 * (1 # 10).
Proof.
  intros H. apply inject_Z_nonneg in H.
  apply Qmult_le_0_compat; [|lra]. apply Qle_shift_div_l; lra.
Qed.

Lemma quality_bonus_nonneg (photo : Image) :
  dims_nonneg photo -> 0 <= quality_bonus photo.
Proof.
  unfold dims_nonneg, quality_bonus.
  destruct (img_width photo) as [w|], (img_height photo) as [h|];
    simpl; intros H; try lra.
  apply Q.min_glb; [apply scaled_megapixels_nonneg, H | lra].
Qed.

Lemma quality_bonus_zero (z : Z) :
  z = 0%Z -> Qmin (inject_Z z / 1000000 * (1 # 10)) 2 == 0.
Proof. intros ->. reflexivity. Qed.

(** The code computes the formula of the specification. *)
Lemma score_is_formula (photo : Image) :
  score_photo_significance ix now photo == significance_formula ix now photo.
Proof.
  unfold score_photo_significance, significance_formula, quality_bonus,
    recency_bonus, megapixels, truthy.
  destruct (img_width photo) as [w|], (img_height photo) as [h|]; simpl;
    try destruct (Z.eqb_spec w 0) as [Hw|Hw];
    try destruct (Z.eqb_spec h 0) as [Hh|Hh]; simpl;
    try (rewrite (quality_bonus_zero (w * h)) by lia);
    destruct (img_taken_at photo); ring.
Qed.

Lemma formula_lower_bound (photo : Image) :
  dims_nonneg photo -> (3 # 2) <= significance_formula ix now photo.
Proof.
  intros H. unfold significance_formula.
  pose proof (share_count_nonneg photo).
  pose proof (album_count_nonneg photo).
  pose proof (recency_bonus_nonneg photo).
  pose proof (quality_bonus_nonneg photo H).
  lra.
Qed.

Lemma score_lower_bound (photo : Image) :
  dims_nonneg photo -> (3 # 2) <= score_photo_significance ix now photo.
Proof. intros H. rewrite score_is_formula. apply formula_lower_bound, H. Qed.

End Scorer.

(** ** Claims on the scorer *)

(** C2. For every photo the upload service stores (its width and height are
    the size of the decoded image, so they do not have opposite signs) the
    significance score equals 1.0 + shareCount * 2.0 + 0.5 + albumCount * 1.5
    + the quality bonus min(megapixels * 0.1, 2.0) (when width and height
    are known) + the recency bonus max(0, 2.0 - yearsAgo * 0.1) (when the
    capture time is present), and the score is not negative. *)
Theorem score_formula_nonneg (ix : PhotoIndex) (now : datetime) (photo : Image) :
  dims_nonneg photo ->
  (score_photo_significance ix now photo == significance_formula ix now photo
   /\ 0 <= score_photo_significance ix now photo)%Q.
Proof.
  intros H. split.
  - apply score_is_formula.
  - pose proof (score_lower_bound ix now photo H). lra.
Qed.

Lemma score_formula_nonneg_witness :
  dims_nonneg (Sample.photo 1 2023 1 5)
  /\ (score_photo_significance Sample.one_photo Sample.now (Sample.photo 1 2023 1 5)
      == significance_formula Sample.one_photo Sample.now (Sample.photo 1 2023 1 5)
      /\ 0 <= score_photo_significance Sample.one_photo Sample.now
                                       (Sample.photo 1 2023 1 5))%Q.
Proof.
  assert (H : dims_nonneg (Sample.photo 1 2023 1 5))
    by (unfold dims_nonneg; simpl; lia).
  split; [exact H | exact (score_formula_nonneg _ _ _ H)].
Defined.

(** C9. Every photo the upload service stores (its width and height are the
    size of the decoded image, so they do not have opposite signs) scores at
    least 1.5, so the threshold of 1.0 excludes no candidate:
    [_score_photos_significance] keeps every input photo, up to the cap of
    20. *)
Theorem threshold_keeps_all (ix : PhotoIndex) (now : datetime)
    (photos : list Image) :
  List.Forall dims_nonneg photos ->
  List.Forall (fun p => (3 # 2 <= score_photo_significance ix now p)%Q) photos
  /\ length (MemoryEngine.score_photos_significance ix now photos)
     = Nat.min (length photos) 20
  /\ (forall ps, In ps (MemoryEngine.score_photos_significance ix now photos) ->
                 In (fst ps) photos)
  /\ ((length photos <= 20)%nat ->
      Permutation (map fst (MemoryEngine.score_photos_significance ix now photos))
                  photos).
Proof.
  intros Hd.
  assert (Hs : List.Forall
                 (fun p => (3 # 2 <= score_photo_significance ix now p)%Q) photos).
  { eapply List.Forall_impl; [|exact Hd]. intros p Hp.
    apply score_lower_bound, Hp. }
  assert (Hkeep :
    List.filter
      (fun ps => Qle_bool MemoryEngine.default_significance_threshold (snd ps))
      (map (fun photo => (photo, score_photo_significance ix now photo)) photos)
    = map (fun photo => (photo, score_photo_significance ix now photo)) photos).
  { clear Hd. induction Hs as [|p l Hp Hl IH]; simpl; [reflexivity|].
    assert (Hle : Qle_bool MemoryEngine.default_significance_threshold
                           (score_photo_significance ix now p) = true).
    { apply Qle_bool_iff. unfold MemoryEngine.default_significance_threshold.
      lra. }
    rewrite Hle, IH. reflexivity. }
  unfold MemoryEngine.score_photos_significance. rewrite Hkeep.
  split; [exact Hs|]. split; [|split].
  - rewrite length_firstn, sort_by_length, length_map.
    unfold MemoryEngine.max_photos_per_memory. lia.
  - intros ps Hin. apply In_firstn in Hin.
    apply sort_by_In in Hin. apply in_map_iff in Hin.
    destruct Hin as [p [<- Hp]]. exact Hp.
  - intros Hlen. rewrite firstn_all2.
    + rewrite <- (sort_by_perm MemoryEngine.by_score_desc).
      rewrite map_map. simpl. rewrite map_id. reflexivity.
    + rewrite sort_by_length, length_map.
      unfold MemoryEngine.max_photos_per_memory. exact Hlen.
Qed.

Lemma threshold_keeps_all_witness :
  List.Forall dims_nonneg [Sample.photo 1 2023 1 5]
  /\ length (MemoryEngine.score_photos_significance Sample.one_photo Sample.now
               [Sample.photo 1 2023 1 5]) = 1%nat.
Proof.
  assert (H : List.Forall dims_nonneg [Sample.photo 1 2023 1 5]).
  { constructor; [unfold dims_nonneg; simpl; lia | constructor]. }
  split; [exact H|].
  exact (proj1 (proj2 (threshold_keeps_all Sample.one_photo Sample.now _ H))).
Defined.

(** ** Notification throttle *)

Section Throttle.
Import MemoryNotificationService.
Variable ns : NotificationStore.
Variable now : datetime.
Variable user_id : Z.
Variable memory : Memory.

Lemma head_filter_existsb {A : Type} (f : A -> bool) (l : list A) :
  existsb f l = match head (List.filter f l) with
                | Some _ => true
                | None => false
                end.
Proof.
  induction l as [|x l IH]; simpl; [reflexivity|].
  destruct (f x); simpl; [reflexivity | exact IH].
Qed.

Lemma find_firstn_filter {A : Type} (f g : A -> bool) (l : list A) :
  existsb g (firstn 1 (List.filter f l))
  = match List.find f l with
    | Some x => g x
    | None => false
    end.
Proof.
  induction l as [|x l IH]; simpl; [reflexivity|].
  destruct (f x); simpl; [apply orb_false_r | exact IH].
Qed.

Lemma count_true_filter {A : Type} (f : A -> bool) (l : list A) :
  count_occ Bool.bool_dec (map f l) true = length (List.filter f l).
Proof.
  induction l as [|x l IH]; simpl; [reflexivity|].
  destruct (f x); simpl; rewrite IH; reflexivity.
Qed.

(** The decision of the code, as one boolean expression over the four
    conditions of the specification. *)
Lemma should_send_notification_eq :
  should_send_notification ns now user_id memory
  = negb (preferences_disable ns user_id)
    && negb (already_notified ns user_id memory)
    && (notifications_today ns now user_id <? 3)
    && Qle_bool 2 (mem_significance_score memory).
Proof.
  unfold should_send_notification, preferences_disable, already_notified,
    notifications_today, max_notifications_per_day, Qlt_bool.
  rewrite find_firstn_filter, head_filter_existsb, count_true_filter.
  destruct (List.find _ (preferences ns)) as [p|]; simpl.
  - destruct (negb (enable_notifications p) || negb (feature_enabled p));
      simpl; [reflexivity|].
    destruct (head _); simpl; [reflexivity|].
    rewrite Z.ltb_antisym.
    destruct (3 <=? _); simpl; [reflexivity|].
    destruct (Qle_bool 2 _); reflexivity.
  - destruct (head _); simpl; [reflexivity|].
    rewrite Z.ltb_antisym.
    destruct (3 <=? _); simpl; [reflexivity|].
    destruct (Qle_bool 2 _); reflexivity.
Qed.
End Throttle.

(** C8. [should_send_notification] is false when the user's preferences
    disable notifications or the feature, false when a notification record
    exists for the (user, memory) pair, false when the user has received 3 or
    more notifications since today's midnight, false when the memory's
    significance score is below 2.0, and true otherwise. *)
Theorem should_send_notification_spec (ns : NotificationStore) (now : datetime)
    (user_id : Z) (memory : Memory) :
  let send :=
    MemoryNotificationService.should_send_notification ns now user_id memory in
  (preferences_disable ns user_id = true -> send = false)
  /\ (already_notified ns user_id memory = true -> send = false)
  /\ (3 <= notifications_today ns now user_id -> send = false)
  /\ ((mem_significance_score memory < 2)%Q -> send = false)
  /\ (preferences_disable ns user_id = false ->
      already_notified ns user_id memory = false ->
      notifications_today ns now user_id < 3 ->
      ~ (mem_significance_score memory < 2)%Q ->
      send = true).
Proof.
  intros send. subst send. rewrite should_send_notification_eq.
  repeat split.
  - intros ->. reflexivity.
  - intros ->. apply andb_false_iff. left. apply andb_false_iff. left.
    apply andb_false_r.
  - intros H. apply Z.ltb_ge in H. rewrite H.
    rewrite andb_false_r. reflexivity.
  - intros H. apply andb_false_iff. right.
    destruct (Qle_bool 2 (mem_significance_score memory)) eqn:E;
      [|reflexivity].
    apply Qle_bool_iff in E. lra.
  - intros -> -> Hc Hs. apply Z.ltb_lt in Hc. rewrite Hc. simpl.
    apply Qle_bool_iff. apply Qnot_lt_le. exact Hs.
Qed.

(** ** Expanded pass of discovery *)

(** C10. Discovery is not total on its dates: for the target dates
    2024-03-07 and 2024-02-22 an endpoint of the window of 7 days is
    2024-02-29, and [replace(year=2023)] on it raises [ValueError], for every
    photo index and user; [discover_daily_memories] then raises too when the
    exact pass is empty, instead of returning no memory or one. *)
Theorem expansion_raises_on_leap_day (ix : PhotoIndex) (user : Z) :
  MemoryEngine.find_photos_with_date_expansion ix user (mkDate 2024 3 7)
  = Raise (ValueError "day is out of range for month")
  /\ MemoryEngine.find_photos_with_date_expansion ix user (mkDate 2024 2 22)
     = Raise (ValueError "day is out of range for month")
  /\ MemoryEngine.discover_daily_memories Sample.no_photos Sample.now
       Sample.empty_store 1 (Some (mkDate 2024 3 7))
     = (Raise (ValueError "day is out of range for month"), Sample.empty_store).
Proof.
  split; [|split].
  - reflexivity.
  - reflexivity.
  - reflexivity.
Qed.

(** C7, at the failing input. User 1 has one photo, taken 2023-01-05; the
    target date is 2024-01-03. The exact pass finds nothing; the photo lies 2
    days after the anniversary 2023-01-03, inside the window of 7 days, yet the
    expanded pass returns no photo: its window for 2023 runs from 2023-12-27
    to 2023-01-10 and is empty. *)
Theorem expansion_misses_across_new_year :
  MemoryEngine.find_photos_by_date Sample.one_photo 1 (mkDate 2024 1 3) = []
  /\ days_between (mkDate 2023 1 5) (mkDate 2023 1 3) = 2
  /\ add_days (mkDate 2024 1 3) (-7) = Ok (mkDate 2023 12 27)
  /\ add_days (mkDate 2024 1 3) 7 = Ok (mkDate 2024 1 10)
  /\ MemoryEngine.find_photos_with_date_expansion Sample.one_photo 1
       (mkDate 2024 1 3) = Ok [].
Proof. repeat split; vm_compute; reflexivity. Qed.

(** ** Reel lifecycle *)

Section ReelRows.
Import FlashbackReelService.

Lemma find_update_reel (f : FlashbackReel -> FlashbackReel) (id : Z)
    (l : list FlashbackReel) :
  (forall r, reel_id (f r) = reel_id r) ->
  List.find (fun r => reel_id r =? id) (update_reel f id l)
  = option_map f (List.find (fun r => reel_id r =? id) l).
Proof.
  intros Hid. induction l as [|r l IH]; simpl; [reflexivity|].
  destruct (reel_id r =? id) eqn:E.
  - rewrite Hid, E. reflexivity.
  - rewrite E. exact IH.
Qed.

Lemma get_reel_write_status (rs : ReelStore) (id : Z) (s : ReelStatus)
    (f : FlashbackReel -> FlashbackReel) (r : FlashbackReel) :
  (forall r, reel_id (f r) = reel_id r) ->
  get_reel rs id = Some r ->
  get_reel (write_status rs id s f) id = Some (set_status s (f r))
  /\ queue (write_status rs id s f) = queue rs
  /\ transitions (write_status rs id s f)
     = transitions rs ++ [(id, (reel_status r, s))]
  /\ reels (write_status rs id s f)
     = update_reel (fun r => set_status s (f r)) id (reels rs).
Proof.
  intros Hid Hget. unfold write_status. rewrite Hget. simpl.
  repeat split. unfold get_reel in *. simpl.
  rewrite find_update_reel by (intros r0; simpl; apply Hid).
  rewrite Hget. reflexivity.
Qed.

Lemma get_reel_In (rs : ReelStore) (id : Z) (r : FlashbackReel) :
  get_reel rs id = Some r -> In r (reels rs).
Proof. intros H. apply List.find_some in H. apply H. Qed.


Lemma update_reel_idle (g : FlashbackReel -> FlashbackReel) (id : Z)
    (l : list FlashbackReel) :
  (forall r, idle (g r)) ->
  List.Forall (fun r => reel_id r <> id -> idle r) l ->
  List.Forall idle (update_reel g id l).
Proof.
  intros Hg Hl. unfold update_reel. apply List.Forall_forall.
  intros r Hr. apply in_map_iff in Hr. destruct Hr as [r0 [<- Hr0]].
  rewrite List.Forall_forall in Hl.
  destruct (Z.eqb_spec (reel_id r0) id) as [E|E].
  - apply Hg.
  - apply Hl; assumption.
Qed.

Lemma update_reel_others (g : FlashbackReel -> FlashbackReel) (id : Z)
    (l : list FlashbackReel) :
  (forall r, reel_id (g r) = reel_id r) ->
  List.Forall idle l ->
  List.Forall (fun r => reel_id r <> id -> idle r) (update_reel g id l).
Proof.
  intros Hg Hl. unfold update_reel. apply List.Forall_forall.
  intros r Hr. apply in_map_iff in Hr. destruct Hr as [r0 [<- Hr0]].
  rewrite List.Forall_forall in Hl.
  destruct (Z.eqb_spec (reel_id r0) id) as [E|E].
  - rewrite Hg. intros Hne. contradiction.
  - intros _. apply Hl, Hr0.
Qed.

Lemma idle_weaken (id : Z) (l : list FlashbackReel) :
  List.Forall idle l -> List.Forall (fun r => reel_id r <> id -> idle r) l.
Proof. apply List.Forall_impl. intros r H _. exact H. Qed.

End ReelRows.

Section GenerationJob.
Import FlashbackReelService Tasks.

(** One attempt whose rendering step raises. *)
Lemma failing_attempt (rs : ReelStore) (id : Z) (r : FlashbackReel)
    (msg : string) (share : option Z) (now : datetime) (n : nat) :
  get_reel rs id = Some r ->
  reel_photos r <> [] ->
  exists rs' r',
    generate_flashback_reel_video (RenderRaises msg) share now n rs id
    = (if (n <? max_retries)%nat then RetryRaised (60 * 2 ^ Z.of_nat n)
       else Returned "error" msg (Some n), rs')
    /\ get_reel rs' id = Some r'
    /\ reel_photos r' = reel_photos r
    /\ reel_completed_at r' = reel_completed_at r
    /\ reel_status r' = failed
    /\ reel_error_message r' = ("Video generation failed: " ++ msg)%string
    /\ queue rs'
       = queue rs ++ (if (n <? max_retries)%nat
                      then [(id, (S n, 60 * 2 ^ Z.of_nat n))] else [])
    /\ transitions rs'
       = transitions rs
         ++ [(id, (reel_status r, processing)); (id, (processing, failed))].
Proof.
  intros Hget Hph.
  destruct (get_reel_write_status rs id processing (fun r => r) r
              (fun _ => eq_refl) Hget) as (Hg1 & Hq1 & Ht1 & _).
  set (rs1 := write_status rs id processing (fun r => r)) in *.
  destruct (get_reel_write_status rs1 id failed
              (set_error_message ("Video generation failed: " ++ msg)) _
              (fun _ => eq_refl) Hg1) as (Hg2 & Hq2 & Ht2 & _).
  unfold generate_flashback_reel_video. rewrite Hget. fold rs1.
  destruct (reel_photos r) as [|p ps] eqn:Eph; [contradiction|].
  unfold mark_failed.
  set (rs2 := write_status rs1 id failed _) in *.
  destruct (n <? max_retries)%nat.
  - exists (retry rs2 id n (60 * 2 ^ Z.of_nat n)). eexists.
    split; [reflexivity|].
    split; [unfold get_reel, retry; simpl; exact Hg2|].
    simpl. rewrite Eph, Hq2, Hq1, Ht2, Ht1, <- app_assoc.
    repeat split.
  - exists rs2. eexists. split; [reflexivity|].
    split; [exact Hg2|].
    simpl. rewrite Eph, Hq2, Hq1, Ht2, Ht1, <- app_assoc, app_nil_r.
    repeat split.
Qed.

End GenerationJob.

(** C5. A reel whose rendering raises on every attempt: with the fuel for
    four runs the worker stops with a returned dictionary (nothing is raised
    further), after exactly 3 retries, queued with countdowns 60, 120 and 240;
    the reel is then [failed], its error message is the stored failure
    message of the last attempt, and its completion time is still null. *)
Theorem failing_job_ends_failed (rs : ReelStore) (id : Z) (reel : FlashbackReel)
    (msgs : nat -> string) (share : option Z) (clock : nat -> datetime)
    (fuel : nat) :
  FlashbackReelService.get_reel rs id = Some reel ->
  reel_photos reel <> [] ->
  reel_completed_at reel = None ->
  (4 <= fuel)%nat ->
  exists rs' reel',
    Tasks.run_task fuel (fun n => Tasks.RenderRaises (msgs n)) share clock 0 rs id
    = Some (Tasks.Returned "error" (msgs 3%nat) (Some 3%nat), rs')
    /\ FlashbackReelService.get_reel rs' id = Some reel'
    /\ reel_status reel' = failed
    /\ reel_error_message reel'
       = ("Video generation failed: " ++ msgs 3%nat)%string
    /\ reel_completed_at reel' = None
    /\ queue rs' = queue rs ++ [(id, (1%nat, 60)); (id, (2%nat, 120));
                                (id, (3%nat, 240))].
Proof.
  intros Hget Hph Hdone Hfuel.
  do 4 (destruct fuel as [|fuel]; [lia|]). clear Hfuel.
  destruct (failing_attempt rs id reel (msgs 0%nat) share (clock 0%nat) 0
              Hget Hph)
    as (rs1 & r1 & E1 & G1 & P1 & C1 & _ & _ & Q1 & _).
  rewrite <- P1 in Hph.
  destruct (failing_attempt rs1 id r1 (msgs 1%nat) share (clock 1%nat) 1
              G1 Hph)
    as (rs2 & r2 & E2 & G2 & P2 & C2 & _ & _ & Q2 & _).
  rewrite <- P2 in Hph.
  destruct (failing_attempt rs2 id r2 (msgs 2%nat) share (clock 2%nat) 2
              G2 Hph)
    as (rs3 & r3 & E3 & G3 & P3 & C3 & _ & _ & Q3 & _).
  rewrite <- P3 in Hph.
  destruct (failing_attempt rs3 id r3 (msgs 3%nat) share (clock 3%nat) 3
              G3 Hph)
    as (rs4 & r4 & E4 & G4 & P4 & C4 & S4 & M4 & Q4 & _).
  exists rs4, r4.
  split.
  { cbn [Tasks.run_task]. rewrite E1. cbn [Nat.ltb Nat.leb Tasks.max_retries].
    rewrite E2. cbn [Nat.ltb Nat.leb Tasks.max_retries].
    rewrite E3. cbn [Nat.ltb Nat.leb Tasks.max_retries].
    rewrite E4. reflexivity. }
  split; [exact G4|]. split; [exact S4|]. split; [exact M4|].
  split; [congruence|].
  rewrite Q4, Q3, Q2, Q1. simpl. rewrite app_nil_r, <- !app_assoc. reflexivity.
Qed.

Lemma failing_job_ends_failed_witness :
  exists rs' reel',
    Tasks.run_task 4 (fun n => Tasks.RenderRaises "renderer down") None
                   (fun _ => Sample.now) 0 Sample.after_request 1
    = Some (Tasks.Returned "error" "renderer down" (Some 3%nat), rs')
    /\ FlashbackReelService.get_reel rs' 1 = Some reel'
    /\ reel_status reel' = failed
    /\ reel_error_message reel'
       = "Video generation failed: renderer down"%string
    /\ reel_completed_at reel' = None
    /\ queue rs' = queue Sample.after_request
                   ++ [(1, (1%nat, 60)); (1, (2%nat, 120)); (1, (3%nat, 240))].
Proof.
  eapply (failing_job_ends_failed Sample.after_request 1 _
            (fun _ => "renderer down"%string) None (fun _ => Sample.now) 4).
  - vm_compute. reflexivity.
  - vm_compute. discriminate.
  - vm_compute. reflexivity.
  - lia.
Defined.

Section StateMachine.
Import FlashbackReelService Tasks.


Lemma legal_into_processing (s : ReelStatus) :
  s <> processing -> legal_or_restart (s, processing) = true.
Proof. destruct s; intros H; try reflexivity. contradiction. Qed.

Lemma settled_cancel (rs : ReelStore) (id : Z) :
  settled rs -> settled (snd (cancel_reel_generation rs id)).
Proof.
  intros [Hi Ht]. unfold cancel_reel_generation.
  destruct (get_reel rs id) as [r|] eqn:Hget; [|split; assumption].
  destruct (get_reel_write_status rs id failed
              (set_error_message "Cancelled by user") r (fun _ => eq_refl) Hget)
    as (_ & _ & Htr & Hre).
  assert (Hr : idle r).
  { rewrite List.Forall_forall in Hi. apply Hi, (get_reel_In rs id), Hget. }
  destruct (reel_status r) eqn:Es; cbn [snd]; try (split; assumption).
  - split.
    + rewrite Hre. apply update_reel_idle; [discriminate | apply idle_weaken, Hi].
    + rewrite Htr. apply List.Forall_app. split; [exact Ht|].
      constructor; [reflexivity | constructor].
  - exfalso. apply Hr, Es.
Qed.

Lemma settled_retry (rs : ReelStore) (id : Z) :
  settled rs -> settled (snd (retry_reel_generation rs id)).
Proof.
  intros [Hi Ht]. unfold retry_reel_generation.
  destruct (get_reel rs id) as [r|] eqn:Hget; [|split; assumption].
  destruct (get_reel_write_status rs id pending
              (set_error_message EmptyString) r (fun _ => eq_refl) Hget)
    as (_ & _ & Htr & Hre).
  destruct (reel_status r) eqn:Es; try (split; assumption).
  split; unfold start_reel_generation; cbn [snd reels transitions].
  - rewrite Hre. apply update_reel_idle; [discriminate | apply idle_weaken, Hi].
  - rewrite Htr. apply List.Forall_app. split; [exact Ht|].
    constructor; [reflexivity | constructor].
Qed.

Lemma settled_job (rs : ReelStore) (id : Z) (render : RenderOutcome)
    (share : option Z) (now : datetime) (n : nat) :
  settled rs ->
  settled (snd (generate_flashback_reel_video render share now n rs id)).
Proof.
  intros [Hi Ht]. unfold generate_flashback_reel_video.
  destruct (get_reel rs id) as [r|] eqn:Hget; [|split; assumption].
  assert (Hr : idle r).
  { rewrite List.Forall_forall in Hi. apply Hi, (get_reel_In rs id), Hget. }
  destruct (get_reel_write_status rs id processing (fun r => r) r
              (fun _ => eq_refl) Hget) as (Hg1 & _ & Ht1 & Hr1).
  set (rs1 := write_status rs id processing (fun r => r)) in *.
  assert (Ho : List.Forall (fun r => reel_id r <> id -> idle r) (reels rs1)).
  { rewrite Hr1. apply update_reel_others; [reflexivity | exact Hi]. }
  assert (Hl1 : List.Forall (fun t => legal_or_restart (snd t) = true)
                            (transitions rs1 ++ [(id, (processing, failed))])).
  { rewrite Ht1. apply List.Forall_app. split.
    - apply List.Forall_app. split; [exact Ht|].
      constructor; [apply legal_into_processing, Hr | constructor].
    - constructor; [reflexivity | constructor]. }
  assert (Hfail : forall msg, settled (mark_failed rs1 id msg)).
  { intros msg. unfold mark_failed.
    destruct (get_reel_write_status rs1 id failed (set_error_message msg) _
                (fun _ => eq_refl) Hg1) as (_ & _ & Ht2 & Hr2).
    split.
    - rewrite Hr2. apply update_reel_idle; [discriminate | exact Ho].
    - rewrite Ht2. exact Hl1. }
  destruct (reel_photos r) as [|p ps]; [apply Hfail|].
  destruct render as [content|msg].
  - simpl. unfold mark_completed.
    destruct (get_reel_write_status rs1 id completed (set_completed_at now) _
                (fun _ => eq_refl) Hg1) as (Hg2 & _ & Ht2 & Hr2).
    set (rs2 := write_status rs1 id completed (set_completed_at now)) in *.
    assert (H2 : settled rs2).
    { split.
      - rewrite Hr2. apply update_reel_idle; [discriminate | exact Ho].
      - rewrite Ht2, Ht1. apply List.Forall_app. split.
        + apply List.Forall_app. split; [exact Ht|].
          constructor; [apply legal_into_processing, Hr | constructor].
        + constructor; [reflexivity | constructor]. }
    unfold create_reel_share_link. rewrite Hg2.
    destruct share as [link|]; [|exact H2]. simpl.
    destruct (reel_share_link r); [exact H2|].
    destruct H2 as [Hi2 Hl2]. split; [|exact Hl2]. simpl.
    unfold update_reel. apply List.Forall_forall. intros x Hx.
    apply in_map_iff in Hx. destruct Hx as [x0 [<- Hx0]].
    rewrite List.Forall_forall in Hi2. specialize (Hi2 x0 Hx0).
    destruct (reel_id x0 =? id); [exact Hi2 | exact Hi2].
  - destruct (n <? max_retries)%nat; simpl; apply Hfail.
Qed.

(** Operations that each run as a whole, on a store with no reel in
    [processing], stay within [legal_or_restart]: a subset of what
    interleaved runs do. *)
Lemma settled_run_ops (ops : list (Z * Op)) (rs : ReelStore) :
  settled rs -> settled (run_ops rs ops).
Proof.
  revert rs. induction ops as [|[id op] ops IH]; intros rs H; [exact H|].
  unfold run_ops. simpl. apply IH.
  destruct op; simpl.
  - apply settled_job, H.
  - apply settled_cancel, H.
  - apply settled_retry, H.
Qed.

End StateMachine.

Section InterleavedRuns.
Import FlashbackReelService Tasks Interleaving.

















(** A run as a whole is a start followed at once by the rest. *)
Lemma job_in_two_parts (render : RenderOutcome) (share : option Z)
    (now : datetime) (retries : nat) (rs : ReelStore) (id : Z) :
  generate_flashback_reel_video render share now retries rs id
  = match job_start rs id with
    | (Some held, rs') => job_finish render share now retries held rs' id
    | (None, rs') => (Returned "error" "Reel not found" None, rs')
    end.
Proof.
  unfold generate_flashback_reel_video, job_start.
  destruct (get_reel rs id) as [reel|] eqn:E; [|reflexivity].
  destruct (get_reel_write_status rs id processing (fun r => r) reel
              (fun r => eq_refl) E) as (Hg & _).
  unfold job_finish. rewrite Hg. cbn [set_status reel_photos].
  destruct (reel_photos reel) as [|p ps]; [reflexivity|].
  destruct render as [content|msg]; [|reflexivity].
  f_equal. unfold mark_completed.
  destruct (get_reel_write_status _ id completed (set_completed_at now) _
              (fun r => eq_refl) Hg) as (Hg2 & _).
  unfold create_reel_share_link, held_share_link. rewrite Hg2.
  cbn [set_status set_completed_at reel_share_link].
  destruct share, (reel_share_link reel); reflexivity.
Qed.

(** A run as a whole is a delivery followed at once by its finish. *)
Lemma whole_run_as_events (w : Worker) (k : nat) (id : Z) (retries : nat)
    (countdown : Z) (render : RenderOutcome) (share : option Z)
    (now : datetime) :
  nth_error (queue (w_store w)) k = Some (id, (retries, countdown)) ->
  w_store (run_events w [Deliver k;
                         Finish (length (w_running w)) render share now])
  = snd (generate_flashback_reel_video render share now retries (w_store w) id).
Proof.
  intros Hk. rewrite job_in_two_parts. cbn [run_events fold_left step].
  rewrite Hk. destruct (job_start (w_store w) id) as [[held|] rs] eqn:Es.
  - cbn [w_running w_store step].
    rewrite nth_error_app2 by lia. rewrite Nat.sub_diag. reflexivity.
  - cbn [w_running w_store step].
    assert (Hn : nth_error (w_running w) (length (w_running w)) = None)
      by (apply nth_error_None; lia).
    rewrite Hn. reflexivity.
Qed.

End InterleavedRuns.



(** The caller of a cancel sees it succeed, and the reel completes all the
    same: a cancel that falls between the two saves of a run is overwritten,
    [failed] -> [completed]. *)
Lemma cancel_during_render :
  transitions
    (Interleaving.w_store
       (Interleaving.run_events
          (Interleaving.mkWorker Sample.after_request [])
          [Interleaving.Deliver 0; Interleaving.Cancel 1;
           Interleaving.Finish 0 (Tasks.Rendered "mp4") None Sample.now]))
  = [(1, (pending, processing)); (1, (processing, failed));
     (1, (failed, completed))].
Proof. vm_compute. reflexivity. Qed.

(** Every transition the theorem admits occurs, on the reel of the sample
    request, in a history that takes no job from the queue twice. *)
Lemma every_code_transition_occurs (t : ReelStatus * ReelStatus) :
  Interleaving.code_transition t = true ->
  exists events,
    List.NoDup (Interleaving.deliveries events)
    /\ In (1, t)
          (transitions
             (Interleaving.w_store
                (Interleaving.run_events
                   (Interleaving.mkWorker Sample.after_request []) events))).
Proof.
  pose (ok := Interleaving.Finish 0 (Tasks.Rendered "mp4") None Sample.now).
  pose (ko := Interleaving.Finish 0 (Tasks.RenderRaises "renderer down") None
                                  Sample.now).
  pose (D := Interleaving.Deliver).
  pose (C := Interleaving.Cancel 1).
  pose (R := Interleaving.Retry 1).
  destruct t as [[] []]; intros Ht; try discriminate Ht.
  - (* pending -> processing *)
    exists [D 0%nat]. split; [repeat constructor; simpl; tauto|].
    vm_compute. tauto.
  - (* pending -> completed *)
    exists [D 0%nat; C; R; ok]. split; [repeat constructor; simpl; tauto|].
    vm_compute. tauto.
  - (* pending -> failed *)
    exists [C]. split; [constructor|]. vm_compute. tauto.
  - (* processing -> processing *)
    exists [D 0%nat; ko; R; D 1%nat; D 2%nat].
    split; [repeat constructor; simpl; intuition lia|]. vm_compute. tauto.
  - (* processing -> completed *)
    exists [D 0%nat; ok]. split; [repeat constructor; simpl; tauto|].
    vm_compute. tauto.
  - (* processing -> failed *)
    exists [D 0%nat; ko]. split; [repeat constructor; simpl; tauto|].
    vm_compute. tauto.
  - (* completed -> processing *)
    exists [D 0%nat; C; R; ok; D 1%nat].
    split; [repeat constructor; simpl; intuition lia|]. vm_compute. tauto.
  - (* completed -> completed *)
    exists [D 0%nat; ko; R; D 1%nat; D 2%nat; ok; ok].
    split; [repeat constructor; simpl; intuition lia|]. vm_compute. tauto.
  - (* completed -> failed *)
    exists [D 0%nat; ko; R; D 1%nat; D 2%nat; ok; ko].
    split; [repeat constructor; simpl; intuition lia|]. vm_compute. tauto.
  - (* failed -> pending *)
    exists [C; R]. split; [constructor|]. vm_compute. tauto.
  - (* failed -> processing *)
    exists [D 0%nat; ko; D 1%nat].
    split; [repeat constructor; simpl; intuition lia|]. vm_compute. tauto.
  - (* failed -> completed *)
    exists [D 0%nat; C; ok]. split; [repeat constructor; simpl; tauto|].
    vm_compute. tauto.
  - (* failed -> failed *)
    exists [D 0%nat; C; ko]. split; [repeat constructor; simpl; tauto|].
    vm_compute. tauto.
Qed.

(** ** Reel photo selector *)

Section Grouping.
Import MemoryEngine FlashbackReelService.

Lemma dict_append_keys (k : date) (v : Image * Q)
    (d : list (date * list (Image * Q))) :
  map fst (dict_append k v d)
  = if existsb (date_eqb k) (map fst d) then map fst d else map fst d ++ [k].
Proof.
  induction d as [|[k' vs] d IH]; simpl; [reflexivity|].
  destruct (date_eqb k k'); simpl; [reflexivity|].
  rewrite IH. destruct (existsb _ _); reflexivity.
Qed.

Lemma dict_append_NoDup (k : date) (v : Image * Q)
    (d : list (date * list (Image * Q))) :
  List.NoDup (map fst d) -> List.NoDup (map fst (dict_append k v d)).
Proof.
  intros H. rewrite dict_append_keys.
  destruct (existsb (date_eqb k) (map fst d)) eqn:E; [exact H|].
  eapply Permutation_NoDup; [apply Permutation_cons_append|].
  constructor; [|exact H]. intros Hk.
  assert (Hex : existsb (date_eqb k) (map fst d) = true).
  { apply existsb_exists. exists k.
    split; [exact Hk | apply date_eqb_eq; reflexivity]. }
  congruence.
Qed.

Lemma dict_append_perm (k : date) (v : Image * Q)
    (d : list (date * list (Image * Q))) :
  Permutation (concat (map snd (dict_append k v d)))
              (concat (map snd d) ++ [v]).
Proof.
  induction d as [|[k' vs] d IH]; simpl; [reflexivity|].
  destruct (date_eqb k k'); simpl.
  - rewrite <- !app_assoc. apply Permutation_app_head.
    apply Permutation_app_comm.
  - rewrite IH, app_assoc. reflexivity.
Qed.

Lemma dict_append_nonempty (k : date) (v : Image * Q)
    (d : list (date * list (Image * Q))) :
  List.Forall (fun e => snd e <> []) d ->
  List.Forall (fun e => snd e <> []) (dict_append k v d).
Proof.
  induction 1 as [|[k' vs] d Hx Hd IH]; simpl.
  - repeat constructor. discriminate.
  - destruct (date_eqb k k').
    + constructor; [|exact Hd]. simpl. destruct vs; discriminate.
    + constructor; [exact Hx | exact IH].
Qed.


Lemma fold_dict_append_grouped (l l0 : list (Image * Q))
    (d : list (date * list (Image * Q))) :
  grouped l0 d ->
  grouped (l0 ++ l)
    (fold_left (fun d ps => dict_append (photo_date (fst ps)) ps d) l d).
Proof.
  revert l0 d. induction l as [|ps l IH]; intros l0 d H; simpl.
  - rewrite app_nil_r. exact H.
  - replace (l0 ++ ps :: l) with ((l0 ++ [ps]) ++ l)
      by (rewrite <- app_assoc; reflexivity).
    apply IH. destruct H as (Hn & Hne & Hp). split; [|split].
    + apply dict_append_NoDup, Hn.
    + apply dict_append_nonempty, Hne.
    + rewrite dict_append_perm. apply Permutation_app_tail, Hp.
Qed.

Lemma group_by_date_grouped (l : list (Image * Q)) :
  grouped l (group_by_date l).
Proof.
  apply (fold_dict_append_grouped l [] []).
  split; [constructor | split; [constructor | reflexivity]].
Qed.

Lemma dict_get_In (k : date) (x : Image * Q)
    (d : list (date * list (Image * Q))) :
  In x (dict_get k d) -> In x (concat (map snd d)).
Proof.
  induction d as [|[k' vs] d IH]; simpl; [tauto|].
  intros H. apply in_or_app. destruct (date_eqb k k'); auto.
Qed.

Lemma dict_get_key (d : list (date * list (Image * Q))) :
  List.NoDup (map fst d) ->
  map (fun k => dict_get k d) (map fst d) = map snd d.
Proof.
  induction d as [|[k vs] d IH]; simpl; intros Hn; [reflexivity|].
  inversion Hn as [|? ? Hk Hn']; subst.
  assert (Hkk : date_eqb k k = true) by (apply date_eqb_eq; reflexivity).
  rewrite Hkk. f_equal. rewrite <- (IH Hn').
  apply map_ext_in. intros k' Hk'.
  destruct (date_eqb k' k) eqn:E; [|reflexivity].
  apply date_eqb_eq in E. subst. contradiction.
Qed.

Lemma tails_length (gs : list (list (Image * Q))) :
  List.Forall (fun g => g <> []) gs ->
  (length (concat (map (@tl _) gs)) + length gs = length (concat gs))%nat.
Proof.
  induction 1 as [|g gs Hg Hgs IH]; simpl; [reflexivity|].
  rewrite !length_app. destruct g as [|x g]; [contradiction|]. simpl. lia.
Qed.

End Grouping.

Section Selector.
Import MemoryEngine FlashbackReelService.

Lemma mapM_Ok {A B : Type} (f : A -> Result B) (P : B -> Prop) (l : list A) :
  (forall x, In x l -> exists y, f x = Ok y /\ P y) ->
  exists ys, mapM f l = Ok ys /\ length ys = length l /\ List.Forall P ys.
Proof.
  induction l as [|x l IH]; intros H.
  - exists []. repeat split. constructor.
  - destruct (H x (or_introl eq_refl)) as [y [Hy Py]].
    destruct IH as [ys [Hys [Hlen HP]]].
    { intros x' Hx'. apply H. right. exact Hx'. }
    exists (y :: ys). simpl. rewrite Hy. simpl. rewrite Hys. simpl.
    split; [reflexivity|]. split; [congruence | constructor; assumption].
Qed.

Lemma dict_get_group (d : list (date * list (Image * Q))) (k : date) :
  List.NoDup (map fst d) -> In k (map fst d) -> In (dict_get k d) (map snd d).
Proof.
  intros Hn Hk. rewrite <- (dict_get_key d Hn).
  apply (in_map (fun k => dict_get k d)), Hk.
Qed.

Lemma best_of_Ok (scored : list (Image * Q)) (k : date) :
  In k (map fst (group_by_date scored)) ->
  exists p, best_of (group_by_date scored) k = Ok p /\ In p (map fst scored).
Proof.
  intros Hk. destruct (group_by_date_grouped scored) as (Hn & Hne & Hp).
  pose proof (dict_get_group _ k Hn Hk) as Hg.
  unfold best_of.
  destruct (sort_by by_score_desc (dict_get k (group_by_date scored)))
    as [|[p s] rest] eqn:E.
  - apply sort_by_nil in E. apply in_map_iff in Hg.
    destruct Hg as [e [He Hin]]. rewrite List.Forall_forall in Hne.
    specialize (Hne e Hin). congruence.
  - exists p. split; [reflexivity|].
    assert (Hin : In (p, s) (dict_get k (group_by_date scored))).
    { apply (sort_by_In by_score_desc). rewrite E. left. reflexivity. }
    apply dict_get_In in Hin.
    apply (in_map fst) in Hin. simpl in Hin.
    eapply Permutation_in; [apply Permutation_map, Hp | exact Hin].
Qed.

Lemma remaining_length (scored : list (Image * Q)) (dates : list date) :
  Permutation (map fst (group_by_date scored)) dates ->
  (length (concat (map (fun k => tl (dict_get k (group_by_date scored))) dates))
   + length dates = length scored)%nat.
Proof.
  intros Hd. destruct (group_by_date_grouped scored) as (Hn & Hne & Hp).
  rewrite <- flat_map_concat_map.
  assert (Hf : Permutation
    (flat_map (fun k => tl (dict_get k (group_by_date scored)))
              (map fst (group_by_date scored)))
    (flat_map (fun k => tl (dict_get k (group_by_date scored))) dates))
    by (apply Permutation_flat_map, Hd).
  rewrite <- (Permutation_length Hf).
  rewrite <- (Permutation_length Hd), flat_map_concat_map.
  rewrite <- (map_map (fun k => dict_get k (group_by_date scored)) (@tl _)).
  rewrite (dict_get_key _ Hn).
  rewrite <- (Permutation_length Hp).
  rewrite <- (tails_length (map snd (group_by_date scored))).
  - rewrite !length_map. reflexivity.
  - apply List.Forall_forall. intros g Hg. apply in_map_iff in Hg.
    destruct Hg as [e [<- He]]. rewrite List.Forall_forall in Hne.
    apply Hne, He.
Qed.

Lemma remaining_In (scored : list (Image * Q)) (dates : list date)
    (x : Image * Q) :
  In x (concat (map (fun k => tl (dict_get k (group_by_date scored))) dates)) ->
  In x scored.
Proof.
  intros H. apply in_concat in H. destruct H as [g [Hg Hx]].
  apply in_map_iff in Hg. destruct Hg as [k [<- _]].
  destruct (group_by_date_grouped scored) as (_ & _ & Hp).
  eapply Permutation_in; [exact Hp|].
  apply (dict_get_In k).
  destruct (dict_get k (group_by_date scored)); [contradiction|].
  right. exact Hx.
Qed.

End Selector.

Section SelectorTotal.
Import MemoryEngine FlashbackReelService.

Lemma stride_index_in_range (n count i : nat) :
  (0 < count)%nat -> (count < n)%nat -> (i < count)%nat ->
  (i * (n / count) < n)%nat.
Proof.
  intros Hc Hn Hi.
  assert (H1 : (count * (n / count) <= n)%nat)
    by (apply Nat.Div0.mul_div_le).
  assert (H2 : (1 <= n / count)%nat)
    by (apply Nat.div_str_pos; lia).
  nia.
Qed.

(** [_apply_temporal_distribution] raises nothing and fills the slots. *)
Lemma apply_temporal_distribution_spec (scored : list (Image * Q)) (count : nat) :
  (0 < count)%nat ->
  exists l,
    apply_temporal_distribution scored count = Ok l
    /\ length l = Nat.min (length scored) count
    /\ forall p, In p l -> In p (map fst scored).
Proof.
  intros Hc. unfold apply_temporal_distribution.
  destruct (Nat.leb_spec (length scored) count) as [Hle|Hgt].
  - exists (map fst scored). rewrite length_map.
    split; [reflexivity|]. split; [lia | auto].
  - set (D := group_by_date scored).
    set (dates := sort_by date_leb (map fst D)).
    assert (Hperm : Permutation (map fst D) dates)
      by apply sort_by_perm.
    assert (Hdates : forall k, In k dates -> In k (map fst D)).
    { intros k Hk. apply (sort_by_In date_leb), Hk. }
    pose proof (remaining_length scored dates Hperm) as Hrem.
    destruct (Nat.leb_spec (length dates) count) as [Hd|Hd].
    + destruct (mapM_Ok (best_of D) (fun p => In p (map fst scored)) dates)
        as [sel [Hsel [Hlen HP]]].
      { intros k Hk. apply best_of_Ok, Hdates, Hk. }
      rewrite Hsel. simpl. rewrite Hlen.
      rewrite List.Forall_forall in HP.
      destruct (Nat.ltb_spec 0 (count - length dates)) as [Hpos|Hzero].
      * eexists. split; [reflexivity|]. split.
        -- rewrite length_app, length_map, length_firstn, sort_by_length, Hlen.
           fold D in Hrem. lia.
        -- intros p Hp. apply in_app_or in Hp. destruct Hp as [Hp|Hp].
           ++ apply HP, Hp.
           ++ apply in_map_iff in Hp. destruct Hp as [[p' s] [<- Hin]].
              apply In_firstn in Hin. apply sort_by_In in Hin.
              apply (remaining_In scored dates) in Hin.
              apply (in_map fst) in Hin. exact Hin.
      * exists sel. split; [reflexivity|]. split; [lia | exact HP].
    + destruct (Nat.eqb_spec count 0) as [Hz|_]; [lia|].
      destruct (mapM_Ok (fun i => list_index dates (i * (length dates / count)))
                  (fun k => In k dates) (seq 0 count))
        as [sd [Hsd [Hlen HP]]].
      { intros i Hi. apply in_seq in Hi. unfold list_index.
        destruct (nth_error dates (i * (length dates / count))) as [k|] eqn:E.
        - exists k. split; [reflexivity|]. eapply nth_error_In, E.
        - apply nth_error_None in E.
          pose proof (stride_index_in_range (length dates) count i). lia. }
      rewrite Hsd. simpl.
      rewrite List.Forall_forall in HP.
      destruct (mapM_Ok (best_of D) (fun p => In p (map fst scored)) sd)
        as [sel [Hsel [Hlen' HP']]].
      { intros k Hk. apply best_of_Ok, Hdates, HP, Hk. }
      exists sel. split; [exact Hsel|]. split.
      * rewrite Hlen', Hlen, length_seq. lia.
      * apply List.Forall_forall, HP'.
Qed.

(** [_advanced_photo_selection] *)
Lemma advanced_photo_selection_spec (ix : PhotoIndex) (now : datetime)
    (photos : list Image) (count : nat) :
  (0 < count)%nat ->
  exists l,
    advanced_photo_selection ix now photos count = Ok l
    /\ length l = Nat.min (length photos) count
    /\ forall p, In p l -> In p photos.
Proof.
  intros Hc. unfold advanced_photo_selection.
  destruct (apply_temporal_distribution_spec
              (sort_by by_score_desc
                 (map (fun photo => (photo, score_photo_significance ix now photo))
                      photos)) count Hc) as [l [Hl [Hlen Hin]]].
  rewrite Hl. simpl. eexists. split; [reflexivity|]. split.
  - rewrite sort_by_length, Hlen, sort_by_length, length_map. reflexivity.
  - intros p Hp. apply sort_by_In in Hp. apply Hin in Hp.
    apply in_map_iff in Hp. destruct Hp as [[p' s] [<- Hp]].
    apply sort_by_In in Hp. apply in_map_iff in Hp.
    destruct Hp as [q [Hq Hq']]. injection Hq as <- _. exact Hq'.
Qed.

(** [select_representative_photos] raises nothing; it returns every photo of
    the period when there are no more than the clamped count, and exactly
    that many otherwise, all of them photos of the period. *)
Lemma select_representative_photos_spec (ix : PhotoIndex) (now : datetime)
    (user_id : Z) (start_date end_date : date) (count : option Z) :
  exists l,
    select_representative_photos ix now user_id start_date end_date count = Ok l
    /\ Z.of_nat (length l)
       = Z.min (Z.of_nat (length (photos_in_period ix user_id start_date end_date)))
               (clamp_count count)
    /\ forall p, In p l -> In p (photos_in_period ix user_id start_date end_date).
Proof.
  unfold select_representative_photos. fold (clamp_count count).
  assert (Hc : 10 <= clamp_count count <= 20).
  { unfold clamp_count, min_photos_for_reel, max_photos_per_reel. lia. }
  set (period := photos_in_period ix user_id start_date end_date).
  assert (Hlen : length (oldest_first period) = length period)
    by apply sort_by_length.
  destruct (Z.leb_spec (Z.of_nat (length (oldest_first period)))
                       (clamp_count count)) as [Hle|Hgt].
  - exists (oldest_first period). split; [reflexivity|].
    split; [lia|]. intros p Hp. apply (sort_by_In taken_leb), Hp.
  - destruct (advanced_photo_selection_spec ix now (oldest_first period)
                (Z.to_nat (clamp_count count))) as [l [Hl [Hn Hin]]]; [lia|].
    exists l. split; [exact Hl|]. split; [lia|].
    intros p Hp. apply (sort_by_In taken_leb), Hin, Hp.
Qed.

End SelectorTotal.

Lemma photos_in_period_in_range (ix : PhotoIndex) (user_id : Z)
    (start_date end_date : date) (p : Image) :
  In p (FlashbackReelService.photos_in_period ix user_id start_date end_date) ->
  in_range start_date end_date p /\ img_user p = user_id.
Proof.
  unfold FlashbackReelService.photos_in_period. intros H.
  apply filter_In in H. destruct H as [_ H].
  apply andb_true_iff in H. destruct H as [Hu Ht].
  apply Z.eqb_eq in Hu. split; [|exact Hu].
  unfold MemoryEngine.taken_between in Ht. unfold in_range.
  destruct (img_taken_at p) as [t|]; [|discriminate].
  apply andb_true_iff in Ht. exists t. tauto.
Qed.

Section SelectorDistinct.
Import MemoryEngine FlashbackReelService.

Lemma sort_by_ordered_id {A : Type} (before : A -> A -> bool) (l : list A) :
  ordered before l -> sort_by before l = l.
Proof.
  induction l as [|x l IH]; intros H; [reflexivity|].
  destruct H as [Hx Hl]. cbn [sort_by]. rewrite (IH Hl).
  destruct l as [|y l]; [reflexivity|]. cbn [insert_by]. rewrite Hx.
  reflexivity.
Qed.

Lemma ordered_filter {A : Type} (before : A -> A -> bool) (f : A -> bool)
    (l : list A) :
  (forall a b c, before a b = true -> before b c = true -> before a c = true) ->
  ordered before l -> ordered before (List.filter f l).
Proof.
  intros Ht. induction l as [|x l IH]; intros H; [exact I|].
  pose proof (ordered_head before Ht x l H) as Hall.
  destruct H as [_ Hl]. specialize (IH Hl). cbn [List.filter].
  destruct (f x); [|exact IH]. split; [|exact IH].
  destruct (List.filter f l) as [|y r] eqn:E; [exact I|].
  apply Hall. assert (Hy : In y (List.filter f l)) by (rewrite E; left; reflexivity).
  apply filter_In in Hy. apply Hy.
Qed.

Lemma by_score_desc_trans (a b c : Image * Q) :
  by_score_desc a b = true -> by_score_desc b c = true ->
  by_score_desc a c = true.
Proof.
  unfold by_score_desc. rewrite !Qle_bool_iff. intros H1 H2.
  eapply Qle_trans; eassumption.
Qed.

(** The group of a date is the photos of that date, in their order. *)
Lemma dict_get_append (k k' : date) (v : Image * Q)
    (d : list (date * list (Image * Q))) :
  dict_get k (dict_append k' v d)
  = dict_get k d ++ (if date_eqb k k' then [v] else []).
Proof.
  induction d as [|[k0 vs] d IH]; cbn [dict_append dict_get].
  - destruct (date_eqb k k'); reflexivity.
  - destruct (date_eqb k' k0) eqn:E0; cbn [dict_get].
    + apply date_eqb_eq in E0. subst k0.
      destruct (date_eqb k k'); [reflexivity | rewrite app_nil_r; reflexivity].
    + destruct (date_eqb k k0) eqn:E1; [|exact IH].
      destruct (date_eqb k k') eqn:E2; [|rewrite app_nil_r; reflexivity].
      apply date_eqb_eq in E1, E2. subst.
      assert (date_eqb k0 k0 = true) by (apply date_eqb_eq; reflexivity).
      congruence.
Qed.

Lemma dict_get_fold (k : date) (l : list (Image * Q)) :
  forall d,
    dict_get k (fold_left (fun d ps => dict_append (photo_date (fst ps)) ps d)
                          l d)
    = dict_get k d
      ++ List.filter (fun ps => date_eqb k (photo_date (fst ps))) l.
Proof.
  induction l as [|v l IH]; intros d; cbn [fold_left List.filter].
  - rewrite app_nil_r. reflexivity.
  - rewrite IH, dict_get_append.
    destruct (date_eqb k (photo_date (fst v)));
      rewrite <- app_assoc; reflexivity.
Qed.

Lemma dict_get_group_by_date (k : date) (l : list (Image * Q)) :
  dict_get k (group_by_date l)
  = List.filter (fun ps => date_eqb k (photo_date (fst ps))) l.
Proof. unfold group_by_date. rewrite dict_get_fold. reflexivity. Qed.


Lemma mapM_inv {A B : Type} (f : A -> Result B) (l : list A) :
  forall ys, mapM f l = Ok ys -> Forall2 (fun x y => f x = Ok y) l ys.
Proof.
  induction l as [|x l IH]; intros ys H; simpl in H.
  - injection H as <-. constructor.
  - destruct (f x) as [y|e] eqn:Ex; simpl in H; [|discriminate].
    destruct (mapM f l) as [ys'|e]; simpl in H; [|discriminate].
    injection H as <-. constructor; [exact Ex | apply IH; reflexivity].
Qed.

Lemma Forall2_In_r {A B : Type} (R : A -> B -> Prop) (l : list A)
    (ys : list B) (y : B) :
  Forall2 R l ys -> In y ys -> exists x, In x l /\ R x y.
Proof.
  induction 1 as [|x y' l ys Hxy Hl IH]; intros Hy; [destruct Hy|].
  destruct Hy as [->|Hy].
  - exists x. split; [left; reflexivity | exact Hxy].
  - destruct (IH Hy) as [x' [Hx' Hr]]. exists x'. split; [right|]; assumption.
Qed.

Lemma Forall2_NoDup_inj {A B : Type} (R : A -> B -> Prop) (l : list A)
    (ys : list B) :
  Forall2 R l ys -> List.NoDup l ->
  (forall x x' y, In x l -> In x' l -> R x y -> R x' y -> x = x') ->
  List.NoDup ys.
Proof.
  induction 1 as [|x y l ys Hxy Hl IH]; intros Hn Hinj; [constructor|].
  inversion Hn as [|? ? Hx Hn']; subst. constructor.
  - intros Hy. destruct (Forall2_In_r R l ys y Hl Hy) as [x' [Hx' Hr]].
    apply Hx. rewrite (Hinj x x' y); [exact Hx' | left; reflexivity
                                      | right; exact Hx' | exact Hxy | exact Hr].
  - apply IH; [exact Hn'|]. intros a a' b Ha Ha'. apply Hinj; right; assumption.
Qed.

Lemma best_of_group (scored : list (Image * Q)) (k : date) (p : Image) :
  best_of (group_by_date scored) k = Ok p ->
  exists s, In (p, s) scored /\ photo_date p = k.
Proof.
  unfold best_of.
  destruct (sort_by by_score_desc (dict_get k (group_by_date scored)))
    as [|[p' s] rest] eqn:E; [discriminate|].
  intros H. injection H as <-. exists s.
  assert (Hin : In (p', s) (dict_get k (group_by_date scored))).
  { apply (sort_by_In by_score_desc). rewrite E. left. reflexivity. }
  rewrite dict_get_group_by_date in Hin. apply filter_In in Hin.
  destruct Hin as [Hin Hd]. split; [exact Hin|].
  apply date_eqb_eq in Hd. symmetry. exact Hd.
Qed.

Lemma NoDup_map_fst_eq {A B : Type} (l : list (A * B)) (x y : A * B) :
  List.NoDup (map fst l) -> In x l -> In y l -> fst x = fst y -> x = y.
Proof.
  induction l as [|z l IH]; intros Hn Hx Hy E; [destruct Hx|].
  cbn [map] in Hn. inversion Hn as [|? ? Hz Hn']; subst.
  destruct Hx as [->|Hx], Hy as [->|Hy].
  - reflexivity.
  - exfalso. apply Hz. rewrite E. apply in_map, Hy.
  - exfalso. apply Hz. rewrite <- E. apply in_map, Hx.
  - apply IH; assumption.
Qed.

(** Photos picked as the best of distinct dates are distinct. *)
Lemma best_of_distinct (scored : list (Image * Q)) (ks : list date)
    (ps : list Image) :
  List.NoDup (map fst scored) -> List.NoDup ks ->
  mapM (best_of (group_by_date scored)) ks = Ok ps -> List.NoDup ps.
Proof.
  intros Hn Hks H. apply mapM_inv in H.
  apply (Forall2_NoDup_inj _ _ _ H Hks).
  intros k k' p _ _ Hk Hk'.
  apply best_of_group in Hk, Hk'.
  destruct Hk as [s [_ Hd]], Hk' as [s' [_ Hd']]. congruence.
Qed.

(** The dates at a positive stride are distinct. *)
Lemma stride_dates_distinct (dates sd : list date) (count step : nat) :
  List.NoDup dates -> (0 < step)%nat ->
  mapM (fun i => list_index dates (i * step)) (seq 0 count) = Ok sd ->
  List.NoDup sd.
Proof.
  intros Hn Hs H. apply mapM_inv in H.
  apply (Forall2_NoDup_inj _ _ _ H (seq_NoDup count 0)).
  intros i i' k _ _ Hi Hi'. unfold list_index in Hi, Hi'.
  destruct (nth_error dates (i * step)) as [x|] eqn:E; [|discriminate].
  destruct (nth_error dates (i' * step)) as [x'|] eqn:E'; [|discriminate].
  injection Hi as ->. injection Hi' as ->.
  assert (Hlt : (i * step < length dates)%nat)
    by (apply nth_error_Some; congruence).
  assert (Heq : (i * step = i' * step)%nat).
  { apply (proj1 (NoDup_nth_error dates) Hn); [exact Hlt | congruence]. }
  nia.
Qed.

(** With every group in order, the best of each date is the head of its
    group. *)
Lemma mapM_best_heads (d : list (date * list (Image * Q))) (ks : list date) :
  (forall k, In k ks ->
     dict_get k d <> [] /\ ordered by_score_desc (dict_get k d)) ->
  mapM (best_of d) ks
  = Ok (map fst (concat (map (fun k => firstn 1 (dict_get k d)) ks))).
Proof.
  induction ks as [|k ks IH]; intros H; [reflexivity|].
  destruct (H k (or_introl eq_refl)) as [Hne Ho].
  specialize (IH (fun k' Hk' => H k' (or_intror Hk'))).
  destruct (dict_get k d) as [|[p s] rest] eqn:E; [contradiction|].
  assert (Hb : best_of d k = Ok p).
  { unfold best_of. rewrite E, (sort_by_ordered_id _ _ Ho). reflexivity. }
  cbn [mapM]. rewrite Hb, IH. cbn [map concat]. rewrite E. reflexivity.
Qed.

Lemma heads_tails_perm {A : Type} (g : date -> list A) (ks : list date) :
  Permutation (concat (map (fun k => firstn 1 (g k)) ks)
               ++ concat (map (fun k => tl (g k)) ks))
              (concat (map g ks)).
Proof.
  induction ks as [|k ks IH]; [reflexivity|].
  cbn [map concat]. rewrite <- IH.
  rewrite <- (firstn_skipn 1 (g k)) at 3.
  replace (skipn 1 (g k)) with (tl (g k)) by (destruct (g k); reflexivity).
  rewrite <- !app_assoc. apply Permutation_app_head.
  rewrite !app_assoc. apply Permutation_app_tail. apply Permutation_app_comm.
Qed.

Lemma NoDup_app_firstn {A : Type} (a t t' : list A) (r : nat) :
  List.NoDup (a ++ t) -> Permutation t t' -> List.NoDup (a ++ firstn r t').
Proof.
  intros Hn Hp.
  assert (Hn' : List.NoDup (a ++ t')).
  { eapply Permutation_NoDup; [|exact Hn]. apply Permutation_app_head, Hp. }
  rewrite <- (firstn_skipn r t') in Hn'. rewrite app_assoc in Hn'.
  apply List.NoDup_app_remove_r in Hn'. exact Hn'.
Qed.

(** [_apply_temporal_distribution] picks no photo twice from a list in
    score order with distinct photos. *)
Lemma apply_temporal_distribution_NoDup (scored : list (Image * Q))
    (count : nat) (l : list Image) :
  ordered by_score_desc scored -> List.NoDup (map fst scored) ->
  apply_temporal_distribution scored count = Ok l -> List.NoDup l.
Proof.
  intros Ho Hn. unfold apply_temporal_distribution.
  destruct (length scored <=? count)%nat; [intros H; injection H as <-; exact Hn|].
  destruct (group_by_date_grouped scored) as (Hkeys & Hne & Hperm).
  set (d := group_by_date scored) in *.
  set (dates := sort_by date_leb (map fst d)).
  assert (Hd : Permutation (map fst d) dates) by apply sort_by_perm.
  assert (Hdn : List.NoDup dates) by (eapply Permutation_NoDup; eassumption).
  destruct (length dates <=? count)%nat eqn:El.
  - assert (Hg : forall k, In k dates ->
               dict_get k d <> [] /\ ordered by_score_desc (dict_get k d)).
    { intros k Hk. split.
      - assert (Hin : In k (map fst d))
          by (eapply Permutation_in; [symmetry; exact Hd | exact Hk]).
        pose proof (dict_get_group d k Hkeys Hin) as Hgk.
        apply in_map_iff in Hgk. destruct Hgk as [e [He Hin']].
        rewrite List.Forall_forall in Hne. rewrite <- He. apply Hne, Hin'.
      - unfold d. rewrite dict_get_group_by_date.
        apply ordered_filter; [exact by_score_desc_trans | exact Ho]. }
    rewrite (mapM_best_heads d dates Hg). cbn [mbind Result_bind].
    set (heads := concat (map (fun k => firstn 1 (dict_get k d)) dates)).
    set (tails := concat (map (fun k => tl (dict_get k d)) dates)).
    assert (Hall : List.NoDup (map fst (heads ++ tails))).
    { eapply Permutation_NoDup; [|exact Hn]. apply Permutation_map.
      symmetry. etransitivity; [apply heads_tails_perm|].
      etransitivity; [|exact Hperm].
      rewrite <- (dict_get_key d Hkeys).
      rewrite <- !flat_map_concat_map.
      apply Permutation_flat_map. symmetry. exact Hd. }
    rewrite map_app in Hall.
    destruct (0 <? count - length (map fst heads))%nat.
    + intros H. injection H as <-.
      rewrite <- firstn_map.
      apply (NoDup_app_firstn _ (map fst tails)); [exact Hall|].
      apply Permutation_map, sort_by_perm.
    + intros H. injection H as <-.
      apply List.NoDup_app_remove_r in Hall. exact Hall.
  - destruct (count =? 0)%nat eqn:Ec; [discriminate|].
    apply Nat.eqb_neq in Ec.
    destruct (mapM (fun i => list_index dates (i * (length dates / count)))
                   (seq 0 count)) as [sd|e] eqn:Esd; [|discriminate].
    cbn [mbind Result_bind]. intros H.
    apply Nat.leb_gt in El.
    assert (Hstep : (0 < length dates / count)%nat)
      by (apply Nat.div_str_pos; lia).
    apply (best_of_distinct scored sd l Hn); [|exact H].
    apply (stride_dates_distinct dates sd count (length dates / count)%nat);
      [exact Hdn | exact Hstep | exact Esd].
Qed.

Lemma advanced_photo_selection_NoDup (ix : PhotoIndex) (now : datetime)
    (photos l : list Image) (count : nat) :
  List.NoDup photos ->
  advanced_photo_selection ix now photos count = Ok l -> List.NoDup l.
Proof.
  intros Hn. unfold advanced_photo_selection.
  set (scored := sort_by by_score_desc
                   (map (fun photo => (photo, score_photo_significance ix now photo))
                        photos)).
  destruct (apply_temporal_distribution scored count) as [sel|e] eqn:E;
    [|discriminate].
  cbn [mbind Result_bind]. intros H. injection H as <-.
  eapply Permutation_NoDup; [apply sort_by_perm|].
  apply (apply_temporal_distribution_NoDup scored count sel); [| |exact E].
  - apply sort_by_ordered. intros a b. apply by_score_desc_total.
  - eapply Permutation_NoDup; [|exact Hn].
    etransitivity; [|apply Permutation_map, sort_by_perm].
    rewrite map_map. cbn [fst]. rewrite map_id. reflexivity.
Qed.

Lemma select_representative_photos_NoDup (ix : PhotoIndex) (now : datetime)
    (user_id : Z) (start_date end_date : date) (count : option Z)
    (l : list Image) :
  List.NoDup (images ix) ->
  select_representative_photos ix now user_id start_date end_date count = Ok l ->
  List.NoDup l.
Proof.
  intros Hn. unfold select_representative_photos.
  assert (Hp : List.NoDup (oldest_first (photos_in_period ix user_id start_date
                                                           end_date))).
  { eapply Permutation_NoDup; [apply sort_by_perm|].
    apply List.NoDup_filter, Hn. }
  destruct (_ <=? _).
  - intros H. injection H as <-. exact Hp.
  - apply advanced_photo_selection_NoDup, Hp.
Qed.

(** With no more eligible photos than the count, the selector returns the
    eligible photos, oldest first. *)
Lemma select_representative_photos_all (ix : PhotoIndex) (now : datetime)
    (user_id : Z) (start_date end_date : date) (count : option Z) :
  Z.of_nat (length (photos_in_period ix user_id start_date end_date))
  <= clamp_count count ->
  select_representative_photos ix now user_id start_date end_date count
  = Ok (oldest_first (photos_in_period ix user_id start_date end_date)).
Proof.
  intros H. unfold select_representative_photos.
  unfold oldest_first at 1. rewrite sort_by_length.
  unfold clamp_count in H. apply Z.leb_le in H. rewrite H. reflexivity.
Qed.
End SelectorDistinct.

(** C4, with the lower bound the code gives. For every photo index, user,
    period and requested count the selector returns a result (it raises
    nothing) of at most 20 photos, of at least 10 photos whenever at least
    10 photos of the user are dated in the period, and of as many as there
    are when there are fewer than 10. Every returned photo is one of the
    user's photos dated within [start_date, end_date]; no row of the image
    table is returned twice; and when no more photos are eligible than the
    count the selector works with (between 10 and 20), the result is the
    eligible photos, each of them. *)
Theorem selector_bounds (ix : PhotoIndex) (now : datetime) (user_id : Z)
    (start_date end_date : date) (count : option Z) :
  let eligible :=
    FlashbackReelService.photos_in_period ix user_id start_date end_date in
  exists l,
    FlashbackReelService.select_representative_photos ix now user_id start_date
      end_date count = Ok l
    /\ (length l <= 20)%nat
    /\ ((10 <= length eligible)%nat -> (10 <= length l)%nat)
    /\ ((length eligible < 10)%nat -> length l = length eligible)
    /\ List.Forall (in_range start_date end_date) l
    /\ (forall p, In p l -> In p eligible)
    /\ (List.NoDup (images ix) -> List.NoDup l)
    /\ (Z.of_nat (length eligible) <= clamp_count count ->
        Permutation l eligible).
Proof.
  intros eligible.
  destruct (select_representative_photos_spec ix now user_id start_date
              end_date count) as [l [Hl [Hlen Hin]]].
  assert (Hc : 10 <= clamp_count count <= 20).
  { unfold clamp_count, FlashbackReelService.min_photos_for_reel,
      FlashbackReelService.max_photos_per_reel. lia. }
  exists l. split; [exact Hl|]. fold eligible in Hlen, Hin.
  split; [lia|]. split; [lia|]. split; [lia|]. split.
  { apply List.Forall_forall. intros p Hp.
    apply (photos_in_period_in_range ix user_id), Hin, Hp. }
  split; [exact Hin|]. split.
  { intros Hn. apply (select_representative_photos_NoDup ix now user_id
                        start_date end_date count l Hn Hl). }
  intros Hle.
  rewrite (select_representative_photos_all ix now user_id start_date end_date
             count Hle) in Hl.
  injection Hl as <-. symmetry. apply sort_by_perm.
Qed.

(** C4 as stated fails: user 1 has three photos, all in the period; the
    three are min(10, 3) eligible photos, and the selector returns the three
    of them, fewer than 10. *)
Lemma selector_bounds_counterexample :
  ~ stated_selector_bounds Sample.three_photos Sample.now 1
      (mkDate 2023 1 1) (mkDate 2023 12 31) None.
Proof.
  unfold stated_selector_bounds. intros H.
  destruct H as [l [Hl [[Hlo _] _]]].
  - vm_compute. repeat constructor.
  - assert (Hlen : exists l',
      FlashbackReelService.select_representative_photos Sample.three_photos
        Sample.now 1 (mkDate 2023 1 1) (mkDate 2023 12 31) None = Ok l'
      /\ length l' = 3%nat).
    { eexists. split; [vm_compute; reflexivity | reflexivity]. }
    destruct Hlen as [l' [Hl' Hn]]. rewrite Hl in Hl'.
    injection Hl' as <-. lia.
Qed.

(** ** Reel requests *)

Lemma supported_theme_iff (theme : string) :
  existsb (String.eqb theme) FlashbackReelService.supported_themes = true
  <-> In theme FlashbackReelService.supported_themes.
Proof.
  rewrite existsb_exists. split.
  - intros [x [Hx He]]. apply String.eqb_eq in He. subst. exact Hx.
  - intros H. exists theme. split; [exact H | apply String.eqb_refl].
Qed.

(** C6. [create_reel_request] clamps the duration into [10, 300] (30 when
    none is supplied), keeps a supported theme and puts 'classic' for any
    other, raises the not-enough-photos [ValueError] whenever the user exists
    and the selection has fewer than 10 photos, and persists nothing when it
    raises; on success it appends one reel in status [pending] holding the
    selection, of 10 photos or more. *)
Theorem create_reel_request_spec (ix : PhotoIndex) (now : datetime)
    (rs : ReelStore) (user_id : Z) (title : string) (start_date end_date : date)
    (theme : string) (duration : option Z) (async_processing : bool) :
  exists photos,
    FlashbackReelService.select_representative_photos ix now user_id start_date
      end_date None = Ok photos
    /\ match FlashbackReelService.create_reel_request ix now rs user_id title
               start_date end_date theme duration async_processing with
       | (Ok reel, rs') =>
           reel_duration reel
           = Z.max 10 (Z.min (default FlashbackReelService.default_duration
                                      duration) 300)
           /\ 10 <= reel_duration reel <= 300
           /\ (In theme FlashbackReelService.supported_themes ->
               reel_theme reel = theme)
           /\ (~ In theme FlashbackReelService.supported_themes ->
               reel_theme reel = "classic"%string)
           /\ reel_status reel = pending
           /\ reel_photos reel = map img_id photos
           /\ reel_photo_count reel = Z.of_nat (length photos)
           /\ 10 <= reel_photo_count reel
           /\ reels rs' = reels rs ++ [reel]
       | (Raise e, rs') =>
           rs' = rs
           /\ (In user_id (users ix) ->
               e = ValueError "Not enough photos for reel"
               /\ (length photos < 10)%nat)
       end
    /\ (In user_id (users ix) -> (length photos < 10)%nat ->
        FlashbackReelService.create_reel_request ix now rs user_id title
          start_date end_date theme duration async_processing
        = (Raise (ValueError "Not enough photos for reel"), rs)).
Proof.
  destruct (select_representative_photos_spec ix now user_id start_date
              end_date None) as [photos [Hsel _]].
  exists photos. split; [exact Hsel|].
  unfold FlashbackReelService.create_reel_request, get_user.
  destruct (existsb (Z.eqb user_id) (users ix)) eqn:Eu.
  - rewrite Hsel. unfold FlashbackReelService.min_photos_for_reel.
    destruct (Z.ltb_spec (Z.of_nat (length photos)) 10) as [Hlt|Hge].
    + split; [|reflexivity]. split; [reflexivity|]. intros _.
      split; [reflexivity | lia].
    + split; [|intros _ Hn; lia].
      destruct async_processing; cbn -[existsb Z.max Z.min];
        (split; [reflexivity|]; split; [lia|]; split;
         [intros Hin; apply supported_theme_iff in Hin; rewrite Hin; reflexivity|];
         split;
         [intros Hin;
          destruct (existsb (String.eqb theme)
                      FlashbackReelService.supported_themes) eqn:E;
          [apply supported_theme_iff in E; contradiction | reflexivity]|];
         repeat split; lia).
  - split.
    + split; [reflexivity|]. intros Hin. exfalso.
      assert (existsb (Z.eqb user_id) (users ix) = true); [|congruence].
      apply existsb_exists. exists user_id. split; [exact Hin | apply Z.eqb_refl].
    + intros Hin. exfalso.
      assert (existsb (Z.eqb user_id) (users ix) = true); [|congruence].
      apply existsb_exists. exists user_id. split; [exact Hin | apply Z.eqb_refl].
Qed.

(** ** Discovery *)

Section Discovery.
Import MemoryEngine.
Variable ix : PhotoIndex.


Lemma discover_hit (now : datetime) (st : MemoryStore) (user_id : Z) (d : date)
    (cached : list Z) :
  cache st !! cache_key user_id d = Some cached ->
  discover_daily_memories ix now st user_id (Some d)
  = (Ok (hit_result st cached), st).
Proof.
  intros H. unfold discover_daily_memories. simpl default. rewrite H.
  destruct cached; reflexivity.
Qed.

Lemma next_id_fresh (ids : list Z) (x : Z) : In x ids -> x < next_id ids.
Proof.
  unfold next_id. induction ids as [|y ids IH]; simpl; [tauto|].
  intros [->|H]; [lia|]. specialize (IH H). lia.
Qed.

Lemma filter_by_id_none (l : list Memory) (id : Z) :
  (forall m, In m l -> mem_id m <> id) ->
  List.filter (fun m => existsb (Z.eqb (mem_id m)) [id]) l = [].
Proof.
  induction l as [|m l IH]; intros H; simpl; [reflexivity|].
  destruct (Z.eqb_spec (mem_id m) id) as [E|E]; simpl.
  - exfalso. apply (H m); [left; reflexivity | exact E].
  - apply IH. intros m' Hm'. apply H. right. exact Hm'.
Qed.

Lemma filter_by_id_one (l : list Memory) (m : Memory) :
  List.NoDup (map mem_id l) -> In m l ->
  List.filter (fun x => existsb (Z.eqb (mem_id x)) [mem_id m]) l = [m].
Proof.
  induction l as [|x l IH]; simpl; intros Hn Hin; [contradiction|].
  inversion Hn as [|? ? Hx Hn']; subst.
  destruct Hin as [->|Hin].
  - rewrite Z.eqb_refl. simpl. f_equal. apply filter_by_id_none.
    intros m' Hm' E. apply Hx. rewrite <- E. apply in_map, Hm'.
  - destruct (Z.eqb_spec (mem_id x) (mem_id m)) as [E|E]; simpl.
    + exfalso. apply Hx. rewrite E. apply in_map, Hin.
    + apply IH; assumption.
Qed.

Lemma head_filter_Some {A : Type} (f : A -> bool) (l : list A) (x : A) :
  head (List.filter f l) = Some x -> In x l /\ f x = true.
Proof.
  intros H. apply filter_In.
  destruct (List.filter f l) as [|y ys]; [discriminate|].
  injection H as ->. left. reflexivity.
Qed.

Lemma head_filter_None {A : Type} (f : A -> bool) (l : list A) :
  head (List.filter f l) = None -> List.filter f l = [].
Proof. destruct (List.filter f l); [reflexivity | discriminate]. Qed.


Lemma discover_miss (now : datetime) (st : MemoryStore) (user_id : Z) (d : date) :
  cache st !! cache_key user_id d = None ->
  miss_outcome ix now st user_id d
    (discover_daily_memories ix now st user_id (Some d)).
Proof.
  intros Hc. unfold discover_daily_memories, memory_rows. simpl default.
  rewrite Hc. unfold get_user.
  destruct (existsb (Z.eqb user_id) (users ix)) eqn:Eu.
  2:{ apply miss_raises. intros now'. unfold discover_daily_memories.
      simpl default. rewrite Hc. unfold get_user. rewrite Eu. reflexivity. }
  destruct (head (List.filter _ (memories st))) as [m|] eqn:Eh.
  { apply miss_existing. apply head_filter_Some in Eh. apply Eh. }
  pose proof (head_filter_None _ _ Eh) as Hrows.
  destruct (match find_photos_by_date ix user_id d with
            | [] => find_photos_with_date_expansion ix user_id d
            | _ :: _ => Ok (find_photos_by_date ix user_id d)
            end) as [photos|e] eqn:Ep.
  - destruct photos as [|p photos]; [apply miss_nothing, Hrows|].
    destruct (score_photos_significance ix now (p :: photos)) as [|sp sps];
      [apply miss_nothing, Hrows|].
    unfold create_memory. cbv zeta. cbn [mem_id].
    apply (miss_created ix now st user_id d
             (mkMemory (next_id (map mem_id (memories st))) user_id d _ now
                       None 0)); try reflexivity; assumption.
  - apply miss_raises. intros now'. unfold discover_daily_memories.
    simpl default. rewrite Hc. unfold get_user. rewrite Eu, Eh, Ep.
    reflexivity.
Qed.

End Discovery.

(** C1. Discovery is idempotent: on a store whose memory ids are distinct
    (the primary key), the second of two calls for the same user and target
    date ends as the first did, with the same memories (same ids) or the same
    exception; it leaves the memories and their photo links as the first call
    left them, so each memory has the same photo set both times; and the two
    calls together leave at most one [Memory] row for the pair unless more
    were there before. *)
Theorem discover_idempotent (ix : PhotoIndex) (now1 now2 : datetime)
    (st : MemoryStore) (user_id : Z) (d : date) :
  List.NoDup (map mem_id (memories st)) ->
  let c1 := MemoryEngine.discover_daily_memories ix now1 st user_id (Some d) in
  let c2 :=
    MemoryEngine.discover_daily_memories ix now2 (snd c1) user_id (Some d) in
  fst c2 = fst c1
  /\ memories (snd c2) = memories (snd c1)
  /\ (forall m, MemoryEngine.memory_photo_set (snd c2) m
                = MemoryEngine.memory_photo_set (snd c1) m)
  /\ (length (MemoryEngine.memory_rows (snd c2) user_id d)
      <= Nat.max 1 (length (MemoryEngine.memory_rows st user_id d)))%nat.
Proof.
  intros Hn c1 c2. subst c2 c1.
  destruct (cache st !! cache_key user_id d) as [cached|] eqn:Ec.
  - rewrite (discover_hit ix now1 st user_id d cached Ec). simpl snd.
    rewrite (discover_hit ix now2 st user_id d cached Ec). simpl.
    repeat split; lia.
  - pose proof (discover_miss ix now1 st user_id d Ec) as H.
    destruct H as [e He | m Hm | Hrows | m rows Hrows Hid Hu Hd _].
    + simpl snd. rewrite (He now2). simpl. repeat split; lia.
    + simpl snd.
      rewrite (discover_hit ix now2 _ user_id d [mem_id m])
        by (simpl; apply lookup_insert_eq).
      cbn [fst snd hit_result memories cache_set].
      rewrite (filter_by_id_one _ m Hn Hm).
      unfold MemoryEngine.memory_rows. simpl.
      repeat split; lia.
    + simpl snd.
      rewrite (discover_hit ix now2 _ user_id d [])
        by (simpl; apply lookup_insert_eq).
      unfold MemoryEngine.memory_rows in *. simpl. rewrite Hrows. simpl.
      repeat split; lia.
    + simpl snd.
      rewrite (discover_hit ix now2 _ user_id d [mem_id m])
        by (simpl; apply lookup_insert_eq).
      unfold MemoryEngine.memory_rows in *.
      cbn [fst snd hit_result memories cache_set].
      rewrite !List.filter_app, Hrows.
      rewrite (filter_by_id_none (memories st) (mem_id m)).
      * cbn [List.filter existsb]. rewrite Z.eqb_refl, Hu, Hd, Z.eqb_refl.
        assert (Hdd : date_eqb d d = true) by (apply date_eqb_eq; reflexivity).
        rewrite Hdd. simpl. repeat split; lia.
      * intros m' Hm' E.
        pose proof (next_id_fresh (map mem_id (memories st)) (mem_id m')
                      (in_map mem_id _ _ Hm')). lia.
Qed.

Lemma discover_idempotent_witness :
  let c1 :=
    MemoryEngine.discover_daily_memories Sample.one_photo Sample.now
      Sample.empty_store 1 (Some (mkDate 2024 1 5)) in
  let c2 :=
    MemoryEngine.discover_daily_memories Sample.one_photo Sample.now (snd c1)
      1 (Some (mkDate 2024 1 5)) in
  fst c2 = fst c1
  /\ memories (snd c2) = memories (snd c1)
  /\ (forall m, MemoryEngine.memory_photo_set (snd c2) m
                = MemoryEngine.memory_photo_set (snd c1) m)
  /\ (length (MemoryEngine.memory_rows (snd c2) 1 (mkDate 2024 1 5))
      <= Nat.max 1 (length (MemoryEngine.memory_rows Sample.empty_store 1
                              (mkDate 2024 1 5))))%nat.
Proof.
  apply (discover_idempotent Sample.one_photo Sample.now Sample.now
           Sample.empty_store 1 (mkDate 2024 1 5)).
  simpl. constructor.
Defined.

(** The cache is an optimisation: when the first call missed the cache and
    its entry is invalidated before the second call, the second call still
    ends as the first did. *)
Lemma cold_cache_discover_again (ix : PhotoIndex) (now : datetime)
    (st : MemoryStore) (user_id : Z) (d : date) :
  cache st !! cache_key user_id d = None ->
  let c1 := MemoryEngine.discover_daily_memories ix now st user_id (Some d) in
  let st1 := MemoryEngine.invalidate_memory_cache now (snd c1) user_id (Some d) in
  fst (MemoryEngine.discover_daily_memories ix now st1 user_id (Some d)) = fst c1.
Proof.
  intros Ec c1 st1. subst st1 c1.
  unfold MemoryEngine.invalidate_memory_cache. simpl default.
  assert (Hsame : forall v,
    cache_delete (cache_set st (cache_key user_id d) v) (cache_key user_id d)
    = st).
  { intros v. unfold cache_delete, cache_set. simpl.
    rewrite delete_insert_id by exact Ec. destruct st; reflexivity. }
  pose proof (discover_miss ix now st user_id d Ec) as H.
  remember (MemoryEngine.discover_daily_memories ix now st user_id (Some d))
    as c1 eqn:E1.
  destruct H as [e He | m Hm | Hrows | m rows Hrows Hid Hu Hd Hex].
  - simpl snd. unfold cache_delete. rewrite delete_id by exact Ec.
    replace (mkMemoryStore (memories st) (memory_photos st) (cache st))
      with st by (destruct st; reflexivity).
    rewrite (He now). reflexivity.
  - simpl snd. rewrite Hsame, <- E1. reflexivity.
  - simpl snd. rewrite Hsame, <- E1. reflexivity.
  - simpl snd. unfold cache_delete, cache_set. simpl.
    rewrite delete_insert_id by exact Ec.
    unfold MemoryEngine.discover_daily_memories. simpl default.
    cbn [cache memories]. rewrite Ec. unfold get_user. rewrite Hex.
    unfold MemoryEngine.memory_rows in Hrows.
    rewrite List.filter_app, Hrows. cbn [List.filter app].
    rewrite Hu, Hd, Z.eqb_refl.
    assert (Hdd : date_eqb d d = true) by (apply date_eqb_eq; reflexivity).
    rewrite Hdd. reflexivity.
Qed.

(** A request leaves no reel in [processing]: the stores that requests build
    from the empty one are settled, whatever jobs, cancels and retries ran in
    between. *)
Lemma create_reel_request_settled (ix : PhotoIndex) (now : datetime)
    (rs : ReelStore) (user_id : Z) (title : string) (start_date end_date : date)
    (theme : string) (duration : option Z) (async_processing : bool) :
  settled rs ->
  settled (snd (FlashbackReelService.create_reel_request ix now rs user_id title
                  start_date end_date theme duration async_processing)).
Proof.
  intros [Hi Ht]. unfold FlashbackReelService.create_reel_request.
  destruct (get_user ix user_id); [|split; assumption].
  destruct (FlashbackReelService.select_representative_photos _ _ _ _ _ _)
    as [photos|e]; [|split; assumption].
  destruct (_ <? _); [split; assumption|].
  destruct async_processing; split; cbn [snd reels transitions
    FlashbackReelService.start_reel_generation]; try exact Ht;
    (apply List.Forall_app; split; [exact Hi|]);
    repeat constructor; discriminate.
Qed.

(** * Further properties *)

(** ** Discovery, pass by pass *)

(** X1. The exact pass returns at most 50 photos, newest first; each is a
    row of the user taken on the target's month and day in a strictly earlier
    year. *)
Theorem find_photos_by_date_spec (ix : PhotoIndex) (user : Z) (target : date) :
  (length (MemoryEngine.find_photos_by_date ix user target) <= 50)%nat
  /\ ordered (fun a b => MemoryEngine.taken_leb b a)
             (MemoryEngine.find_photos_by_date ix user target)
  /\ forall p, In p (MemoryEngine.find_photos_by_date ix user target) ->
       In p (images ix) /\ img_user p = user
       /\ exists t, img_taken_at p = Some t
                    /\ month (dt_date t) = month target
                    /\ day (dt_date t) = day target
                    /\ year (dt_date t) < year target.
Proof.
  unfold MemoryEngine.find_photos_by_date, MemoryEngine.newest_first.
  split; [|split].
  - rewrite length_firstn. lia.
  - apply ordered_firstn, sort_by_ordered.
    intros a b. apply taken_leb_total.
  - intros p Hp. apply In_firstn in Hp. apply sort_by_In in Hp.
    apply filter_In in Hp. destruct Hp as [Hin Hf].
    apply andb_true_iff in Hf. destruct Hf as [Hu Hd].
    apply Z.eqb_eq in Hu. split; [exact Hin|]. split; [exact Hu|].
    unfold MemoryEngine.on_calendar_day in Hd.
    destruct (img_taken_at p) as [t|]; [|discriminate].
    apply andb_true_iff in Hd. destruct Hd as [Hd Hy].
    apply andb_true_iff in Hd. destruct Hd as [Hm Hd].
    exists t. rewrite Z.eqb_eq in Hm, Hd. rewrite Z.ltb_lt in Hy. auto.
Qed.

(** X3. The ranking keeps at most 20 photos, in non-increasing order of
    score; each kept photo is an input photo, carries the score the scorer
    gives it, and meets the threshold of 1.0. *)
Theorem scored_photos_ranked (ix : PhotoIndex) (now : datetime)
    (photos : list Image) :
  (length (MemoryEngine.score_photos_significance ix now photos) <= 20)%nat
  /\ ordered MemoryEngine.by_score_desc
             (MemoryEngine.score_photos_significance ix now photos)
  /\ forall ps, In ps (MemoryEngine.score_photos_significance ix now photos) ->
       In (fst ps) photos
       /\ snd ps = score_photo_significance ix now (fst ps)
       /\ (1 <= snd ps)%Q.
Proof.
  unfold MemoryEngine.score_photos_significance.
  split; [|split].
  - rewrite length_firstn. unfold MemoryEngine.max_photos_per_memory. lia.
  - apply ordered_firstn, sort_by_ordered. apply by_score_desc_total.
  - intros ps Hps. apply In_firstn in Hps. apply sort_by_In in Hps.
    apply filter_In in Hps. destruct Hps as [Hin Hthr].
    apply in_map_iff in Hin. destruct Hin as [p [<- Hp]]. simpl in *.
    split; [exact Hp|]. split; [reflexivity|].
    apply Qle_bool_iff in Hthr. exact Hthr.
Qed.

Section ExpansionPass.
Import MemoryEngine.
Variable ix : PhotoIndex.
Variable user : Z.
Variable target : date.

Lemma earlier_photo_weaken (lo lo' : Z) (p : Image) :
  lo' <= lo ->
  earlier_photo ix user target lo p -> earlier_photo ix user target lo' p.
Proof.
  intros Hle (Hin & Hu & t & Ht & Hy). repeat split; try assumption.
  exists t. split; [exact Ht | lia].
Qed.

Lemma replace_year_Ok (d d' : date) (y : Z) :
  replace_year d y = Ok d' -> year d' = y.
Proof.
  unfold replace_year. destruct (negb _); [discriminate|].
  destruct (check_date_fields _ _ _); [|discriminate].
  intros H. injection H as <-. reflexivity.
Qed.

Lemma date_leb_year (a b : date) : date_leb a b = true -> year a <= year b.
Proof.
  unfold date_leb. intros H. apply orb_true_iff in H. destruct H as [H|H].
  - apply Z.ltb_lt in H. lia.
  - apply andb_true_iff in H. destruct H as [H _]. apply Z.eqb_eq in H. lia.
Qed.

Lemma year_window (lo hi : date) (y : Z) (p : Image) :
  year lo = y -> year hi = y ->
  In p (List.filter (fun p => (img_user p =? user) && taken_between lo hi p)
                    (images ix)) ->
  In p (images ix) /\ img_user p = user
  /\ exists t, img_taken_at p = Some t /\ year (dt_date t) = y.
Proof.
  intros Hlo Hhi Hp. apply filter_In in Hp. destruct Hp as [Hin Hf].
  apply andb_true_iff in Hf. destruct Hf as [Hu Hb]. apply Z.eqb_eq in Hu.
  split; [exact Hin|]. split; [exact Hu|].
  unfold taken_between in Hb. destruct (img_taken_at p) as [t|]; [|discriminate].
  apply andb_true_iff in Hb. destruct Hb as [H1 H2].
  apply date_leb_year in H1. apply date_leb_year in H2.
  exists t. split; [reflexivity | lia].
Qed.

Lemma NoDup_firstn {A : Type} (n : nat) (l : list A) :
  List.NoDup l -> List.NoDup (firstn n l).
Proof.
  intros H. rewrite <- (firstn_skipn n l) in H.
  apply List.NoDup_app_remove_r in H. exact H.
Qed.

Lemma expansion_loop_spec (start_date end_date : date) (n : nat) :
  forall (a : Z) (photos l : list Image),
    1 <= a ->
    (length photos <= 29)%nat ->
    List.NoDup (images ix) ->
    List.NoDup photos ->
    List.Forall (earlier_photo ix user target (year target - a + 1)) photos ->
    expansion_loop ix user target start_date end_date (seqZ a (Z.of_nat n))
                   photos = Ok l ->
    (length l <= 39)%nat
    /\ List.NoDup l
    /\ List.Forall
         (earlier_photo ix user target (year target - (a + Z.of_nat n) + 1)) l.
Proof.
  induction n as [|n IH]; intros a photos l Ha Hlen Hnd Hnp Hall Hrun.
  - simpl in Hrun. injection Hrun as <-. split; [lia|]. split; [exact Hnp|].
    eapply List.Forall_impl; [|exact Hall].
    intros p. apply earlier_photo_weaken. lia.
  - rewrite seqZ_cons in Hrun by lia.
    replace (Z.pred (Z.of_nat (S n))) with (Z.of_nat n) in Hrun by lia.
    cbn [expansion_loop] in Hrun.
    destruct (replace_year start_date (year target - a)) as [ys|e] eqn:Es;
      [|discriminate].
    destruct (replace_year end_date (year target - a)) as [ye|e] eqn:Ee;
      [|discriminate].
    cbn [mbind Result_bind] in Hrun.
    apply replace_year_Ok in Es. apply replace_year_Ok in Ee.
    set (found := firstn 10 (newest_first
           (List.filter (fun p => (img_user p =? user) && taken_between ys ye p)
                        (images ix)))) in *.
    assert (Hfound : forall p, In p found ->
              In p (images ix) /\ img_user p = user
              /\ exists t, img_taken_at p = Some t
                           /\ year (dt_date t) = year target - a).
    { intros p Hp. apply In_firstn in Hp. apply sort_by_In in Hp.
      apply (year_window ys ye); assumption. }
    assert (Hfl : (length found <= 10)%nat).
    { unfold found. rewrite length_firstn. lia. }
    assert (Hfn : List.NoDup found).
    { apply NoDup_firstn.
      eapply Permutation_NoDup; [apply sort_by_perm|].
      apply List.NoDup_filter, Hnd. }
    assert (Hnew : List.NoDup (photos ++ found)).
    { apply List.NoDup_app; [exact Hnp | exact Hfn|].
      intros p Hp Hq. rewrite List.Forall_forall in Hall.
      destruct (Hall p Hp) as (_ & _ & t & Ht & Hy).
      destruct (Hfound p Hq) as (_ & _ & t' & Ht' & Hy').
      rewrite Ht in Ht'. injection Ht' as <-. lia. }
    assert (Hall' : List.Forall (earlier_photo ix user target (year target - a))
                                (photos ++ found)).
    { apply List.Forall_app. split.
      - eapply List.Forall_impl; [|exact Hall].
        intros p. apply earlier_photo_weaken. lia.
      - apply List.Forall_forall. intros p Hp.
        destruct (Hfound p Hp) as (Hin & Hu & t & Ht & Hy).
        repeat split; try assumption. exists t. split; [exact Ht | lia]. }
    destruct (Nat.leb_spec 30 (length (photos ++ found))) as [Hfull|Hmore].
    + injection Hrun as <-. rewrite length_app. split; [lia|].
      split; [exact Hnew|].
      eapply List.Forall_impl; [|exact Hall'].
      intros p. apply earlier_photo_weaken. lia.
    + destruct (IH (Z.succ a) (photos ++ found) l) as (H1 & H2 & H3);
        try assumption; try lia.
      * eapply List.Forall_impl; [|exact Hall'].
        intros p. apply earlier_photo_weaken. lia.
      * split; [exact H1|]. split; [exact H2|].
        eapply List.Forall_impl; [|exact H3].
        intros p. apply earlier_photo_weaken. lia.
Qed.

End ExpansionPass.

(** X2. When the expanded pass returns, it returns at most 39 photos, each
    a row of the user taken in one of the 9 years before the target's; no row
    appears twice when the image table holds no row twice. *)
Theorem expansion_pass_spec (ix : PhotoIndex) (user : Z) (target : date)
    (l : list Image) :
  List.NoDup (images ix) ->
  MemoryEngine.find_photos_with_date_expansion ix user target = Ok l ->
  (length l <= 39)%nat
  /\ List.NoDup l
  /\ forall p, In p l ->
       In p (images ix) /\ img_user p = user
       /\ exists t, img_taken_at p = Some t
                    /\ year target - 9 <= year (dt_date t) <= year target - 1.
Proof.
  intros Hnd Hrun. unfold MemoryEngine.find_photos_with_date_expansion in Hrun.
  destruct (add_days target (- MemoryEngine.date_expansion_days)) as [sd|e];
    [|discriminate].
  destruct (add_days target MemoryEngine.date_expansion_days) as [ed|e];
    [|discriminate].
  cbn [mbind Result_bind] in Hrun.
  assert (Hloop : MemoryEngine.expansion_loop ix user target sd ed
                    (seqZ 1 (Z.of_nat 9)) [] = Ok l) by exact Hrun.
  destruct (expansion_loop_spec ix user target sd ed 9 1 [] l
              ltac:(lia) ltac:(simpl; lia) Hnd (List.NoDup_nil _)
              (List.Forall_nil _) Hloop)
    as (H1 & H2 & H3).
  split; [exact H1|]. split; [exact H2|].
  intros p Hp. rewrite List.Forall_forall in H3.
  destruct (H3 p Hp) as (Hin & Hu & t & Ht & Hy).
  repeat split; try assumption. exists t. split; [exact Ht | lia].
Qed.

Lemma expansion_pass_spec_witness :
  exists l,
    MemoryEngine.find_photos_with_date_expansion Sample.one_photo 1
      (mkDate 2024 1 9) = Ok l
    /\ (length l <= 39)%nat /\ List.NoDup l.
Proof.
  eexists. split; [vm_compute; reflexivity|].
  assert (Hnd : List.NoDup (images Sample.one_photo))
    by (repeat constructor; intros []).
  assert (Hrun : MemoryEngine.find_photos_with_date_expansion Sample.one_photo 1
                   (mkDate 2024 1 9) = Ok [Sample.photo 1 2023 1 5])
    by (vm_compute; reflexivity).
  destruct (expansion_pass_spec _ _ _ _ Hnd Hrun) as (H1 & H2 & _).
  split; assumption.
Defined.

(** X4. Discovery touches the cache only at its own key: it leaves the
    store as it was on a cache hit and when it raises (an exception is never
    cached), and on a miss that returns it stores exactly the ids it returns,
    the empty list included. *)
Theorem discover_cache_effect (ix : PhotoIndex) (now : datetime)
    (st : MemoryStore) (user_id : Z) (d : date) :
  let c := MemoryEngine.discover_daily_memories ix now st user_id (Some d) in
  (forall e, fst c = Raise e -> snd c = st)
  /\ (forall cached, cache st !! cache_key user_id d = Some cached ->
                     snd c = st)
  /\ (forall k, k <> cache_key user_id d ->
                cache (snd c) !! k = cache st !! k)
  /\ (forall ms, cache st !! cache_key user_id d = None -> fst c = Ok ms ->
                 cache (snd c) !! cache_key user_id d = Some (map mem_id ms)).
Proof.
  intros c. subst c.
  destruct (cache st !! cache_key user_id d) as [cached|] eqn:Ec.
  - rewrite (discover_hit ix now st user_id d cached Ec). simpl.
    repeat split; try reflexivity; intros; discriminate.
  - pose proof (discover_miss ix now st user_id d Ec) as H.
    destruct H as [e He | m Hm | Hrows | m rows Hrows Hid Hu Hd Hex]; simpl.
    + repeat split; try reflexivity; intros; discriminate.
    + repeat split; try (intros; discriminate).
      * intros k Hk. apply lookup_insert_ne. congruence.
      * intros ms _ H. injection H as <-. apply lookup_insert_eq.
    + repeat split; try (intros; discriminate).
      * intros k Hk. apply lookup_insert_ne. congruence.
      * intros ms _ H. injection H as <-. apply lookup_insert_eq.
    + repeat split; try (intros; discriminate).
      * intros k Hk. apply lookup_insert_ne. congruence.
      * intros ms _ H. injection H as <-. apply lookup_insert_eq.
Qed.

Section NewMemory.
Import MemoryEngine.

Lemma NoDup_map_filter {A B : Type} (f : A -> B) (g : A -> bool) (l : list A) :
  List.NoDup (map f l) -> List.NoDup (map f (List.filter g l)).
Proof.
  induction l as [|x l IH]; simpl; intros H; [constructor|].
  inversion H as [|? ? Hx Hl]; subst.
  destruct (g x); simpl; [|apply IH, Hl].
  constructor; [|apply IH, Hl].
  intros Hin. apply Hx. apply in_map_iff in Hin.
  destruct Hin as [y [Hy Hin]]. apply filter_In in Hin.
  rewrite <- Hy. apply in_map, Hin.
Qed.

Lemma NoDup_map_inj_on {A B : Type} (f : A -> B) (l : list A) (x y : A) :
  List.NoDup (map f l) -> In x l -> In y l -> f x = f y -> x = y.
Proof.
  induction l as [|z l IH]; simpl; intros H Hx Hy E; [contradiction|].
  inversion H as [|? ? Hz Hl]; subst.
  destruct Hx as [->|Hx], Hy as [->|Hy].
  - reflexivity.
  - exfalso. apply Hz. rewrite E. apply in_map, Hy.
  - exfalso. apply Hz. rewrite <- E. apply in_map, Hx.
  - apply IH; assumption.
Qed.

Lemma NoDup_map_incl {A B : Type} (f : A -> B) (big l : list A) :
  List.NoDup (map f big) -> List.NoDup l -> (forall x, In x l -> In x big) ->
  List.NoDup (map f l).
Proof.
  intros Hbig Hl. induction Hl as [|x l Hx Hl IH]; simpl; intros Hin;
    [constructor|].
  constructor.
  - intros H. apply in_map_iff in H. destruct H as [y [Hy Hyl]].
    assert (y = x).
    { apply (NoDup_map_inj_on f big); [exact Hbig | | | exact Hy].
      - apply Hin. right. exact Hyl.
      - apply Hin. left. reflexivity. }
    subst. contradiction.
  - apply IH. intros y Hy. apply Hin. right. exact Hy.
Qed.

Lemma memory_photo_rows_spec (memory : Z) (scored : list (Image * Q)) :
  forall order,
    map mp_photo (memory_photo_rows memory order scored)
    = map (fun ps => img_id (fst ps)) scored
    /\ List.Forall (fun r => mp_memory r = memory)
                   (memory_photo_rows memory order scored)
    /\ map mp_order (memory_photo_rows memory order scored)
       = seqZ order (Z.of_nat (length scored)).
Proof.
  induction scored as [|[p s] scored IH]; intros order.
  - repeat split. constructor.
  - destruct (IH (order + 1)) as (H1 & H2 & H3).
    cbn [memory_photo_rows map mp_photo mp_order fst length].
    rewrite H1, H3. split; [reflexivity|]. split.
    + constructor; [reflexivity | exact H2].
    + rewrite (seqZ_cons order) by lia. f_equal. f_equal; lia.
Qed.

Lemma scored_ids_NoDup (ix : PhotoIndex) (now : datetime) (photos : list Image) :
  List.NoDup (map img_id photos) ->
  List.NoDup (map (fun ps => img_id (fst ps))
                  (score_photos_significance ix now photos)).
Proof.
  intros H. unfold score_photos_significance.
  rewrite <- firstn_map. apply NoDup_firstn.
  eapply Permutation_NoDup;
    [apply Permutation_map, sort_by_perm|].
  apply NoDup_map_filter. rewrite map_map. simpl. exact H.
Qed.

(** The photos either pass hands to the ranking. *)
Lemma gathered_photos (ix : PhotoIndex) (user : Z) (d : date)
    (photos : list Image) :
  List.NoDup (map img_id (images ix)) ->
  match find_photos_by_date ix user d with
  | [] => find_photos_with_date_expansion ix user d
  | _ :: _ => Ok (find_photos_by_date ix user d)
  end = Ok photos ->
  List.NoDup (map img_id photos)
  /\ forall p, In p photos -> In p (images ix) /\ img_user p = user.
Proof.
  intros Hids Hp.
  assert (Hnd : List.NoDup (images ix)) by (eapply NoDup_map_inv, Hids).
  destruct (find_photos_by_date ix user d) as [|p0 ps] eqn:E.
  - unfold find_photos_with_date_expansion in Hp.
    destruct (add_days d (- date_expansion_days)) as [sd|e]; [|discriminate].
    destruct (add_days d date_expansion_days) as [ed|e]; [|discriminate].
    cbn [mbind Result_bind] in Hp.
    assert (Hloop : expansion_loop ix user d sd ed (seqZ 1 (Z.of_nat 9)) []
                    = Ok photos) by exact Hp.
    destruct (expansion_loop_spec ix user d sd ed 9 1 [] photos
                ltac:(lia) ltac:(simpl; lia) Hnd (List.NoDup_nil _)
                (List.Forall_nil _) Hloop) as (_ & H2 & H3).
    rewrite List.Forall_forall in H3.
    split.
    + apply (NoDup_map_incl img_id (images ix)); [exact Hids | exact H2|].
      intros p Hin. apply (H3 p Hin).
    + intros p Hin. destruct (H3 p Hin) as (Ha & Hb & _). auto.
  - injection Hp as <-. rewrite <- E.
    assert (H3 : forall p, In p (find_photos_by_date ix user d) ->
                           In p (images ix) /\ img_user p = user).
    { intros p Hin. unfold find_photos_by_date in Hin.
      apply In_firstn in Hin. apply sort_by_In in Hin.
      apply filter_In in Hin. destruct Hin as [Ha Hb].
      apply andb_true_iff in Hb. destruct Hb as [Hb _].
      apply Z.eqb_eq in Hb. auto. }
    split; [|exact H3].
    apply (NoDup_map_incl img_id (images ix)); [exact Hids | |].
    + unfold find_photos_by_date, newest_first. apply NoDup_firstn.
      eapply Permutation_NoDup; [apply sort_by_perm|].
      apply List.NoDup_filter, Hnd.
    + intros p Hin. apply H3, Hin.
Qed.

End NewMemory.

(** [_create_memory] appends the memory and links it to the scored photos,
    in their order. *)
Lemma create_memory_links (now : datetime) (st st0 : MemoryStore) (user : Z)
    (d : date) (scored : list (Image * Q)) (m : Memory) :
  List.Forall (fun r => In (mp_memory r) (map mem_id (memories st)))
              (memory_photos st) ->
  MemoryEngine.create_memory now st user d scored = (m, st0) ->
  mem_user m = user /\ mem_target_date m = d
  /\ memories st0 = memories st ++ [m]
  /\ MemoryEngine.memory_photo_set st0 m
     = map (fun ps => img_id (fst ps)) scored
  /\ map mp_order
         (List.filter (fun r => mp_memory r =? mem_id m) (memory_photos st0))
     = seqZ 0 (Z.of_nat (length scored)).
Proof.
  intros Href Hrun. unfold MemoryEngine.create_memory in Hrun.
  cbv zeta in Hrun. cbn [mem_id] in Hrun. injection Hrun as <- <-.
  destruct (memory_photo_rows_spec (next_id (map mem_id (memories st)))
              scored 0) as (Hph & Hmem & Hord).
  assert (Hold : List.filter
                   (fun r => mp_memory r =? next_id (map mem_id (memories st)))
                   (memory_photos st) = []).
  { clear -Href. induction Href as [|r l Hr Hl IH]; simpl; [reflexivity|].
    pose proof (next_id_fresh _ _ Hr) as Hlt.
    destruct (Z.eqb_spec (mp_memory r) (next_id (map mem_id (memories st))));
      [lia | exact IH]. }
  assert (Hnew :
    List.filter (fun r => mp_memory r =? next_id (map mem_id (memories st)))
      (MemoryEngine.memory_photo_rows (next_id (map mem_id (memories st))) 0
                                      scored)
    = MemoryEngine.memory_photo_rows (next_id (map mem_id (memories st))) 0
                                     scored).
  { apply filter_all. eapply List.Forall_impl; [|exact Hmem].
    intros r Hr. simpl in Hr. rewrite Hr. apply Z.eqb_refl. }
  unfold MemoryEngine.memory_photo_set.
  cbn [mem_id mem_user mem_target_date memories memory_photos].
  rewrite List.filter_app, Hold, Hnew. cbn [app].
  rewrite Hph, Hord. repeat split; reflexivity.
Qed.

(** X5. A memory that discovery creates (cache miss, no stored row for the
    pair) is the user's memory for the target date, appended to the table;
    when image ids are distinct and every stored link points to a stored
    memory, it gets between 1 and 20 photo links, numbered 0, 1, 2, ... in
    order, no photo linked twice, every linked photo a row of the user. *)
Theorem discover_new_memory (ix : PhotoIndex) (now : datetime)
    (st st' : MemoryStore) (user_id : Z) (d : date) (m : Memory) :
  List.NoDup (map img_id (images ix)) ->
  List.Forall (fun r => In (mp_memory r) (map mem_id (memories st)))
              (memory_photos st) ->
  cache st !! cache_key user_id d = None ->
  MemoryEngine.memory_rows st user_id d = [] ->
  MemoryEngine.discover_daily_memories ix now st user_id (Some d)
  = (Ok [m], st') ->
  mem_user m = user_id /\ mem_target_date m = d
  /\ memories st' = memories st ++ [m]
  /\ (1 <= length (MemoryEngine.memory_photo_set st' m) <= 20)%nat
  /\ List.NoDup (MemoryEngine.memory_photo_set st' m)
  /\ (forall id, In id (MemoryEngine.memory_photo_set st' m) ->
        exists p, In p (images ix) /\ img_id p = id /\ img_user p = user_id)
  /\ map mp_order
         (List.filter (fun r => mp_memory r =? mem_id m) (memory_photos st'))
     = seqZ 0 (Z.of_nat (length (MemoryEngine.memory_photo_set st' m))).
Proof.
  intros Hids Href Hc Hrows Hrun.
  unfold MemoryEngine.discover_daily_memories in Hrun. simpl default in Hrun.
  rewrite Hc in Hrun. unfold get_user in Hrun.
  destruct (existsb (Z.eqb user_id) (users ix)); [|discriminate].
  unfold MemoryEngine.memory_rows in Hrows. rewrite Hrows in Hrun.
  cbn [head] in Hrun.
  destruct (match MemoryEngine.find_photos_by_date ix user_id d with
            | [] => MemoryEngine.find_photos_with_date_expansion ix user_id d
            | _ :: _ => Ok (MemoryEngine.find_photos_by_date ix user_id d)
            end) as [photos|e] eqn:Ep; [|discriminate].
  destruct (gathered_photos ix user_id d photos Hids Ep) as [Hnd Hmine].
  destruct photos as [|p0 photos]; [discriminate|].
  pose proof (scored_ids_NoDup ix now (p0 :: photos) Hnd) as Hsn.
  assert (Hsl : (length (MemoryEngine.score_photos_significance ix now
                           (p0 :: photos)) <= 20)%nat).
  { unfold MemoryEngine.score_photos_significance. rewrite length_firstn.
    unfold MemoryEngine.max_photos_per_memory. lia. }
  assert (Hsin : forall ps,
            In ps (MemoryEngine.score_photos_significance ix now (p0 :: photos)) ->
            In (fst ps) (p0 :: photos)).
  { intros ps Hps. unfold MemoryEngine.score_photos_significance in Hps.
    apply In_firstn in Hps. apply sort_by_In in Hps.
    apply filter_In in Hps. destruct Hps as [Hps _].
    apply in_map_iff in Hps. destruct Hps as [p [<- Hp]]. exact Hp. }
  destruct (MemoryEngine.score_photos_significance ix now (p0 :: photos))
    as [|sp scored] eqn:Es; [discriminate|].
  destruct (MemoryEngine.create_memory now st user_id d (sp :: scored))
    as [m0 st0] eqn:Ecm.
  injection Hrun as <- <-.
  destruct (create_memory_links now st st0 user_id d (sp :: scored) m0 Href Ecm)
    as (Hu & Hd & Hmem & Hset & Hord).
  assert (Hsame : MemoryEngine.memory_photo_set
                    (cache_set st0 (cache_key user_id d) [mem_id m0]) m0
                  = MemoryEngine.memory_photo_set st0 m0) by reflexivity.
  rewrite Hsame, Hset. cbn [cache_set memories memory_photos].
  rewrite Hord, length_map.
  split; [exact Hu|]. split; [exact Hd|]. split; [exact Hmem|].
  split; [simpl; simpl in Hsl; lia|]. split; [exact Hsn|].
  split; [|reflexivity].
  intros pid Hin. apply in_map_iff in Hin. destruct Hin as [ps [<- Hps]].
  specialize (Hsin ps Hps). destruct (Hmine _ Hsin) as [Ha Hb].
  exists (fst ps). auto.
Qed.

Lemma discover_new_memory_witness :
  exists m st',
    MemoryEngine.discover_daily_memories Sample.one_photo Sample.now
      Sample.empty_store 1 (Some (mkDate 2024 1 5)) = (Ok [m], st')
    /\ (1 <= length (MemoryEngine.memory_photo_set st' m) <= 20)%nat
    /\ List.NoDup (MemoryEngine.memory_photo_set st' m).
Proof.
  do 2 eexists.
  assert (Hids : List.NoDup (map img_id (images Sample.one_photo)))
    by (repeat constructor; intros []).
  assert (Href : List.Forall
            (fun r => In (mp_memory r)
                         (map mem_id (memories Sample.empty_store)))
            (memory_photos Sample.empty_store)) by constructor.
  assert (Hc : cache Sample.empty_store !! cache_key 1 (mkDate 2024 1 5) = None)
    by reflexivity.
  assert (Hrows : MemoryEngine.memory_rows Sample.empty_store 1
                    (mkDate 2024 1 5) = []) by reflexivity.
  split; [vm_compute; reflexivity|].
  match goal with
  | |- (_ <= length (MemoryEngine.memory_photo_set ?s ?mm) <= _)%nat /\ _ =>
      assert (Hrun : MemoryEngine.discover_daily_memories Sample.one_photo
                       Sample.now Sample.empty_store 1 (Some (mkDate 2024 1 5))
                     = (Ok [mm], s)) by (vm_compute; reflexivity);
      destruct (discover_new_memory Sample.one_photo Sample.now
                  Sample.empty_store s 1 (mkDate 2024 1 5) mm
                  Hids Href Hc Hrows Hrun) as (_ & _ & _ & Hb & Hn & _)
  end.
  split; assumption.
Defined.

(** ** Cache invalidation on upload *)

Section InvalidateUser.
Import CacheInvalidation.
Variable now : datetime.
Variable user_id : Z.
Variable today : date.

Lemma cache_key_inj (u u' : Z) (d d' : date) :
  cache_key u d = cache_key u' d' -> u = u' /\ d = d'.
Proof.
  unfold cache_key. destruct d, d'. simpl. intros H.
  injection H as -> -> -> ->. auto.
Qed.

Lemma invalidate_days_spec (days : list Z) :
  forall st st',
    invalidate_days now st user_id today days = Ok st' ->
    memories st' = memories st /\ memory_photos st' = memory_photos st
    /\ forall k,
         (exists i di, In i days /\ add_days today (- i) = Ok di
                       /\ k = cache_key user_id di /\ cache st' !! k = None)
         \/ (cache st' !! k = cache st !! k
             /\ forall i di, In i days -> add_days today (- i) = Ok di ->
                             k <> cache_key user_id di).
Proof.
  induction days as [|i days IH]; intros st st' Hrun.
  - simpl in Hrun. injection Hrun as <-. repeat split.
    intros k. right. split; [reflexivity|]. intros i di [].
  - cbn [invalidate_days] in Hrun.
    destruct (add_days today (- i)) as [di|e] eqn:Ei; [|discriminate].
    cbn [mbind Result_bind] in Hrun.
    destruct (IH _ _ Hrun) as (Hm & Hp & Hk).
    split; [rewrite Hm; reflexivity|]. split; [rewrite Hp; reflexivity|].
    intros k. destruct (Hk k) as [(j & dj & Hj & Hdj & Hkj & Hnone)|[Hsame Hnot]].
    + left. exists j, dj. repeat split; try assumption. right. exact Hj.
    + unfold MemoryEngine.invalidate_memory_cache, cache_delete in Hsame.
      simpl in Hsame.
      destruct (decide (k = cache_key user_id di)) as [->|Hne].
      * left. exists i, di. rewrite Hsame, lookup_delete_eq.
        repeat split; try assumption. left. reflexivity.
      * right. rewrite Hsame, lookup_delete_ne by congruence.
        split; [reflexivity|].
        intros j dj [<-|Hj] Hdj.
        -- rewrite Ei in Hdj. injection Hdj as <-. exact Hne.
        -- apply (Hnot j dj Hj Hdj).
Qed.

End InvalidateUser.

(** X6. When [invalidate_user_memory_cache] returns, the memory and link
    rows are as before, the user's cache entries for today and the six days
    before are gone, and every other entry is as it was: the entries of other
    users, and the user's entries for any other target date, older ones
    included. *)
Theorem invalidate_user_cache_spec (now : datetime) (st st' : MemoryStore)
    (user_id : Z) :
  CacheInvalidation.invalidate_user_memory_cache now st user_id = Ok st' ->
  memories st' = memories st /\ memory_photos st' = memory_photos st
  /\ (forall i, 0 <= i < 7 ->
        exists di, add_days (dt_date now) (- i) = Ok di
                   /\ cache st' !! cache_key user_id di = None)
  /\ (forall u d,
        (u <> user_id
         \/ forall i, 0 <= i < 7 -> add_days (dt_date now) (- i) <> Ok d) ->
        cache st' !! cache_key u d = cache st !! cache_key u d).
Proof.
  unfold CacheInvalidation.invalidate_user_memory_cache.
  change (seqZ 0 7) with [0; 1; 2; 3; 4; 5; 6]. intros Hrun.
  destruct (invalidate_days_spec now user_id (dt_date now) _ _ _ Hrun)
    as (Hm & Hp & Hk).
  split; [exact Hm|]. split; [exact Hp|]. split.
  - intros i Hi.
    assert (Hin : In i [0; 1; 2; 3; 4; 5; 6]) by (simpl; lia).
    assert (Hdi : exists di, add_days (dt_date now) (- i) = Ok di).
    { clear -Hrun Hin. revert st Hrun Hin.
      generalize [0; 1; 2; 3; 4; 5; 6] as days.
      induction days as [|j days IH]; intros st Hrun Hin; [contradiction|].
      cbn [CacheInvalidation.invalidate_days] in Hrun.
      destruct (add_days (dt_date now) (- j)) as [dj|e] eqn:Ej; [|discriminate].
      destruct Hin as [->|Hin]; [exists dj; exact Ej|].
      eapply IH; [exact Hrun | exact Hin]. }
    destruct Hdi as [di Hdi]. exists di. split; [exact Hdi|].
    destruct (Hk (cache_key user_id di))
      as [(j & dj & _ & _ & _ & Hnone)|[_ Hnot]]; [exact Hnone|].
    exfalso. apply (Hnot i di Hin Hdi). reflexivity.
  - intros u d Hud.
    destruct (Hk (cache_key u d))
      as [(j & dj & Hj & Hdj & Hkey & _)|[Hsame _]]; [|exact Hsame].
    exfalso. apply cache_key_inj in Hkey. destruct Hkey as [-> ->].
    destruct Hud as [Hu|Hd]; [apply Hu; reflexivity|].
    apply (Hd j); [simpl in Hj; lia | exact Hdj].
Qed.

Lemma invalidate_user_cache_spec_witness :
  exists st',
    CacheInvalidation.invalidate_user_memory_cache Sample.now
      (cache_set Sample.empty_store (cache_key 1 (mkDate 2024 5 30)) [4]) 1
    = Ok st'
    /\ cache st' !! cache_key 1 (mkDate 2024 5 30) = None.
Proof.
  eexists. split; [vm_compute; reflexivity|].
  match goal with
  | |- cache ?s !! _ = None =>
      assert (Hrun : CacheInvalidation.invalidate_user_memory_cache Sample.now
                (cache_set Sample.empty_store (cache_key 1 (mkDate 2024 5 30))
                           [4]) 1 = Ok s) by (vm_compute; reflexivity);
      destruct (invalidate_user_cache_spec _ _ _ _ Hrun) as (_ & _ & Hgone & _)
  end.
  destruct (Hgone 2 ltac:(lia)) as [di [Hdi Hnone]].
  assert (Hd : di = mkDate 2024 5 30).
  { vm_compute in Hdi. injection Hdi as <-. reflexivity. }
  rewrite <- Hd. exact Hnone.
Defined.

(** ** Engagement tracking *)

Section EngagementFacts.
Import Engagement.

Lemma find_update_engagement (now : datetime) (es : list MemoryEngagement)
    (id : Z) (ms : list Memory) :
  List.find (fun m => mem_id m =? id) (update_engagement now es id ms)
  = option_map
      (fun m => mkMemory (mem_id m) (mem_user m) (mem_target_date m)
                  (mem_significance_score m) (mem_created_at m) (Some now)
                  (Z.of_nat (length (engagement_rows es id))))
      (List.find (fun m => mem_id m =? id) ms).
Proof.
  unfold update_engagement.
  induction ms as [|m ms IH]; simpl; [reflexivity|].
  destruct (mem_id m =? id) eqn:E; simpl.
  - rewrite E. reflexivity.
  - rewrite E. exact IH.
Qed.

Lemma find_by_id (id : Z) (ms : list Memory) (m : Memory) :
  List.find (fun m => mem_id m =? id) ms = Some m -> mem_id m = id.
Proof. intros H. apply List.find_some in H. apply Z.eqb_eq, H. Qed.

(** One tracked interaction of a stored memory. *)
Lemma track_step (now : datetime) (ms : list Memory)
    (es : list MemoryEngagement) (id : Z) (ty : string) (ip ua : option string)
    (m : Memory) :
  List.find (fun m => mem_id m =? id) ms = Some m ->
  exists m',
    List.find (fun m => mem_id m =? id)
              (fst (track_memory_engagement now (ms, es) id ty ip ua))
    = Some m'
    /\ mem_engagement_count m'
       = Z.of_nat (length (engagement_rows es id) + 1)
    /\ mem_last_viewed m' = Some now
    /\ mem_user m' = mem_user m
    /\ length (engagement_rows
                 (snd (track_memory_engagement now (ms, es) id ty ip ua)) id)
       = (length (engagement_rows es id) + 1)%nat.
Proof.
  intros Hf. pose proof (find_by_id id ms m Hf) as Hid.
  unfold track_memory_engagement. rewrite Hf. rewrite Hid.
  cbn [fst snd]. rewrite find_update_engagement, Hf. simpl option_map.
  assert (Hrows : length (engagement_rows
                    (es ++ [mkEngagement id ty now ip (default EmptyString ua)])
                    id) = (length (engagement_rows es id) + 1)%nat).
  { unfold engagement_rows. rewrite List.filter_app, length_app. simpl.
    rewrite Z.eqb_refl. reflexivity. }
  eexists. split; [reflexivity|]. cbn [mem_engagement_count mem_last_viewed
    mem_user]. rewrite Hrows. repeat split.
Qed.

End EngagementFacts.

(** X7. Tracking an interaction of a stored memory appends one engagement
    row for it and leaves the memory with [engagement_count] equal to the
    number of its rows and [last_viewed] equal to the time of the call; for a
    memory id that is not stored nothing changes and nothing is raised. *)
Theorem track_memory_engagement_spec (now : datetime) (ms : list Memory)
    (es : list MemoryEngagement) (id : Z) (ty : string)
    (ip ua : option string) :
  let db' := Engagement.track_memory_engagement now (ms, es) id ty ip ua in
  match List.find (fun m => mem_id m =? id) ms with
  | Some m =>
      length (Engagement.engagement_rows (snd db') id)
      = (length (Engagement.engagement_rows es id) + 1)%nat
      /\ exists m',
           List.find (fun m => mem_id m =? id) (fst db') = Some m'
           /\ mem_engagement_count m'
              = Z.of_nat (length (Engagement.engagement_rows (snd db') id))
           /\ mem_last_viewed m' = Some now
  | None => db' = (ms, es)
  end.
Proof.
  intros db'. subst db'.
  destruct (List.find (fun m => mem_id m =? id) ms) as [m|] eqn:Hf.
  - destruct (track_step now ms es id ty ip ua m Hf)
      as (m' & Hm' & Hc & Hv & _ & Hrows).
    split; [exact Hrows|]. exists m'. rewrite Hrows. auto.
  - unfold Engagement.track_memory_engagement. rewrite Hf. reflexivity.
Qed.

(** X8. After any number of tracked interactions of a stored memory, at
    the times and with the types of [calls], the memory has as many more
    engagement rows as there were calls, its [engagement_count] is the
    number of its rows, and [last_viewed] is the time of the last call. *)
Theorem engagement_count_after_calls (calls : list (datetime * string)) :
  forall (ms : list Memory) (es : list MemoryEngagement) (id : Z) (m : Memory)
         (t : datetime) (ty : string),
    List.find (fun m => mem_id m =? id) ms = Some m ->
    let db' :=
      fold_left (fun db c =>
                   Engagement.track_memory_engagement (fst c) db id (snd c)
                                                      None None)
                (calls ++ [(t, ty)]) (ms, es) in
    length (Engagement.engagement_rows (snd db') id)
    = (length (Engagement.engagement_rows es id) + length calls + 1)%nat
    /\ exists m',
         List.find (fun m => mem_id m =? id) (fst db') = Some m'
         /\ mem_engagement_count m'
            = Z.of_nat (length (Engagement.engagement_rows (snd db') id))
         /\ mem_last_viewed m' = Some t.
Proof.
  induction calls as [|[t0 ty0] calls IH]; intros ms es id m t ty Hf db';
    subst db'.
  - cbn [app fold_left fst snd].
    destruct (track_step t ms es id ty None None m Hf)
      as (m' & Hm' & Hc & Hv & _ & Hrows).
    split; [rewrite Hrows; simpl; lia|]. exists m'. rewrite Hrows. auto.
  - cbn [app fold_left fst snd].
    destruct (track_step t0 ms es id ty0 None None m Hf)
      as (m' & Hm' & _ & _ & _ & Hrows).
    destruct (Engagement.track_memory_engagement t0 (ms, es) id ty0 None None)
      as [ms1 es1] eqn:E1. cbn [fst snd] in *.
    destruct (IH ms1 es1 id m' t ty Hm') as [Hlen Hex].
    split; [|exact Hex]. rewrite Hlen, Hrows. simpl. lia.
Qed.

Lemma engagement_count_after_calls_witness :
  exists m',
    List.find (fun m => mem_id m =? 1)
      (fst (fold_left
              (fun db c =>
                 Engagement.track_memory_engagement (fst c) db 1 (snd c)
                                                    None None)
              ([(Sample.now, "view"%string)] ++ [(Sample.now, "like"%string)])
              ([Sample.a_memory], []))) = Some m'
    /\ mem_engagement_count m' = 2.
Proof.
  assert (Hf : List.find (fun m => mem_id m =? 1) [Sample.a_memory]
               = Some Sample.a_memory) by reflexivity.
  destruct (engagement_count_after_calls [(Sample.now, "view"%string)]
              [Sample.a_memory] [] 1 Sample.a_memory Sample.now "like" Hf)
    as [Hlen (m' & Hm' & Hc & _)].
  exists m'. split; [exact Hm'|]. rewrite Hc, Hlen. reflexivity.
Defined.

Lemma valid_type_iff (ty : string) :
  existsb (String.eqb ty) Engagement.valid_types = true
  <-> In ty Engagement.valid_types.
Proof.
  rewrite existsb_exists. split.
  - intros [x [Hx He]]. apply String.eqb_eq in He. subst. exact Hx.
  - intros H. exists ty. split; [exact H | apply String.eqb_refl].
Qed.

(** X9. The engagement endpoint answers 200 exactly when the memory is a
    memory of the requesting user and the interaction type is one of view,
    share, like and download; any other request (404 or 400) leaves the
    tables as they were, and a 200 adds exactly one engagement row for the
    memory. *)
Theorem engagement_post_spec (now : datetime)
    (db : list Memory * list MemoryEngagement) (request_user memory_id : Z)
    (interaction_type : option string) (ip : option string) (ua : string) :
  let r := Engagement.engagement_post now db request_user memory_id
             interaction_type ip ua in
  (fst r = Engagement.Http200 <->
   (exists m, In m (fst db) /\ mem_id m = memory_id
              /\ mem_user m = request_user)
   /\ exists ty, interaction_type = Some ty /\ In ty Engagement.valid_types)
  /\ (fst r <> Engagement.Http200 -> snd r = db)
  /\ (fst r = Engagement.Http200 ->
      length (Engagement.engagement_rows (snd (snd r)) memory_id)
      = (length (Engagement.engagement_rows (snd db) memory_id) + 1)%nat).
Proof.
  intros r. subst r. unfold Engagement.engagement_post.
  destruct (List.find _ (fst db)) as [m|] eqn:Hf.
  - pose proof (List.find_some _ _ Hf) as [Hin Hm].
    apply andb_true_iff in Hm. destruct Hm as [Hid Hu].
    apply Z.eqb_eq in Hid. apply Z.eqb_eq in Hu.
    assert (Hown : exists m, In m (fst db) /\ mem_id m = memory_id
                             /\ mem_user m = request_user)
      by (exists m; auto).
    destruct interaction_type as [ty|].
    + destruct ty as [|c ty'] eqn:Ety.
      * cbn [fst snd]. split; [|split]; try (intros; discriminate);
          try reflexivity.
        split; [discriminate|]. intros [_ [ty0 [E Hin0]]].
        injection E as <-. simpl in Hin0.
        repeat destruct Hin0 as [Hin0|Hin0]; try discriminate; contradiction.
      * rewrite <- Ety.
        destruct (existsb (String.eqb ty) Engagement.valid_types) eqn:Ev;
          cbn [negb fst snd].
        -- apply valid_type_iff in Ev.
           split; [|split].
           ++ split; [|reflexivity]. intros _. split; [exact Hown|].
              exists ty. auto.
           ++ intros H. contradiction.
           ++ intros _. destruct db as [ms es]. cbn [fst snd] in *.
              assert (Hfid : exists m0,
                        List.find (fun m => mem_id m =? memory_id) ms = Some m0).
              { destruct (List.find (fun m => mem_id m =? memory_id) ms)
                  as [m0|] eqn:E0; [exists m0; reflexivity|].
                exfalso. pose proof (List.find_none _ _ E0 m Hin) as Hn.
                simpl in Hn. rewrite Hid, Z.eqb_refl in Hn. discriminate. }
              destruct Hfid as [m0 Hm0].
              destruct (track_step now ms es memory_id ty ip (Some ua) m0 Hm0)
                as (_ & _ & _ & _ & _ & Hrows).
              exact Hrows.
        -- split; [|split]; try (intros; discriminate); try reflexivity.
           split; [discriminate|]. intros [_ [ty0 [E Hin0]]].
           injection E as <-. apply valid_type_iff in Hin0. congruence.
    + cbn [fst snd]. split; [|split]; try (intros; discriminate);
        try reflexivity.
      split; [discriminate|]. intros [_ [ty0 [E _]]]. discriminate.
  - cbn [fst snd]. split; [|split]; try (intros; discriminate);
      try reflexivity.
    split; [discriminate|]. intros [[m [Hin [Hid Hu]]] _].
    pose proof (List.find_none _ _ Hf m Hin) as Hn. simpl in Hn.
    rewrite Hid, Hu, !Z.eqb_refl in Hn. discriminate.
Qed.

(** ** Reel selection and requests, further *)

(** X10. The selector returns its photos in chronological order of capture
    time, whether it returns the whole period or a selection by score. *)
Theorem selection_chronological (ix : PhotoIndex) (now : datetime)
    (user_id : Z) (start_date end_date : date) (count : option Z) :
  exists l,
    FlashbackReelService.select_representative_photos ix now user_id start_date
      end_date count = Ok l
    /\ ordered chronological l.
Proof.
  unfold FlashbackReelService.select_representative_photos.
  set (period := FlashbackReelService.photos_in_period ix user_id start_date
                   end_date).
  match goal with
  | |- context [if ?c then _ else _] => destruct c
  end.
  - exists (MemoryEngine.oldest_first period). split; [reflexivity|].
    apply (ordered_impl MemoryEngine.taken_leb).
    + intros a b Ha Hb Hab.
      unfold MemoryEngine.oldest_first in Ha, Hb.
      apply (proj1 (sort_by_In MemoryEngine.taken_leb _ _)) in Ha.
      apply (proj1 (sort_by_In MemoryEngine.taken_leb _ _)) in Hb.
      destruct (photos_in_period_in_range _ _ _ _ _ Ha) as [[ta [Hta _]] _].
      destruct (photos_in_period_in_range _ _ _ _ _ Hb) as [[tb [Htb _]] _].
      unfold chronological, FlashbackReelService.taken_or_created,
        MemoryEngine.taken_leb in *.
      rewrite Hta, Htb in *. exact Hab.
    + apply sort_by_ordered. intros a b. apply taken_leb_total.
  - unfold FlashbackReelService.advanced_photo_selection.
    match goal with
    | |- context [FlashbackReelService.apply_temporal_distribution ?s ?c] =>
        destruct (apply_temporal_distribution_spec s c) as [sel [Hsel _]]
    end.
    { unfold FlashbackReelService.min_photos_for_reel,
        FlashbackReelService.max_photos_per_reel. lia. }
    rewrite Hsel. cbn [mbind Result_bind]. eexists. split; [reflexivity|].
    apply sort_by_ordered. intros a b. apply datetime_leb_total.
Qed.

(** X11. For a user that exists, a reel request succeeds exactly when
    [can_generate_reel] says the period holds enough photos (10 or more); it
    raises the not-enough-photos error exactly when it says no. *)
Theorem can_generate_iff_request_succeeds (ix : PhotoIndex) (now : datetime)
    (rs : ReelStore) (user_id : Z) (title : string) (start_date end_date : date)
    (theme : string) (duration : option Z) (async_processing : bool) :
  In user_id (users ix) ->
  (FlashbackReelService.can_generate_reel ix user_id start_date end_date = true
   <-> exists reel,
         fst (FlashbackReelService.create_reel_request ix now rs user_id title
                start_date end_date theme duration async_processing) = Ok reel)
  /\ (FlashbackReelService.can_generate_reel ix user_id start_date end_date
      = false
      <-> FlashbackReelService.create_reel_request ix now rs user_id title
            start_date end_date theme duration async_processing
          = (Raise (ValueError "Not enough photos for reel"), rs)).
Proof.
  intros Hu.
  destruct (select_representative_photos_spec ix now user_id start_date
              end_date None) as [l [Hl [Hlen _]]].
  assert (Hc : clamp_count None = 20) by reflexivity. rewrite Hc in Hlen.
  unfold FlashbackReelService.can_generate_reel,
    FlashbackReelService.create_reel_request, get_user.
  assert (Hex : existsb (Z.eqb user_id) (users ix) = true).
  { apply existsb_exists. exists user_id. split; [exact Hu | apply Z.eqb_refl]. }
  rewrite Hex, Hl. unfold FlashbackReelService.min_photos_for_reel.
  destruct (Z.ltb_spec (Z.of_nat (length l)) 10) as [Hlt|Hge].
  - split; split.
    + intros H. apply Z.leb_le in H. lia.
    + intros [reel H]. discriminate.
    + reflexivity.
    + intros _. apply Z.leb_gt. lia.
  - split; split.
    + intros _. destruct async_processing; eexists; reflexivity.
    + intros _. apply Z.leb_le. lia.
    + intros H. apply Z.leb_gt in H. lia.
    + destruct async_processing; discriminate.
Qed.

Lemma can_generate_iff_request_succeeds_witness :
  FlashbackReelService.can_generate_reel Sample.three_photos 1
    (mkDate 2023 1 1) (mkDate 2023 12 31) = false
  <-> FlashbackReelService.create_reel_request Sample.three_photos Sample.now
        Sample.no_reels 1 "Spring" (mkDate 2023 1 1) (mkDate 2023 12 31)
        "modern" None true
      = (Raise (ValueError "Not enough photos for reel"), Sample.no_reels).
Proof.
  apply can_generate_iff_request_succeeds. simpl. left. reflexivity.
Defined.

(** ** Reel lifecycle, further *)

(** X12. Cancelling succeeds exactly for a stored reel that is pending or
    processing: the reel becomes failed with the message 'Cancelled by user',
    its completion time and the job queue untouched. For a missing,
    completed or failed reel it answers False and changes nothing. *)
Theorem cancel_reel_generation_spec (rs : ReelStore) (id : Z) :
  let c := FlashbackReelService.cancel_reel_generation rs id in
  (fst c = true <->
   exists r, FlashbackReelService.get_reel rs id = Some r
             /\ (reel_status r = pending \/ reel_status r = processing))
  /\ (fst c = false -> snd c = rs)
  /\ (fst c = true ->
      exists r r',
        FlashbackReelService.get_reel rs id = Some r
        /\ FlashbackReelService.get_reel (snd c) id = Some r'
        /\ reel_status r' = failed
        /\ reel_error_message r' = "Cancelled by user"%string
        /\ reel_completed_at r' = reel_completed_at r
        /\ queue (snd c) = queue rs).
Proof.
  intros c. subst c. unfold FlashbackReelService.cancel_reel_generation.
  destruct (FlashbackReelService.get_reel rs id) as [r|] eqn:Hget.
  - destruct (get_reel_write_status rs id failed
                (FlashbackReelService.set_error_message "Cancelled by user") r
                (fun _ => eq_refl) Hget) as (Hg & Hq & _ & _).
    destruct (reel_status r) eqn:Es; cbn [fst snd].
    + split; [|split].
      * split; [|reflexivity]. intros _. exists r. auto.
      * discriminate.
      * intros _. exists r. eexists. split; [reflexivity|].
        split; [exact Hg|]. repeat split. exact Hq.
    + split; [|split].
      * split; [|reflexivity]. intros _. exists r. auto.
      * discriminate.
      * intros _. exists r. eexists. split; [reflexivity|].
        split; [exact Hg|]. repeat split. exact Hq.
    + split; [|split]; try reflexivity; try discriminate.
      split; [discriminate|]. intros [r0 [E [H|H]]];
        injection E as <-; congruence.
    + split; [|split]; try reflexivity; try discriminate.
      split; [discriminate|]. intros [r0 [E [H|H]]];
        injection E as <-; congruence.
  - cbn [fst snd]. split; [|split]; try reflexivity; try discriminate.
    split; [discriminate|]. intros [r0 [E _]]. discriminate.
Qed.

(** X13. Cancel, then retry: for a stored pending reel whose error message
    is empty, the two calls succeed, the stored row is again exactly the row
    it was, one fresh job (no retries behind it, no countdown) is queued, and
    the journal gains pending->failed and failed->pending. *)
Theorem cancel_then_retry_restores (rs : ReelStore) (id : Z)
    (r : FlashbackReel) :
  FlashbackReelService.get_reel rs id = Some r ->
  reel_status r = pending ->
  reel_error_message r = EmptyString ->
  let c := FlashbackReelService.cancel_reel_generation rs id in
  let t := FlashbackReelService.retry_reel_generation (snd c) id in
  fst c = true /\ fst t = Ok tt
  /\ FlashbackReelService.get_reel (snd t) id = Some r
  /\ queue (snd t) = queue rs ++ [(id, (0%nat, 0))]
  /\ transitions (snd t)
     = transitions rs ++ [(id, (pending, failed)); (id, (failed, pending))].
Proof.
  intros Hget Hs He c t. subst t c.
  unfold FlashbackReelService.cancel_reel_generation. rewrite Hget, Hs.
  cbn [fst snd].
  destruct (get_reel_write_status rs id failed
              (FlashbackReelService.set_error_message "Cancelled by user") r
              (fun _ => eq_refl) Hget) as (Hg1 & Hq1 & Ht1 & _).
  set (rs1 := FlashbackReelService.write_status rs id failed _) in *.
  unfold FlashbackReelService.retry_reel_generation. rewrite Hg1.
  cbn [reel_status FlashbackReelService.set_status fst snd].
  destruct (get_reel_write_status rs1 id pending
              (FlashbackReelService.set_error_message EmptyString) _
              (fun _ => eq_refl) Hg1) as (Hg2 & Hq2 & Ht2 & _).
  set (rs2 := FlashbackReelService.write_status rs1 id pending _) in *.
  split; [reflexivity|]. split; [reflexivity|].
  unfold FlashbackReelService.start_reel_generation,
    FlashbackReelService.get_reel in *. cbn [reels queue transitions].
  split.
  - rewrite Hg2. f_equal. destruct r. simpl in *. subst. reflexivity.
  - rewrite Hq2, Hq1, Ht2, Ht1, Hs, <- app_assoc. split; reflexivity.
Qed.

Lemma cancel_then_retry_restores_witness :
  exists r,
    FlashbackReelService.get_reel Sample.after_request 1 = Some r
    /\ FlashbackReelService.get_reel
         (snd (FlashbackReelService.retry_reel_generation
                 (snd (FlashbackReelService.cancel_reel_generation
                         Sample.after_request 1)) 1)) 1 = Some r.
Proof.
  eexists. split; [vm_compute; reflexivity|].
  match goal with
  | |- _ = Some ?r =>
      assert (Hget : FlashbackReelService.get_reel Sample.after_request 1
                     = Some r) by (vm_compute; reflexivity);
      destruct (cancel_then_retry_restores Sample.after_request 1 r Hget
                  eq_refl eq_refl) as (_ & _ & H & _)
  end.
  exact H.
Defined.

(** X14. A retry is refused for every reel that is not failed: it raises
    [ValueError] and leaves the store as it was, so a pending, processing or
    completed reel is never reset or queued again by it; so is a retry of a
    reel that does not exist. *)
Theorem retry_refused_unless_failed (rs : ReelStore) (id : Z) :
  (forall r, FlashbackReelService.get_reel rs id = Some r ->
             reel_status r <> failed) ->
  exists msg,
    FlashbackReelService.retry_reel_generation rs id
    = (Raise (ValueError msg), rs).
Proof.
  intros H. unfold FlashbackReelService.retry_reel_generation.
  destruct (FlashbackReelService.get_reel rs id) as [r|]; [|eexists; reflexivity].
  specialize (H r eq_refl).
  destruct (reel_status r); try (eexists; reflexivity). contradiction.
Qed.

Lemma retry_refused_unless_failed_witness :
  exists msg,
    FlashbackReelService.retry_reel_generation Sample.after_request 1
    = (Raise (ValueError msg), Sample.after_request).
Proof.
  apply retry_refused_unless_failed. intros r Hr.
  vm_compute in Hr. injection Hr as <-. discriminate.
Defined.

(** X15. The job renders nothing for a reel it cannot work on, whatever the
    renderer would do and however many retries lie behind: for a reel that
    does not exist it returns the 'Reel not found' error and changes nothing;
    for a reel without photos it marks the reel failed with the no-photos
    message and returns an error. In both cases no retry is queued. *)
Theorem job_without_render (render : Tasks.RenderOutcome) (share : option Z)
    (now : datetime) (n : nat) (rs : ReelStore) (id : Z) :
  (FlashbackReelService.get_reel rs id = None ->
   Tasks.generate_flashback_reel_video render share now n rs id
   = (Tasks.Returned "error" "Reel not found" None, rs))
  /\ (forall r,
        FlashbackReelService.get_reel rs id = Some r -> reel_photos r = [] ->
        exists rs' r',
          Tasks.generate_flashback_reel_video render share now n rs id
          = (Tasks.Returned "error" "No photos available" None, rs')
          /\ FlashbackReelService.get_reel rs' id = Some r'
          /\ reel_status r' = failed
          /\ reel_error_message r'
             = "No photos available for reel generation"%string
          /\ queue rs' = queue rs).
Proof.
  split.
  - intros H. unfold Tasks.generate_flashback_reel_video. rewrite H.
    reflexivity.
  - intros r Hget Hph. unfold Tasks.generate_flashback_reel_video.
    rewrite Hget, Hph.
    destruct (get_reel_write_status rs id processing (fun r => r) r
                (fun _ => eq_refl) Hget) as (Hg1 & Hq1 & _ & _).
    destruct (get_reel_write_status _ id failed
                (FlashbackReelService.set_error_message
                   "No photos available for reel generation") _
                (fun _ => eq_refl) Hg1) as (Hg2 & Hq2 & _ & _).
    do 2 eexists. split; [reflexivity|].
    unfold FlashbackReelService.mark_failed.
    split; [exact Hg2|]. repeat split. rewrite Hq2, Hq1. reflexivity.
Qed.

(** X16. A run whose rendering succeeds, on a stored reel with photos,
    whatever its status was: the job returns success and queues nothing; the
    reel is completed with the time of the run as its completion time; its
    error message and its [video_file] column are what they were (an earlier
    failure's message stays, the file name is not saved with the row); and
    the status query then reports 'completed', 100 percent, and no estimated
    completion. *)
Theorem job_success (content : string) (share : option Z) (now later : datetime)
    (n : nat) (rs : ReelStore) (id : Z) (r : FlashbackReel) :
  FlashbackReelService.get_reel rs id = Some r ->
  reel_photos r <> [] ->
  exists rs' r',
    Tasks.generate_flashback_reel_video (Tasks.Rendered content) share now n
                                        rs id
    = (Tasks.Returned "success" EmptyString None, rs')
    /\ FlashbackReelService.get_reel rs' id = Some r'
    /\ reel_status r' = completed
    /\ reel_completed_at r' = Some now
    /\ reel_error_message r' = reel_error_message r
    /\ reel_video_file r' = reel_video_file r
    /\ queue rs' = queue rs
    /\ exists info,
         ReelManagement.get_reel_generation_status later rs' id = Ok (Some info)
         /\ ReelManagement.info_status info = "completed"%string
         /\ ReelManagement.info_progress_percentage info = 100
         /\ ReelManagement.info_estimated_completion info = None
         /\ ReelManagement.info_completed_at info = Some now.
Proof.
  intros Hget Hph. unfold Tasks.generate_flashback_reel_video. rewrite Hget.
  destruct (reel_photos r) as [|p ps] eqn:Eph; [contradiction|].
  destruct (get_reel_write_status rs id processing (fun r => r) r
              (fun _ => eq_refl) Hget) as (Hg1 & Hq1 & _ & _).
  set (rs1 := FlashbackReelService.write_status rs id processing _) in *.
  unfold FlashbackReelService.mark_completed.
  destruct (get_reel_write_status rs1 id completed
              (FlashbackReelService.set_completed_at now) _
              (fun _ => eq_refl) Hg1) as (Hg2 & Hq2 & _ & _).
  set (rs2 := FlashbackReelService.write_status rs1 id completed _) in *.
  assert (Hshare : exists r',
            FlashbackReelService.get_reel
              (Tasks.create_reel_share_link share rs2 id) id = Some r'
            /\ reel_status r' = completed
            /\ reel_completed_at r' = Some now
            /\ reel_error_message r' = reel_error_message r
            /\ reel_video_file r' = reel_video_file r
            /\ queue (Tasks.create_reel_share_link share rs2 id) = queue rs).
  { unfold Tasks.create_reel_share_link. rewrite Hg2.
    destruct share as [link|].
    - cbn [reel_share_link FlashbackReelService.set_status
             FlashbackReelService.set_completed_at].
      destruct (reel_share_link r).
      + eexists. split; [exact Hg2|]. repeat split. rewrite Hq2, Hq1.
        reflexivity.
      + eexists. split.
        * unfold FlashbackReelService.get_reel in *. cbn [reels].
          rewrite find_update_reel by (intros; reflexivity).
          rewrite Hg2. reflexivity.
        * repeat split. cbn [queue]. rewrite Hq2, Hq1. reflexivity.
    - eexists. split; [exact Hg2|]. repeat split. rewrite Hq2, Hq1.
      reflexivity. }
  destruct Hshare as (r' & Hg3 & Hs & Hc & He & Hv & Hq).
  exists (Tasks.create_reel_share_link share rs2 id), r'.
  split; [reflexivity|]. split; [exact Hg3|].
  split; [exact Hs|]. split; [exact Hc|]. split; [exact He|].
  split; [exact Hv|]. split; [exact Hq|].
  unfold ReelManagement.get_reel_generation_status. rewrite Hg3.
  unfold ReelManagement.estimate_completion_time,
    ReelManagement.calculate_progress_percentage. rewrite Hs.
  cbn [mbind Result_bind]. eexists. split; [reflexivity|].
  cbn [ReelManagement.info_status ReelManagement.info_progress_percentage
       ReelManagement.info_estimated_completion
       ReelManagement.info_completed_at ReelManagement.status_name].
  auto.
Qed.

Lemma job_success_witness :
  exists rs' r',
    Tasks.generate_flashback_reel_video (Tasks.Rendered "mp4") (Some 9)
      Sample.now 0 Sample.after_request 1
    = (Tasks.Returned "success" EmptyString None, rs')
    /\ FlashbackReelService.get_reel rs' 1 = Some r'
    /\ reel_status r' = completed
    /\ reel_video_file r' = None.
Proof.
  assert (Hget : exists r,
            FlashbackReelService.get_reel Sample.after_request 1 = Some r
            /\ reel_photos r <> [] /\ reel_video_file r = None).
  { eexists. split; [vm_compute; reflexivity|]. split; [discriminate|].
    reflexivity. }
  destruct Hget as (r & Hget & Hph & Hv).
  destruct (job_success "mp4" (Some 9) Sample.now Sample.now 0
              Sample.after_request 1 r Hget Hph)
    as (rs' & r' & H1 & H2 & H3 & _ & _ & H6 & _).
  exists rs', r'. rewrite H6. auto.
Defined.

Lemma queue_write_status (rs : ReelStore) (id : Z) (s : ReelStatus)
    (f : FlashbackReel -> FlashbackReel) :
  queue (FlashbackReelService.write_status rs id s f) = queue rs.
Proof.
  unfold FlashbackReelService.write_status.
  destruct (FlashbackReelService.get_reel rs id); reflexivity.
Qed.

Lemma queue_share_link (share : option Z) (rs : ReelStore) (id : Z) :
  queue (Tasks.create_reel_share_link share rs id) = queue rs.
Proof.
  unfold Tasks.create_reel_share_link.
  destruct (FlashbackReelService.get_reel rs id) as [r|]; [|reflexivity].
  destruct share; [|reflexivity]. destruct (reel_share_link r); reflexivity.
Qed.

(** X17. A run of the job adds at most one job to the queue, and only when
    the rendering raised with fewer than 3 retries behind it: the added job
    is for the same reel, one retry later, with a countdown of 60 seconds
    doubled once per earlier retry. A run with 3 retries behind it, or one
    that did not raise, queues nothing. *)
Theorem job_retry_bound (render : Tasks.RenderOutcome) (share : option Z)
    (now : datetime) (n : nat) (rs : ReelStore) (id : Z) :
  let rs' := snd (Tasks.generate_flashback_reel_video render share now n rs id) in
  queue rs' = queue rs
  \/ ((n < 3)%nat
      /\ (exists msg, render = Tasks.RenderRaises msg)
      /\ queue rs' = queue rs ++ [(id, (S n, 60 * 2 ^ Z.of_nat n))]
      /\ 60 <= 60 * 2 ^ Z.of_nat n <= 240).
Proof.
  intros rs'. subst rs'. unfold Tasks.generate_flashback_reel_video.
  destruct (FlashbackReelService.get_reel rs id) as [r|]; [|left; reflexivity].
  destruct (reel_photos r) as [|p ps].
  { left. cbn [snd]. unfold FlashbackReelService.mark_failed.
    rewrite !queue_write_status. reflexivity. }
  destruct render as [content|msg].
  - left. cbn [snd]. unfold FlashbackReelService.mark_completed.
    rewrite queue_share_link, !queue_write_status. reflexivity.
  - unfold Tasks.max_retries, FlashbackReelService.mark_failed.
    destruct (Nat.ltb_spec n 3) as [Hlt|Hge]; cbn [snd].
    + right. split; [exact Hlt|]. split; [exists msg; reflexivity|].
      split.
      * unfold Tasks.retry. cbn [queue]. rewrite !queue_write_status.
        reflexivity.
      * destruct n as [|[|[|n]]]; simpl; lia.
    + left. rewrite !queue_write_status. reflexivity.
Qed.

Section FrozenPart.
Import FlashbackReelService Tasks.

Lemma frozen_update_reel (f : FlashbackReel -> FlashbackReel) (id : Z)
    (l : list FlashbackReel) :
  (forall r, frozen_part (f r) = frozen_part r) ->
  map frozen_part (update_reel f id l) = map frozen_part l.
Proof.
  intros Hf. unfold update_reel. rewrite map_map. apply map_ext.
  intros r. destruct (reel_id r =? id); [apply Hf | reflexivity].
Qed.

Lemma frozen_write_status (rs : ReelStore) (id : Z) (s : ReelStatus)
    (f : FlashbackReel -> FlashbackReel) :
  (forall r, frozen_part (f r) = frozen_part r) ->
  map frozen_part (reels (write_status rs id s f)) = map frozen_part (reels rs).
Proof.
  intros Hf. unfold write_status.
  destruct (get_reel rs id); [|reflexivity]. cbn [reels].
  apply frozen_update_reel. intros r. rewrite <- (Hf r). reflexivity.
Qed.

Lemma frozen_share_link (share : option Z) (rs : ReelStore) (id : Z) :
  map frozen_part (reels (create_reel_share_link share rs id))
  = map frozen_part (reels rs).
Proof.
  unfold create_reel_share_link.
  destruct (get_reel rs id) as [r|]; [|reflexivity].
  destruct share; [|reflexivity]. destruct (reel_share_link r); [reflexivity|].
  cbn [reels]. apply frozen_update_reel. reflexivity.
Qed.

Lemma frozen_run_op (rs : ReelStore) (id : Z) (op : Op) :
  map frozen_part (reels (run_op rs id op)) = map frozen_part (reels rs).
Proof.
  destruct op as [render share now n| |]; cbn [run_op].
  - unfold generate_flashback_reel_video.
    destruct (get_reel rs id) as [r|]; [|reflexivity].
    destruct (reel_photos r).
    { cbn [snd]. unfold mark_failed.
      rewrite !frozen_write_status by reflexivity. reflexivity. }
    destruct render as [content|msg].
    + cbn [snd]. unfold mark_completed.
      rewrite frozen_share_link, !frozen_write_status by reflexivity.
      reflexivity.
    + unfold mark_failed. destruct (n <? max_retries)%nat; cbn [snd];
        unfold retry; cbn [reels];
        rewrite !frozen_write_status by reflexivity; reflexivity.
  - unfold cancel_reel_generation.
    destruct (get_reel rs id) as [r|]; [|reflexivity].
    destruct (reel_status r); cbn [snd]; try reflexivity;
      apply frozen_write_status; reflexivity.
  - unfold retry_reel_generation.
    destruct (get_reel rs id) as [r|]; [|reflexivity].
    destruct (reel_status r); cbn [snd]; try reflexivity.
    unfold start_reel_generation. cbn [reels].
    apply frozen_write_status. reflexivity.
Qed.

End FrozenPart.

(** X18. No history of generation jobs, cancels and retries adds, removes
    or reorders reels, or changes a reel's id, owner, title, photo set, photo
    count, period, theme, duration, creation time or [video_file] column:
    these operations only ever write status, error message, completion time
    and share link. *)
Theorem ops_keep_reel_content (ops : list (Z * Tasks.Op)) (rs : ReelStore) :
  map frozen_part (reels (Tasks.run_ops rs ops)) = map frozen_part (reels rs).
Proof.
  revert rs. induction ops as [|[id op] ops IH]; intros rs; [reflexivity|].
  unfold Tasks.run_ops. cbn [fold_left fst snd].
  etransitivity; [apply IH|]. apply frozen_run_op.
Qed.

(** X19. [delete_reel] deletes exactly on a reel of the requesting user:
    it answers True when such a reel is stored, and then no reel with that
    id remains while every other reel stays, in order; otherwise (no such
    id, or another user's reel) it answers False and changes nothing. *)
Theorem delete_reel_spec (rs : ReelStore) (id user_id : Z) :
  let c := ReelManagement.delete_reel rs id user_id in
  (fst c = true <->
   exists r, In r (reels rs) /\ reel_id r = id /\ reel_user r = user_id)
  /\ (fst c = false -> snd c = rs)
  /\ (fst c = true ->
      FlashbackReelService.get_reel (snd c) id = None
      /\ reels (snd c)
         = List.filter (fun r => negb (reel_id r =? id)) (reels rs)
      /\ queue (snd c) = queue rs).
Proof.
  intros c. subst c. unfold ReelManagement.delete_reel.
  destruct (List.find _ (reels rs)) as [r|] eqn:Hf.
  - pose proof (List.find_some _ _ Hf) as [Hin Hr].
    apply andb_true_iff in Hr. destruct Hr as [Hid Hu].
    apply Z.eqb_eq in Hid. apply Z.eqb_eq in Hu.
    cbn [fst snd]. split; [|split].
    + split; [|reflexivity]. intros _. exists r. auto.
    + discriminate.
    + intros _. rewrite Hid. cbn [reels queue]. repeat split.
      unfold FlashbackReelService.get_reel. cbn [reels].
      destruct (List.find (fun r0 => reel_id r0 =? id)
                  (List.filter (fun r0 => negb (reel_id r0 =? id)) (reels rs)))
        as [x|] eqn:E; [|reflexivity].
      apply List.find_some in E. destruct E as [Hx Hxid].
      apply filter_In in Hx. destruct Hx as [_ Hx]. rewrite Hxid in Hx.
      discriminate.
  - cbn [fst snd]. split; [|split]; try reflexivity; try discriminate.
    split; [discriminate|]. intros [r [Hin [Hid Hu]]].
    pose proof (List.find_none _ _ Hf r Hin) as Hn. simpl in Hn.
    rewrite Hid, Hu, !Z.eqb_refl in Hn. discriminate.
Qed.

(** ** Notification delivery *)

Section Delivery.
Import MemoryNotificationService Notifications.
Variable now : datetime.

Lemma today_as_filter (ns : NotificationStore) (user : Z) :
  notifications_today ns now user
  = Z.of_nat (length (List.filter
      (fun n => (notif_user n =? user) && datetime_leb (midnight now) (sent_at n))
      (notifications ns))).
Proof. unfold notifications_today. rewrite count_true_filter. reflexivity. Qed.

Lemma midnight_before_now : 0 <= dt_secs now ->
  datetime_leb (midnight now) now = true.
Proof.
  intros H. unfold datetime_leb, midnight. cbn [dt_date dt_secs].
  assert (E : date_eqb (dt_date now) (dt_date now) = true)
    by (apply date_eqb_eq; reflexivity).
  rewrite E. apply orb_true_iff. right. apply Z.leb_le in H. rewrite H.
  reflexivity.
Qed.

(** What one insert does to the counts of a user. *)
Lemma create_counts (ns : NotificationStore) (user : Z) (memory : Memory)
    (u : Z) :
  0 <= dt_secs now ->
  let ns' := snd (create_notification ns now user memory) in
  notifications_today ns' now u
  = notifications_today ns now u + (if user =? u then 1 else 0)
  /\ user_records ns' u = user_records ns u + (if user =? u then 1 else 0).
Proof.
  intros Hs ns'. subst ns'. rewrite !today_as_filter. unfold user_records.
  unfold create_notification. cbn [snd notifications].
  rewrite !List.filter_app, !length_app. cbn [List.filter notif_user sent_at].
  rewrite (midnight_before_now Hs), andb_true_r.
  destruct (user =? u); simpl; lia.
Qed.

Lemma notify_memories_capped (Hs : 0 <= dt_secs now) (ns0 : NotificationStore)
    (user : Z) (todo : list Memory) :
  forall ns res,
    capped now ns0 ns ->
    capped now ns0 (fst (notify_memories now user todo ns res)).
Proof.
  induction todo as [|memory todo IH]; intros ns res Hc; [exact Hc|].
  cbn [notify_memories].
  destruct (should_send_notification ns now user memory) eqn:Esend.
  - destruct (create_notification ns now user memory) as [n ns'] eqn:Ec.
    apply IH. intros u.
    pose proof (create_counts ns user memory u Hs) as Hcount.
    rewrite Ec in Hcount. cbn [snd] in Hcount. destruct Hcount as [Ht Hr].
    destruct (Hc u) as [Hcap Hdiff]. rewrite Ht, Hr.
    destruct (Z.eqb_spec user u) as [->|Hne]; [|split; lia].
    rewrite should_send_notification_eq in Esend.
    apply andb_true_iff in Esend. destruct Esend as [Esend _].
    apply andb_true_iff in Esend. destruct Esend as [_ Elim].
    apply Z.ltb_lt in Elim. split; lia.
  - apply IH, Hc.
Qed.

Lemma notify_users_capped (Hs : 0 <= dt_secs now) (memories : list Memory)
    (ns0 : NotificationStore) (users : list Z) :
  forall ns res,
    capped now ns0 ns ->
    capped now ns0 (fst (notify_users now memories users ns res)).
Proof.
  induction users as [|user users IH]; intros ns res Hc; [exact Hc|].
  cbn [notify_users].
  match goal with
  | |- context [notify_memories now user ?todo ns ?r] =>
      pose proof (notify_memories_capped Hs ns0 user todo ns r Hc) as H;
      destruct (notify_memories now user todo ns r) as [ns' res']
  end.
  apply IH, H.
Qed.

(** No (user, memory) pair is notified twice. *)
Lemma notify_memories_once (user : Z) (todo : list Memory) :
  forall ns res,
    List.NoDup (map notified_pair (notifications ns)) ->
    List.NoDup (map notified_pair
                    (notifications (fst (notify_memories now user todo ns res)))).
Proof.
  induction todo as [|memory todo IH]; intros ns res Hn; [exact Hn|].
  cbn [notify_memories].
  destruct (should_send_notification ns now user memory) eqn:Esend;
    [|apply IH, Hn].
  unfold create_notification. apply IH. cbn [notifications].
  rewrite map_app. cbn [map notified_pair notif_user notif_memory].
  eapply Permutation_NoDup; [apply Permutation_cons_append|].
  constructor; [|exact Hn].
  rewrite should_send_notification_eq in Esend.
  apply andb_true_iff in Esend. destruct Esend as [Esend _].
  apply andb_true_iff in Esend. destruct Esend as [Esend _].
  apply andb_true_iff in Esend. destruct Esend as [_ Eold].
  apply negb_true_iff in Eold. unfold already_notified in Eold.
  intros Hin. apply in_map_iff in Hin. destruct Hin as [n [Hp Hin]].
  unfold notified_pair in Hp. injection Hp as Hu Hm.
  assert (Hex : existsb (fun n => (notif_user n =? user)
                                  && (notif_memory n =? mem_id memory))
                        (notifications ns) = true).
  { apply existsb_exists. exists n. split; [exact Hin|].
    rewrite Hu, Hm, !Z.eqb_refl. reflexivity. }
  congruence.
Qed.

Lemma notify_users_once (memories : list Memory) (users : list Z) :
  forall ns res,
    List.NoDup (map notified_pair (notifications ns)) ->
    List.NoDup (map notified_pair
                    (notifications (fst (notify_users now memories users ns res)))).
Proof.
  induction users as [|user users IH]; intros ns res Hn; [exact Hn|].
  cbn [notify_users].
  match goal with
  | |- context [notify_memories now user ?todo ns ?r] =>
      pose proof (notify_memories_once user todo ns r Hn) as H;
      destruct (notify_memories now user todo ns r) as [ns' res']
  end.
  apply IH, H.
Qed.

(** Rows are only added. *)
Lemma notify_memories_grows (u user : Z) (todo : list Memory) :
  forall ns res,
    user_records ns u
    <= user_records (fst (notify_memories now user todo ns res)) u.
Proof.
  induction todo as [|memory todo IH]; intros ns res; [cbn; lia|].
  cbn [notify_memories].
  destruct (should_send_notification ns now user memory); [|apply IH].
  unfold create_notification.
  etransitivity; [|apply IH].
  unfold user_records. cbn [notifications].
  rewrite List.filter_app, length_app. lia.
Qed.

Lemma notify_users_grows (u : Z) (memories : list Memory) (users : list Z) :
  forall ns res,
    user_records ns u
    <= user_records (fst (notify_users now memories users ns res)) u.
Proof.
  induction users as [|user users IH]; intros ns res; [cbn; lia|].
  cbn [notify_users].
  match goal with
  | |- context [notify_memories now user ?todo ns ?r] =>
      pose proof (notify_memories_grows u user todo ns r) as H;
      destruct (notify_memories now user todo ns r) as [ns' res']
  end.
  cbn [fst] in H. etransitivity; [exact H | apply IH].
Qed.

End Delivery.

(** X20. One run of the notification task, at a time of day that is not
    negative: for every user, the count of today's notifications ends
    within the cap of 3 unless it was above it already, and the user gets at
    most 3 new notification rows. *)
Theorem send_notifications_capped (now : datetime) (memories : list Memory)
    (active_users : list Z) (ns : NotificationStore)
    (user_ids : option (list Z)) :
  0 <= dt_secs now ->
  let ns' := fst (Notifications.send_memory_notifications now memories
                    active_users ns user_ids) in
  forall u,
    notifications_today ns' now u <= Z.max 3 (notifications_today ns now u)
    /\ user_records ns u <= user_records ns' u <= user_records ns u + 3.
Proof.
  intros Hs ns' u. subst ns'.
  unfold Notifications.send_memory_notifications.
  assert (H0 : capped now ns ns) by (intros v; split; [lia | reflexivity]).
  pose proof (notify_users_capped now Hs memories ns
                (Notifications.select_users active_users user_ids) ns
                (Notifications.mkSendResults 0 0 0 0) H0 u) as [Hcap Hdiff].
  split; [exact Hcap|].
  assert (Hpos : 0 <= notifications_today ns now u).
  { rewrite today_as_filter. lia. }
  split; [|lia].
  apply notify_users_grows.
Qed.

Lemma send_notifications_capped_witness :
  user_records
    (fst (Notifications.send_memory_notifications Sample.now [Sample.a_memory]
            [1] Sample.no_notifications None)) 1
  <= user_records Sample.no_notifications 1 + 3.
Proof.
  assert (Hs : 0 <= dt_secs Sample.now) by (simpl; lia).
  destruct (send_notifications_capped Sample.now [Sample.a_memory] [1]
              Sample.no_notifications None Hs 1) as [_ [_ H]].
  exact H.
Defined.

(** X21. The notification task never notifies a (user, memory) pair twice:
    when no pair has two notification rows before a run, none has two after
    it. *)
Theorem send_notifications_once (now : datetime) (memories : list Memory)
    (active_users : list Z) (ns : NotificationStore)
    (user_ids : option (list Z)) :
  List.NoDup (map Notifications.notified_pair (notifications ns)) ->
  List.NoDup
    (map Notifications.notified_pair
         (notifications
            (fst (Notifications.send_memory_notifications now memories
                    active_users ns user_ids)))).
Proof.
  intros Hn. unfold Notifications.send_memory_notifications.
  apply notify_users_once, Hn.
Qed.

Lemma send_notifications_once_witness :
  List.NoDup
    (map Notifications.notified_pair
         (notifications
            (fst (Notifications.send_memory_notifications Sample.now
                    [Sample.a_memory] [1] Sample.no_notifications None)))).
Proof.
  apply send_notifications_once. simpl. constructor.
Defined.

(** X22. The report of the notification task is exact: it counts every
    selected user as processed, [notifications_sent] is the number of rows
    the run appended after the rows it found, sent and skipped together are
    the candidate memories of the selected users (today's, with a score of at
    least 2), and the preferences are left alone. *)
Theorem send_notifications_report (now : datetime) (memories : list Memory)
    (active_users : list Z) (ns : NotificationStore)
    (user_ids : option (list Z)) :
  let users := Notifications.select_users active_users user_ids in
  let '(ns', res) :=
    Notifications.send_memory_notifications now memories active_users ns
      user_ids in
  Notifications.send_processed_users res = Z.of_nat (length users)
  /\ (exists added,
        notifications ns' = notifications ns ++ added
        /\ Z.of_nat (length added) = Notifications.notifications_sent res)
  /\ Notifications.notifications_sent res + Notifications.send_skipped res
     = Z.of_nat (length (flat_map
         (Notifications.significant_today memories (dt_date now)) users))
  /\ preferences ns' = preferences ns.
Proof.
  intros users. unfold Notifications.send_memory_notifications.
  fold users.
  assert (Hm : forall user todo ns0 res0,
    let '(ns1, res1) := Notifications.notify_memories now user todo ns0 res0 in
    Notifications.send_processed_users res1
    = Notifications.send_processed_users res0
    /\ (exists added,
          notifications ns1 = notifications ns0 ++ added
          /\ Z.of_nat (length added)
             = Notifications.notifications_sent res1
               - Notifications.notifications_sent res0)
    /\ Notifications.notifications_sent res1 + Notifications.send_skipped res1
       = Notifications.notifications_sent res0
         + Notifications.send_skipped res0 + Z.of_nat (length todo)
    /\ Notifications.send_errors res1 = Notifications.send_errors res0
    /\ preferences ns1 = preferences ns0).
  { intros user todo. induction todo as [|memory todo IH]; intros ns0 res0.
    - cbn. repeat split; try lia. exists []. rewrite app_nil_r. split;
        [reflexivity | simpl; lia].
    - cbn [Notifications.notify_memories].
      destruct (MemoryNotificationService.should_send_notification ns0 now user
                  memory).
      + unfold Notifications.create_notification.
        match goal with
        | |- context [Notifications.notify_memories now user todo ?s ?r] =>
            specialize (IH s r);
            destruct (Notifications.notify_memories now user todo s r)
              as [ns1 res1]
        end.
        cbn [Notifications.send_processed_users Notifications.notifications_sent
             Notifications.send_skipped Notifications.send_errors
             notifications preferences] in IH.
        destruct IH as [Hp [[added [Ha Hl]] [Hs [He Hpr]]]].
        repeat split; try assumption.
        * exists (mkNotification user (mem_id memory) now None :: added).
          split; [rewrite Ha, <- app_assoc; reflexivity|].
          cbn [length]. lia.
        * cbn [length]. lia.
      + match goal with
        | |- context [Notifications.notify_memories now user todo ?s ?r] =>
            specialize (IH s r);
            destruct (Notifications.notify_memories now user todo s r)
              as [ns1 res1]
        end.
        cbn [Notifications.send_processed_users Notifications.notifications_sent
             Notifications.send_skipped Notifications.send_errors] in IH.
        destruct IH as [Hp [[added [Ha Hl]] [Hs [He Hpr]]]].
        repeat split; try assumption.
        * exists added. split; [exact Ha | lia].
        * cbn [length]. lia. }
  assert (Hu : forall us ns0 res0,
    let '(ns1, res1) := Notifications.notify_users now memories us ns0 res0 in
    Notifications.send_processed_users res1
    = Notifications.send_processed_users res0 + Z.of_nat (length us)
    /\ (exists added,
          notifications ns1 = notifications ns0 ++ added
          /\ Z.of_nat (length added)
             = Notifications.notifications_sent res1
               - Notifications.notifications_sent res0)
    /\ Notifications.notifications_sent res1 + Notifications.send_skipped res1
       = Notifications.notifications_sent res0
         + Notifications.send_skipped res0
         + Z.of_nat (length (flat_map
             (Notifications.significant_today memories (dt_date now)) us))
    /\ Notifications.send_errors res1 = Notifications.send_errors res0
    /\ preferences ns1 = preferences ns0).
  { induction us as [|user us IH]; intros ns0 res0.
    - cbn. repeat split; try lia. exists []. rewrite app_nil_r. split;
        [reflexivity | simpl; lia].
    - cbn [Notifications.notify_users flat_map].
      match goal with
      | |- context [Notifications.notify_memories now user ?todo ns0 ?r] =>
          pose proof (Hm user todo ns0 r) as Hstep;
          destruct (Notifications.notify_memories now user todo ns0 r)
            as [ns1 res1]
      end.
      cbn [Notifications.send_processed_users Notifications.notifications_sent
           Notifications.send_skipped Notifications.send_errors] in Hstep.
      destruct Hstep as [Hp [[added [Ha Hl]] [Hs [He Hpr]]]].
      specialize (IH ns1 res1).
      destruct (Notifications.notify_users now memories us ns1 res1)
        as [ns2 res2].
      destruct IH as [Hp' [[added' [Ha' Hl']] [Hs' [He' Hpr']]]].
      repeat split.
      + cbn [length]. lia.
      + exists (added ++ added'). split.
        * rewrite Ha', Ha, <- app_assoc. reflexivity.
        * rewrite length_app. lia.
      + rewrite length_app. lia.
      + congruence.
      + congruence. }
  specialize (Hu users ns (Notifications.mkSendResults 0 0 0 0)).
  destruct (Notifications.notify_users now memories users ns
              (Notifications.mkSendResults 0 0 0 0)) as [ns' res].
  cbn [Notifications.send_processed_users Notifications.notifications_sent
       Notifications.send_skipped Notifications.send_errors] in Hu.
  destruct Hu as [Hp [[added [Ha Hl]] [Hs [He Hpr]]]].
  repeat split; try assumption; try lia.
  exists added. split; [exact Ha | lia].
Qed.

(** ** Retention *)

Lemma filter_filter_length {A : Type} (f g : A -> bool) (l : list A) :
  (length (List.filter f (List.filter g l)) <= length (List.filter f l))%nat.
Proof.
  induction l as [|x l IH]; [simpl; lia|].
  simpl. destruct (g x), (f x) eqn:Ef; simpl; try rewrite Ef; simpl; lia.
Qed.

(** The cascade leaves no row that points to a deleted memory. *)
Lemma delete_memories_references (old : Memory -> bool)
    (db : Maintenance.MemoryTables) :
  Maintenance.references_hold db ->
  Maintenance.references_hold (Maintenance.delete_memories old db).
Proof.
  assert (Hkept : forall id,
    In id (map mem_id (Maintenance.t_memories db)) ->
    negb (existsb (Z.eqb id)
            (map mem_id (List.filter old (Maintenance.t_memories db)))) = true ->
    In id (map mem_id (List.filter (fun m => negb (old m))
                                   (Maintenance.t_memories db)))).
  { intros id Hin Hk. apply in_map_iff in Hin. destruct Hin as [m [Hid Hm]].
    apply in_map_iff. exists m. split; [exact Hid|].
    apply filter_In. split; [exact Hm|].
    destruct (old m) eqn:Eo; [|reflexivity].
    apply negb_true_iff in Hk.
    assert (Hex : existsb (Z.eqb id)
                    (map mem_id (List.filter old (Maintenance.t_memories db)))
                  = true).
    { apply existsb_exists. exists id. split; [|apply Z.eqb_refl].
      apply in_map_iff. exists m. split; [exact Hid|].
      apply filter_In. split; assumption. }
    congruence. }
  unfold Maintenance.references_hold, Maintenance.delete_memories.
  cbn [Maintenance.t_memories Maintenance.t_memory_photos
       Maintenance.t_engagements Maintenance.t_notifications].
  intros (Hp & He & Hn). rewrite List.Forall_forall in Hp, He, Hn.
  repeat split; apply List.Forall_forall; intros x Hx;
    apply filter_In in Hx; destruct Hx as [Hx Hk];
    apply Hkept; auto.
Qed.

(** X23. A cleanup that returns leaves exactly the memories created at or
    after the cutoff and no notification sent before it; rows that pointed to
    a stored memory still do (the cascade takes the others); the report
    counts the memories removed exactly, and the notifications removed at
    least as many as it reports. *)
Theorem cleanup_old_memories_spec (now : datetime)
    (db db' : Maintenance.MemoryTables) (days_to_keep : Z)
    (res : Maintenance.CleanupResults) :
  Maintenance.cleanup_old_memories now db days_to_keep = Ok (res, db') ->
  exists cutoff,
    Maintenance.sub_days now days_to_keep = Ok cutoff
    /\ Maintenance.t_memories db'
       = List.filter (fun m => datetime_leb cutoff (mem_created_at m))
                     (Maintenance.t_memories db)
    /\ (forall n, In n (Maintenance.t_notifications db') ->
          In n (Maintenance.t_notifications db)
          /\ datetime_leb cutoff (sent_at n) = true)
    /\ (Maintenance.references_hold db -> Maintenance.references_hold db')
    /\ Maintenance.memories_deleted res
       = Z.of_nat (length (Maintenance.t_memories db))
         - Z.of_nat (length (Maintenance.t_memories db'))
    /\ Maintenance.notifications_deleted res
       <= Z.of_nat (length (Maintenance.t_notifications db))
          - Z.of_nat (length (Maintenance.t_notifications db')).
Proof.
  unfold Maintenance.cleanup_old_memories. intros H.
  destruct (Maintenance.sub_days now days_to_keep) as [cutoff|e] eqn:Ec;
    [|discriminate].
  cbn in H. injection H as Hres Hdb. exists cutoff.
  split; [reflexivity|]. subst res db'.
  cbn [Maintenance.t_memories Maintenance.t_memory_photos
       Maintenance.t_engagements Maintenance.t_notifications
       Maintenance.memories_deleted Maintenance.notifications_deleted].
  set (old := fun m : Memory =>
                Maintenance.datetime_ltb (mem_created_at m) cutoff).
  set (oldn := fun n : MemoryNotification =>
                 Maintenance.datetime_ltb (sent_at n) cutoff).
  assert (Hmem : List.filter (fun m => negb (old m)) (Maintenance.t_memories db)
                 = List.filter (fun m => datetime_leb cutoff (mem_created_at m))
                               (Maintenance.t_memories db)).
  { apply filter_ext. intros m. unfold old, Maintenance.datetime_ltb.
    apply negb_involutive. }
  split; [exact Hmem|].
  split.
  { intros n H. split.
    - apply filter_In in H. destruct H as [H _].
      apply filter_In in H. apply H.
    - apply filter_In in H. destruct H as [_ H].
      unfold oldn, Maintenance.datetime_ltb in H.
      rewrite negb_involutive in H. exact H. }
  split.
  { intros Href.
    pose proof (delete_memories_references old db Href) as (Hp & He & Hn).
    unfold Maintenance.references_hold, Maintenance.delete_memories in *.
    cbn [Maintenance.t_memories Maintenance.t_memory_photos
         Maintenance.t_engagements Maintenance.t_notifications] in *.
    split; [exact Hp|]. split; [exact He|].
    rewrite List.Forall_forall in Hn. apply List.Forall_forall.
    intros n Hin. apply filter_In in Hin. apply Hn, Hin. }
  split.
  - pose proof (filter_length old (Maintenance.t_memories db)) as Hl.
    unfold Maintenance.delete_memories. cbn [Maintenance.t_memories].
    subst old. cbn beta in Hl |- *. lia.
  - pose proof (filter_length oldn (Maintenance.t_notifications db)) as Hl.
    pose proof (filter_filter_length (fun n => negb (oldn n))
      (fun n => negb (existsb (Z.eqb (notif_memory n))
                        (map mem_id (List.filter old (Maintenance.t_memories db)))))
      (Maintenance.t_notifications db)) as Hle.
    unfold Maintenance.delete_memories. cbn [Maintenance.t_notifications].
    subst old oldn. cbn beta in Hl, Hle |- *. lia.
Qed.

Lemma cleanup_old_memories_spec_witness :
  exists res db',
    Maintenance.cleanup_old_memories Sample.now sample_tables 365
    = Ok (res, db')
    /\ map mem_id (Maintenance.t_memories db') = [2]
    /\ Maintenance.notifications_deleted res = 0
    /\ Maintenance.t_notifications db' = [].
Proof.
  destruct (Maintenance.cleanup_old_memories Sample.now sample_tables 365)
    as [[res db']|e] eqn:E; [|vm_compute in E; discriminate].
  exists res, db'. split; [reflexivity|].
  destruct (cleanup_old_memories_spec Sample.now sample_tables db' 365 res E)
    as (cutoff & Hc & Hm & _).
  vm_compute in Hc. injection Hc as <-.
  rewrite Hm. vm_compute in E. injection E as <- <-.
  repeat split; reflexivity.
Defined.

(** ** Batch discovery *)

Lemma filter_nil_none {A : Type} (f : A -> bool) (l : list A) (x : A) :
  List.filter f l = [] -> In x l -> f x = false.
Proof.
  intros Hf Hin. destruct (f x) eqn:E; [|reflexivity].
  assert (Hx : In x (List.filter f l)) by (apply filter_In; auto).
  rewrite Hf in Hx. destruct Hx.
Qed.

(** One discovery: the memory table grows by at most one row, by none when
    the call raises, and by no more rows than it returns; the new row does
    not repeat a (user, date) pair. *)
Lemma discover_step (ix : PhotoIndex) (now : datetime) (st : MemoryStore)
    (user_id : Z) (d : date) :
  let '(r, st') :=
    MemoryEngine.discover_daily_memories ix now st user_id (Some d) in
  exists added,
    memories st' = memories st ++ added
    /\ (length added <= 1)%nat
    /\ match r with
       | Ok ms => (length added <= length ms)%nat
       | Raise _ => added = []
       end
    /\ (unique_together (memories st) -> unique_together (memories st')).
Proof.
  destruct (cache st !! cache_key user_id d) as [cached|] eqn:Ec.
  - rewrite (discover_hit ix now st user_id d cached Ec).
    exists []. rewrite app_nil_r. repeat split; simpl; try lia. auto.
  - pose proof (discover_miss ix now st user_id d Ec) as Hm.
    destruct (MemoryEngine.discover_daily_memories ix now st user_id (Some d))
      as [r st'].
    inversion Hm as [e He | m Hin | Hrows | m rows Hrows Hid Hu Hd Hex];
      subst; cbn [memories cache_set].
    + exists []. rewrite app_nil_r. repeat split; simpl; try lia. auto.
    + exists []. rewrite app_nil_r. repeat split; simpl; try lia. auto.
    + exists []. rewrite app_nil_r. repeat split; simpl; try lia. auto.
    + exists [m]. repeat split; simpl; try lia.
      unfold unique_together. intros Hn. rewrite map_app. simpl.
      eapply Permutation_NoDup; [apply Permutation_cons_append|].
      constructor; [|exact Hn].
      intros Hk. apply in_map_iff in Hk. destruct Hk as [m' [Hk Hin]].
      unfold memory_key in Hk. injection Hk as Hu' Hd'.
      pose proof (filter_nil_none _ _ m' Hrows Hin) as Hf.
      cbn beta in Hf. rewrite Hu', Hd', Z.eqb_refl in Hf.
      assert (E : date_eqb (mem_target_date m) (mem_target_date m) = true)
        by (apply date_eqb_eq; reflexivity).
      rewrite E in Hf. discriminate.
Qed.

(** X24. A batch discovery counts every selected user once, as processed or
    as an error; it only appends to the memory table, at most one row per
    processed user and never more rows than it reports as created; and it
    keeps (user, date) pairs unique when they were. *)
Theorem batch_discover_memories_spec (ix : PhotoIndex) (now : datetime)
    (active_users : list Z) (st : MemoryStore) (user_ids : option (list Z))
    (target_date : option date) :
  let users := Notifications.select_users active_users user_ids in
  let '(st', res) :=
    Batch.batch_discover_memories ix now active_users st user_ids target_date in
  Batch.processed_users res + Batch.errors res = Z.of_nat (length users)
  /\ (exists added,
        memories st' = memories st ++ added
        /\ Z.of_nat (length added) <= Batch.memories_created res
        /\ Z.of_nat (length added) <= Batch.processed_users res)
  /\ (unique_together (memories st) -> unique_together (memories st')).
Proof.
  intros users. unfold Batch.batch_discover_memories. fold users.
  generalize (default (dt_date now) target_date). intros d.
  assert (Hloop : forall us st0 res0,
    let '(st1, res1) := Batch.discover_users ix now d us st0 res0 in
    Batch.processed_users res1 + Batch.errors res1
    = Batch.processed_users res0 + Batch.errors res0 + Z.of_nat (length us)
    /\ (exists added,
          memories st1 = memories st0 ++ added
          /\ Z.of_nat (length added)
             <= Batch.memories_created res1 - Batch.memories_created res0
          /\ Z.of_nat (length added)
             <= Batch.processed_users res1 - Batch.processed_users res0)
    /\ (unique_together (memories st0) -> unique_together (memories st1))).
  { induction us as [|user us IH]; intros st0 res0.
    - cbn. repeat split; try lia; auto. exists []. rewrite app_nil_r.
      repeat split; simpl; lia.
    - cbn [Batch.discover_users].
      pose proof (discover_step ix now st0 user d) as Hstep.
      destruct (MemoryEngine.discover_daily_memories ix now st0 user (Some d))
        as [[ms|e] st1]; destruct Hstep as [added [Ha [H1 [Hr Hun]]]].
      + match goal with
        | |- context [Batch.discover_users ix now d us st1 ?r] =>
            specialize (IH st1 r);
            destruct (Batch.discover_users ix now d us st1 r) as [st2 res2]
        end.
        cbn [Batch.processed_users Batch.memories_created Batch.errors] in IH.
        destruct IH as [Hc [[added' [Ha' [Hm' Hp']]] Hun']].
        split; [cbn [length]; lia|]. split; [|auto].
        exists (added ++ added'). split.
        * rewrite Ha', Ha, <- app_assoc. reflexivity.
        * rewrite length_app. split; lia.
      + match goal with
        | |- context [Batch.discover_users ix now d us st1 ?r] =>
            specialize (IH st1 r);
            destruct (Batch.discover_users ix now d us st1 r) as [st2 res2]
        end.
        cbn [Batch.processed_users Batch.memories_created Batch.errors] in IH.
        destruct IH as [Hc [[added' [Ha' [Hm' Hp']]] Hun']].
        subst added. rewrite app_nil_r in Ha.
        split; [cbn [length]; lia|]. split; [|auto].
        exists added'. split; [rewrite Ha', Ha; reflexivity|].
        split; lia. }
  specialize (Hloop users st (Batch.mkBatchResults 0 0 0)).
  destruct (Batch.discover_users ix now d users st (Batch.mkBatchResults 0 0 0))
    as [st' res].
  cbn [Batch.processed_users Batch.memories_created Batch.errors] in Hloop.
  destruct Hloop as [Hc [[added [Ha [Hm Hp]]] Hun]].
  split; [lia|]. split; [|exact Hun].
  exists added. repeat split; [exact Ha | lia | lia].
Qed.

(** ** Reel listing *)

Lemma datetime_leb_trans (a b c : datetime) :
  datetime_leb a b = true -> datetime_leb b c = true ->
  datetime_leb a c = true.
Proof.
  destruct a as [[ya ma da] sa], b as [[yb mb db] sb], c as [[yc mc dc] sc].
  unfold datetime_leb, date_ltb, date_leb, date_eqb.
  cbn [dt_date dt_secs year month day].
  intros H1 H2.
  destruct (Z.ltb_spec ya yb), (Z.ltb_spec yb ya), (Z.eqb_spec ya yb),
           (Z.ltb_spec ma mb), (Z.ltb_spec mb ma), (Z.eqb_spec ma mb),
           (Z.leb_spec da db), (Z.leb_spec db da), (Z.eqb_spec da db),
           (Z.leb_spec sa sb);
    try lia; cbn in H1; try discriminate;
    destruct (Z.ltb_spec yb yc), (Z.ltb_spec yc yb), (Z.eqb_spec yb yc),
             (Z.ltb_spec mb mc), (Z.ltb_spec mc mb), (Z.eqb_spec mb mc),
             (Z.leb_spec db dc), (Z.leb_spec dc db), (Z.eqb_spec db dc),
             (Z.leb_spec sb sc);
    try lia; cbn in H2; try discriminate;
    destruct (Z.ltb_spec ya yc), (Z.ltb_spec yc ya), (Z.eqb_spec ya yc),
             (Z.ltb_spec ma mc), (Z.ltb_spec mc ma), (Z.eqb_spec ma mc),
             (Z.leb_spec da dc), (Z.leb_spec dc da), (Z.eqb_spec da dc),
             (Z.leb_spec sa sc);
    try lia; reflexivity.
Qed.


(** X25. The listing of a user's reels returns at most [limit] rows of the
    store, all of the user (and of the status asked for), newest first; a
    matching reel it leaves out is not newer than any it returns; an empty
    status string filters nothing. *)
Theorem get_user_reels_spec (rs : ReelStore) (user_id : Z)
    (status : option string) (limit : nat) :
  let matching (r : FlashbackReel) : Prop :=
    In r (reels rs) /\ reel_user r = user_id
    /\ forall s, ReelManagement.status_given status = Some s ->
                 ReelManagement.status_name (reel_status r) = s in
  let newer_first (a b : FlashbackReel) : bool :=
    datetime_leb (reel_created_at b) (reel_created_at a) in
  let listed := ReelManagement.get_user_reels rs user_id status limit in
  (length listed <= limit)%nat
  /\ (forall r, In r listed -> matching r)
  /\ ordered newer_first listed
  /\ (forall r r', In r listed -> matching r' -> ~ In r' listed ->
        newer_first r r' = true)
  /\ ReelManagement.get_user_reels rs user_id (Some EmptyString) limit
     = ReelManagement.get_user_reels rs user_id None limit.
Proof.
  intros matching newer_first listed.
  set (queryset :=
         match ReelManagement.status_given status with
         | Some s =>
             List.filter
               (fun r => String.eqb (ReelManagement.status_name (reel_status r)) s)
               (List.filter (fun r => reel_user r =? user_id) (reels rs))
         | None => List.filter (fun r => reel_user r =? user_id) (reels rs)
         end).
  assert (Hl : listed
               = firstn limit (sort_by newer_first queryset)) by reflexivity.
  assert (Hq : forall r, In r queryset <-> matching r).
  { intros r. unfold queryset, matching.
    destruct (ReelManagement.status_given status) as [s|].
    - rewrite !filter_In, Z.eqb_eq, String.eqb_eq. split.
      + intros [[Hin Hu] Hs]. repeat split; try assumption.
        intros s' E. injection E as <-. exact Hs.
      + intros (Hin & Hu & Hs). repeat split; try assumption.
        apply Hs. reflexivity.
    - rewrite filter_In, Z.eqb_eq. split.
      + intros [Hin Hu]. repeat split; try assumption. discriminate.
      + intros (Hin & Hu & _). split; assumption. }
  assert (Hsorted : ordered newer_first (sort_by newer_first queryset)).
  { apply sort_by_ordered. intros a b. unfold newer_first.
    apply datetime_leb_total. }
  split; [rewrite Hl; apply firstn_le_length|].
  split.
  { intros r Hr. apply Hq. rewrite Hl in Hr. apply In_firstn in Hr.
    apply (proj1 (sort_by_In _ _ _)) in Hr. exact Hr. }
  split; [rewrite Hl; apply ordered_firstn, Hsorted|].
  split; [|reflexivity].
  intros r r' Hr Hm Hout. rewrite Hl in Hr, Hout.
  apply Hq in Hm. apply (proj2 (sort_by_In newer_first _ _)) in Hm.
  rewrite <- (firstn_skipn limit (sort_by newer_first queryset)) in Hm.
  apply in_app_or in Hm. destruct Hm as [Hm|Hm]; [contradiction|].
  apply (ordered_cut newer_first) with (n := limit)
                                       (l := sort_by newer_first queryset);
    try assumption.
  intros a b c Hab Hbc. unfold newer_first in *.
  eapply datetime_leb_trans; eassumption.
Qed.

(** ** Engagement summary *)

Lemma count_type_bump (d : list (string * Z)) (t : string) :
  List.NoDup (map fst d) -> In t (map fst d) ->
  forall seen,
    (forall t' c, In (t', c) d -> c = Z.of_nat (count_occ string_dec seen t')) ->
    let d' := map (fun kv => if String.eqb (fst kv) t
                             then (fst kv, snd kv + 1) else kv) d in
    map fst d' = map fst d
    /\ (forall t' c, In (t', c) d' ->
          c = Z.of_nat (count_occ string_dec (seen ++ [t]) t')).
Proof.
  intros Hn Hin seen Hc d'. subst d'. split.
  - rewrite map_map. apply map_ext. intros [k v]. cbn.
    destruct (String.eqb k t); reflexivity.
  - intros t' c H. apply in_map_iff in H. destruct H as [[k v] [E Hkv]].
    rewrite count_occ_app. cbn [count_occ fst snd] in *.
    specialize (Hc k v Hkv).
    destruct (String.eqb_spec k t) as [->|Hne]; injection E as <- <-.
    + destruct (string_dec t t); [|congruence]. lia.
    + destruct (string_dec t k); [congruence|]. lia.
Qed.

Lemma count_type_counts (seen : list string) (d : list (string * Z))
    (t : string) :
  counts_of seen d -> counts_of (seen ++ [t]) (Metadata.count_type d t).
Proof.
  intros (Hn & Hk & Hc). unfold Metadata.count_type.
  destruct (existsb (fun kv => String.eqb (fst kv) t) d) eqn:Ex.
  - assert (Hin : In t (map fst d)).
    { apply existsb_exists in Ex. destruct Ex as [[k v] [Hkv E]].
      apply String.eqb_eq in E. cbn in E. subst k.
      apply in_map_iff. exists (t, v). split; [reflexivity | exact Hkv]. }
    destruct (count_type_bump d t Hn Hin seen Hc) as [Hkeys Hc'].
    split; [rewrite Hkeys; exact Hn|]. split; [|exact Hc'].
    intros t'. rewrite Hkeys, Hk, in_app_iff. cbn. split; [auto|].
    intros [H|[<-|[]]]; [exact H | apply Hk, Hin].
  - assert (Hout : ~ In t (map fst d)).
    { intros Hin. apply in_map_iff in Hin. destruct Hin as [[k v] [E Hkv]].
      cbn in E. subst k.
      assert (existsb (fun kv => String.eqb (fst kv) t) d = true).
      { apply existsb_exists. exists (t, v). split; [exact Hkv|].
        apply String.eqb_refl. }
      congruence. }
    assert (Hn' : List.NoDup (map fst (d ++ [(t, 0)]))).
    { rewrite map_app. cbn.
      eapply Permutation_NoDup; [apply Permutation_cons_append|].
      constructor; assumption. }
    assert (Hin' : In t (map fst (d ++ [(t, 0)]))).
    { rewrite map_app, in_app_iff. right. left. reflexivity. }
    assert (Hc0 : forall t' c, In (t', c) (d ++ [(t, 0)]) ->
                    c = Z.of_nat (count_occ string_dec seen t')).
    { intros t' c H. apply in_app_or in H. destruct H as [H|[E|[]]].
      - apply Hc, H.
      - injection E as <- <-.
        assert (Hz : count_occ string_dec seen t = 0%nat).
        { apply count_occ_not_In. intros H. apply Hout, Hk, H. }
        rewrite Hz. reflexivity. }
    destruct (count_type_bump _ t Hn' Hin' seen Hc0) as [Hkeys Hc'].
    split; [rewrite Hkeys; exact Hn'|]. split; [|exact Hc'].
    intros t'. rewrite Hkeys, map_app, !in_app_iff, Hk. cbn. tauto.
Qed.

Lemma count_loop_counts (types : list string) :
  forall seen d,
    counts_of seen d ->
    counts_of (seen ++ types) (fold_left Metadata.count_type types d).
Proof.
  induction types as [|t types IH]; intros seen d H.
  - rewrite app_nil_r. exact H.
  - cbn [fold_left].
    replace (seen ++ t :: types) with ((seen ++ [t]) ++ types)
      by (rewrite <- app_assoc; reflexivity).
    apply IH, count_type_counts, H.
Qed.

(** The counts of a dictionary with distinct keys add up to the rows
    seen. *)
Lemma counts_total (d : list (string * Z)) :
  forall seen,
    List.NoDup (map fst d) ->
    (forall t c, In (t, c) d -> c = Z.of_nat (count_occ string_dec seen t)) ->
    dict_total d
    = Z.of_nat (length (List.filter
                          (fun t => existsb (String.eqb t) (map fst d)) seen)).
Proof.
  induction d as [|[k v] d IH]; intros seen Hn Hc.
  - cbn. clear Hc. induction seen as [|s seen IHs]; [reflexivity | exact IHs].
  - cbn [dict_total fold_right snd map fst].
    inversion Hn as [|? ? Hk Hn']; subst.
    fold (dict_total d).
    rewrite (IH seen Hn') by (intros t c H; apply Hc; right; exact H).
    rewrite (Hc k v) by (left; reflexivity).
    clear IH Hc Hn. induction seen as [|s seen IHs]; [reflexivity|].
    cbn [count_occ List.filter existsb] in IHs |- *.
    destruct (string_dec s k) as [->|Hne].
    + rewrite String.eqb_refl. cbn [orb].
      assert (Hs : existsb (String.eqb k) (map fst d) = false).
      { destruct (existsb (String.eqb k) (map fst d)) eqn:E; [|reflexivity].
        apply existsb_exists in E. destruct E as [x [Hx Ex]].
        apply String.eqb_eq in Ex. subst x. contradiction. }
      rewrite Hs. cbn [length]. lia.
    + assert (E : String.eqb s k = false).
      { apply String.eqb_neq. congruence. }
      rewrite E. cbn [orb].
      destruct (existsb (String.eqb s) (map fst d)); cbn [length]; lia.
Qed.

Lemma count_rows_of_type (table : list MemoryEngagement) (memory : Memory)
    (t : string) :
  count_occ string_dec
    (map eng_interaction_type
         (List.filter (fun e => eng_memory e =? mem_id memory) table)) t
  = length (rows_of_type table memory t).
Proof.
  unfold rows_of_type. induction table as [|e table IH]; [reflexivity|].
  cbn [List.filter]. destruct (eng_memory e =? mem_id memory); cbn [andb].
  - cbn [map count_occ].
    destruct (string_dec (eng_interaction_type e) t) as [E|E].
    + apply String.eqb_eq in E. rewrite E. cbn [length]. rewrite IH.
      reflexivity.
    + apply String.eqb_neq in E. rewrite E. exact IH.
  - exact IH.
Qed.

Lemma datetime_leb_refl (a : datetime) : datetime_leb a a = true.
Proof.
  destruct (datetime_leb a a) eqn:E; [reflexivity|].
  pose proof (datetime_leb_total a a E). congruence.
Qed.

(** X26. The engagement summary of a memory: the per-type dictionary has one
    entry per interaction type that occurs, each with the number of the
    memory's rows of that type; its counts add up to [total_engagements] and
    its size is [unique_interactions]; the recent activity is at most the
    total; the last interaction is missing only for a memory without rows and
    is otherwise a row no other row is later than. *)
Theorem engagement_summary_spec (now : datetime)
    (table : list MemoryEngagement) (memory : Memory)
    (s : Metadata.EngagementSummary) :
  Metadata.get_engagement_summary now table memory = Ok s ->
  let rows := List.filter (fun e => eng_memory e =? mem_id memory) table in
  Metadata.total_engagements s = Z.of_nat (length rows)
  /\ List.NoDup (map fst (Metadata.by_type s))
  /\ (forall t c, In (t, c) (Metadata.by_type s) ->
        1 <= c /\ c = Z.of_nat (length (rows_of_type table memory t)))
  /\ (forall e, In e rows ->
        In (eng_interaction_type e) (map fst (Metadata.by_type s)))
  /\ dict_total (Metadata.by_type s) = Metadata.total_engagements s
  /\ Metadata.unique_interactions s
     = Z.of_nat (length (Metadata.by_type s))
  /\ 0 <= Metadata.recent_activity s <= Metadata.total_engagements s
  /\ (Metadata.last_interaction s = None <-> rows = [])
  /\ (forall e, Metadata.last_interaction s = Some e ->
        In e rows
        /\ forall e', In e' rows ->
             datetime_leb (eng_timestamp e') (eng_timestamp e) = true).
Proof.
  intros H rows. unfold Metadata.get_engagement_summary in H. fold rows in H.
  destruct (Maintenance.sub_days now 7) as [cutoff|e] eqn:Ec; [|discriminate].
  cbn in H. injection H as <-.
  cbn [Metadata.total_engagements Metadata.by_type Metadata.recent_activity
       Metadata.unique_interactions Metadata.last_interaction].
  set (newer := fun a b : MemoryEngagement =>
                  datetime_leb (eng_timestamp b) (eng_timestamp a)).
  set (engagements := Metadata.newest_engagement_first rows).
  set (seen := map eng_interaction_type engagements).
  assert (Hperm : Permutation rows engagements) by apply sort_by_perm.
  assert (Hlen : length engagements = length rows)
    by (symmetry; apply Permutation_length, Hperm).
  assert (Hcount : forall t,
            count_occ string_dec seen t = length (rows_of_type table memory t)).
  { intros t. rewrite <- count_rows_of_type. fold rows. unfold seen.
    apply (proj1 (Permutation_count_occ string_dec _ _)).
    apply Permutation_map. symmetry. exact Hperm. }
  assert (Hinv : counts_of seen (fold_left Metadata.count_type seen [])).
  { apply (count_loop_counts seen [] []).
    split; [constructor|]. split; [intros t; split; intros []|].
    intros t c []. }
  destruct Hinv as (Hn & Hk & Hc).
  split; [rewrite Hlen; reflexivity|].
  split; [exact Hn|].
  split.
  { intros t c Hin. pose proof (Hc t c Hin) as E. rewrite Hcount in E.
    split; [|exact E].
    assert (Ht : In t seen).
    { apply Hk. apply in_map_iff. exists (t, c). split; [reflexivity|exact Hin]. }
    apply (count_occ_In string_dec) in Ht. rewrite Hcount in Ht. lia. }
  split.
  { intros e He. apply Hk. unfold seen. apply in_map.
    eapply Permutation_in; [exact Hperm | exact He]. }
  split.
  { rewrite (counts_total _ seen Hn Hc). rewrite filter_all.
    - unfold seen. rewrite length_map. reflexivity.
    - apply List.Forall_forall. intros t Ht. apply existsb_exists.
      exists t. split; [apply Hk, Ht | apply String.eqb_refl]. }
  split.
  { f_equal. rewrite <- (length_map fst (fold_left _ _ _)).
    apply Permutation_length, Permutation.NoDup_Permutation;
      [apply List.NoDup_nodup | exact Hn|].
    intros t. rewrite nodup_In. symmetry. apply Hk. }
  split.
  { pose proof (filter_length_le
                  (fun e => datetime_leb cutoff (eng_timestamp e)) engagements).
    lia. }
  assert (Hsorted : ordered newer (Metadata.newest_engagement_first engagements)).
  { apply sort_by_ordered. intros a b. unfold newer. apply datetime_leb_total. }
  assert (Hperm2 : Permutation rows
                     (Metadata.newest_engagement_first engagements)).
  { etransitivity; [exact Hperm | apply sort_by_perm]. }
  destruct (Metadata.newest_engagement_first engagements) as [|e rest] eqn:Es.
  - symmetry in Hperm2. apply Permutation_nil in Hperm2.
    split; [split; auto|]. intros e H. discriminate.
  - cbn [head]. split.
    + split; [discriminate|]. intros E. rewrite E in Hperm2.
      apply Permutation_nil in Hperm2. discriminate.
    + intros e0 E. injection E as <-. split.
      * eapply Permutation_in; [symmetry; exact Hperm2 | left; reflexivity].
      * intros e' He'.
        assert (Hin : In e' (e :: rest))
          by (eapply Permutation_in; [exact Hperm2 | exact He']).
        destruct Hin as [<-|Hin]; [apply datetime_leb_refl|].
        apply (ordered_head newer) with (x := e) (l := rest) (y := e') in Hsorted;
          [exact Hsorted | | exact Hin].
        intros a b c Hab Hbc. unfold newer in *.
        eapply datetime_leb_trans; eassumption.
Qed.

Lemma engagement_summary_spec_witness :
  exists s,
    Metadata.get_engagement_summary Sample.now sample_engagements
      Sample.a_memory = Ok s
    /\ dict_total (Metadata.by_type s) = 3
    /\ Metadata.unique_interactions s = 2.
Proof.
  destruct (Metadata.get_engagement_summary Sample.now sample_engagements
              Sample.a_memory) as [s|e] eqn:E; [|vm_compute in E; discriminate].
  exists s. split; [reflexivity|].
  destruct (engagement_summary_spec Sample.now sample_engagements
              Sample.a_memory s E) as (Ht & _ & _ & _ & Hsum & Hu & _).
  rewrite Hsum, Ht. split; [reflexivity|].
  vm_compute in E. injection E as <-. reflexivity.
Defined.
